(** * vscode-debug-mcp: the debug server and its stdio bridge

    A shallow embedding of the parts of [debug-server.ts] (the tool
    handlers, the stop/terminate/timeout race and the [/tcp] endpoint) and
    of [mcp/src/index.ts] (the port lookup of the bridge), followed by the
    properties proved about them.

    Conventions of the embedding.
    - A JavaScript [number] argument is a [Z], the integer it holds, and
      what the code adds to it or subtracts from it is rounded as a double
      is ([to_double]); an optional field is an [option]; [undefined] is
      [None].
    - A call that may throw returns a [Result]: [Ok v] or [Throw message],
      where [message] is the [message] of the thrown [Error].
    - The host (VS Code and the debug adapter) is not part of the program:
      what it answers is an input of the model, and what the program asks
      of it is an output. *)

From Stdlib Require Import String Ascii List ZArith Bool Lia DecimalString.
From Stdlib Require Import Permutation.
Import ListNotations.

Set Warnings "-register-all".

Local Open Scope string_scope.
Local Open Scope list_scope.

(* ================================================================== *)
(** * Part I: the program *)
(* ================================================================== *)

(** ** JavaScript values and idioms shared by the handlers *)

Module Js.

Inductive Result (A : Type) : Type :=
| Ok (value : A)
| Throw (message : string).
Arguments Ok {A} value.
Arguments Throw {A} message.

(** [if (s)] for an optional string: [undefined] and [''] are falsy. *)
Definition truthy_string (s : option string) : bool :=
  match s with
  | Some s => negb (s =? "")
  | None => false
  end.

(** [if (n)] for an optional number: [undefined] and [0] are falsy. *)
Definition truthy_number (n : option Z) : bool :=
  match n with
  | Some n => negb (n =? 0)%Z
  | None => false
  end.

(** The value of an argument once its guard has passed. *)
Definition string_value (s : option string) : string :=
  match s with Some s => s | None => "" end.

Definition number_value (n : option Z) : Z :=
  match n with Some n => n | None => 0%Z end.

(** A number is a double. The numbers the handlers compute with are
    integers, and an integer is a double when 53 bits hold its digits:
    up to [exact_limit], 2^53, every integer is one. [to_double z] is
    the double nearest to the integer [z], ties to even. *)
Definition exact_limit : Z := 9007199254740992.

Definition to_double (z : Z) : Z :=
  let a := Z.abs z in
  if (a <=? exact_limit)%Z then z
  else
    let e := (Z.log2 a - 52)%Z in
    let q := Z.shiftr a e in
    let r := (a - Z.shiftl q e)%Z in
    let half := Z.shiftl 1 (e - 1) in
    let q' :=
      if (half <? r)%Z || ((r =? half)%Z && Z.odd q) then (q + 1)%Z else q in
    (Z.sgn z * Z.shiftl q' e)%Z.

(** [a - b] and [a + b] on integral doubles (the sum or difference of a
    double and 1 never overflows). *)
Definition number_sub (a b : Z) : Z := to_double (a - b).
Definition number_add (a b : Z) : Z := to_double (a + b).

Arguments to_double : simpl never.
Arguments number_sub : simpl never.
Arguments number_add : simpl never.

(** [`${n}`] for an integral number. *)
Definition string_of_Z (z : Z) : string :=
  NilZero.string_of_int (Z.to_int z).

Definition string_of_nat (n : nat) : string :=
  string_of_Z (Z.of_nat n).

(** The double quote character, as a string. *)
Definition dquote : string := String (ascii_of_nat 34) EmptyString.

(** [names.join(', ')] *)
Definition join (sep : string) (l : list string) : string :=
  String.concat sep l.

(** The values [JSON.parse] produces. *)
Inductive json : Type :=
| JNull
| JBool (b : bool)
| JNum (n : Z)
| JStr (s : string)
| JArr (items : list json)
| JObj (fields : list (string * json)).

(** [obj[key]] on the own fields of an object literal. *)
Fixpoint field (key : string) (fields : list (string * json)) : option json :=
  match fields with
  | [] => None
  | (k, v) :: rest => if k =? key then Some v else field key rest
  end.

End Js.

Import Js.

(** ** [handleBreakpoints] *)

Module Breakpoints.

(** [vscode.SourceBreakpoint]: [location.uri.fsPath],
    [location.range.start.line] (0-based), and the four fields of the
    constructor. *)
Record SourceBreakpoint : Type := {
  fsPath : string;
  start_line : Z;
  enabled : bool;
  condition : option string;
  hitCondition : option string;
  logMessage : option string
}.

(** [vscode.debug.breakpoints] also holds breakpoints for which
    [bp instanceof vscode.SourceBreakpoint] is false. *)
Inductive BreakpointKind : Type :=
| IsSource (sb : SourceBreakpoint)
| IsFunction (functionName : string).

(** Every [vscode.Breakpoint] object has its own [id]; the host tells
    breakpoint objects apart by it. *)
Record Breakpoint : Type := {
  id : nat;
  kind : BreakpointKind
}.

Definition Store : Type := list Breakpoint.

Definition has_id (i : nat) (bps : list Breakpoint) : bool :=
  existsb (fun b => Nat.eqb (id b) i) bps.

(** [vscode.debug.addBreakpoints]: breakpoints not yet known are appended. *)
Definition addBreakpoints (store : Store) (bps : list Breakpoint) : Store :=
  store ++ filter (fun b => negb (has_id (id b) store)) bps.

(** [vscode.debug.removeBreakpoints]: the given objects leave the store. *)
Definition removeBreakpoints (store : Store) (bps : list Breakpoint) : Store :=
  filter (fun b => negb (has_id (id b) bps)) store.

(** The id the host gives to a breakpoint object made by [new]. *)
Definition fresh_id (store : Store) : nat :=
  S (list_max (map id store)).

(** The arguments of the tool. [line] is a number that holds an integer,
    hence a double: an integer [l] with [to_double l = l]. *)
Record Args : Type := {
  action : string;
  file : option string;
  line : option Z;
  arg_condition : option string;
  arg_hitCondition : option string;
  arg_logMessage : option string
}.

Record Listed : Type := {
  l_file : string;
  l_line : Z;
  l_enabled : bool;
  l_condition : option string;
  l_hitCondition : option string;
  l_logMessage : option string
}.

Inductive Response : Type :=
| SetResponse (message : string) (r_file : string) (r_line : Z)
              (r_condition r_hitCondition r_logMessage : option string)
| RemoveResponse (message : string) (removed : nat)
| ListResponse (breakpoints : list Listed) (count : nat).

(** The filter of the [remove] case. *)
Definition remove_matches (f : string) (l : Z) (bp : Breakpoint) : bool :=
  match kind bp with
  | IsSource sb => (fsPath sb =? f) && (start_line sb =? number_sub l 1)%Z
  | IsFunction _ => false
  end.

(** The [filter] and [map] of the [list] case. *)
Definition listed_of (bp : Breakpoint) : option Listed :=
  match kind bp with
  | IsSource sb =>
      Some {| l_file := fsPath sb;
              l_line := number_add (start_line sb) 1;
              l_enabled := enabled sb;
              l_condition := condition sb;
              l_hitCondition := hitCondition sb;
              l_logMessage := logMessage sb |}
  | IsFunction _ => None
  end.

Fixpoint list_source (store : Store) : list Listed :=
  match store with
  | [] => []
  | bp :: rest =>
      match listed_of bp with
      | Some e => e :: list_source rest
      | None => list_source rest
      end
  end.

Section Handler.

(** [openTextDocument] followed by [showTextDocument]: the [fsPath] of
    [editor.document.uri], or the error the host raises. *)
Variable openTextDocument : string -> Result string.

Definition handle_set (store : Store) (args : Args)
  : Result Response * Store :=
  if negb (truthy_string (file args)) then
    (Throw "file is required for set action", store)
  else if negb (truthy_number (line args)) then
    (Throw "line is required for set action", store)
  else
    let f := string_value (file args) in
    let l := number_value (line args) in
    match openTextDocument f with
    | Throw e => (Throw e, store)
    | Ok uri_fsPath =>
        (* new vscode.Position(args.line - 1, 0) refuses a negative line *)
        if (number_sub l 1 <? 0)%Z then
          (Throw "Illegal argument: line must be non-negative", store)
        else
          let bp :=
            {| id := fresh_id store;
               kind := IsSource
                 {| fsPath := uri_fsPath;
                    start_line := number_sub l 1;
                    enabled := true;
                    condition := arg_condition args;
                    hitCondition := arg_hitCondition args;
                    logMessage := arg_logMessage args |} |} in
          (Ok (SetResponse
                 ("Breakpoint set at " ++ f ++ ":" ++ string_of_Z l)
                 f l (arg_condition args) (arg_hitCondition args)
                 (arg_logMessage args)),
           addBreakpoints store [bp])
    end.

Definition handle_remove (store : Store) (args : Args)
  : Result Response * Store :=
  if negb (truthy_string (file args)) then
    (Throw "file is required for remove action", store)
  else if negb (truthy_number (line args)) then
    (Throw "line is required for remove action", store)
  else
    let f := string_value (file args) in
    let l := number_value (line args) in
    let bps := filter (remove_matches f l) store in
    if Nat.eqb (List.length bps) 0 then
      (Ok (RemoveResponse
             ("No breakpoint found at " ++ f ++ ":" ++ string_of_Z l) 0),
       store)
    else
      (Ok (RemoveResponse
             ("Removed " ++ string_of_nat (List.length bps)
                ++ " breakpoint(s) at " ++ f ++ ":" ++ string_of_Z l)
             (List.length bps)),
       removeBreakpoints store bps).

Definition handle_list (store : Store) : Result Response * Store :=
  let breakpoints := list_source store in
  (Ok (ListResponse breakpoints (List.length breakpoints)), store).

(** [switch (args.action)] *)
Definition handleBreakpoints (store : Store) (args : Args)
  : Result Response * Store :=
  if action args =? "set" then handle_set store args
  else if action args =? "remove" then handle_remove store args
  else if action args =? "list" then handle_list store
  else (Throw ("Unknown breakpoints action: " ++ action args), store).

End Handler.

End Breakpoints.

(** *** Vocabulary of the statements about [handleBreakpoints] *)

Module BreakpointsProps.
Import Breakpoints.

Definition with_line (l : option Z) (args : Args) : Args :=
  {| action := action args;
     file := file args;
     line := l;
     arg_condition := arg_condition args;
     arg_hitCondition := arg_hitCondition args;
     arg_logMessage := arg_logMessage args |}.

(** The store invariant of the host: no two breakpoint objects share an id. *)
Definition distinct_ids (store : Store) : Prop := NoDup (map id store).

(** A host that opens every file under the path it was asked for. *)
Definition open_as_given (f : string) : Result string := Ok f.


Definition bp_at (i : nat) (f : string) (l : Z) : Breakpoint :=
  {| id := i;
     kind := IsSource {| fsPath := f; start_line := l; enabled := true;
                         condition := None; hitCondition := None;
                         logMessage := None |} |}.

Definition sample_store : Store :=
  [bp_at 1 "/w/a.js" 2; bp_at 2 "/w/b.js" 2; bp_at 3 "/w/a.js" 7;
   {| id := 4; kind := IsFunction "main" |}].

Definition sample_args (a : string) (l : option Z) : Args :=
  {| action := a; file := Some "/w/a.js"; line := l;
     arg_condition := Some "x > 5"; arg_hitCondition := None;
     arg_logMessage := None |}.


End BreakpointsProps.

(** ** The stop / terminate / timeout race:
       [gatherStoppedState], [executeAndWaitForStop], [waitForLaunchResult] *)

Module Executor.

(** A [vscode.DebugSession], compared with [===]. *)
Definition Session : Type := nat.

(** The [body] of a DAP [stopped] event. *)
Record StopBody : Type := {
  threadId : option Z;
  reason : option string;
  description : option string;
  text : option string
}.

(** A stack frame as the debug adapter reports it. *)
Record Source : Type := {
  path : option string;
  name : option string
}.

Record DapFrame : Type := {
  dap_id : Z;
  dap_name : string;
  dap_source : option Source;
  dap_line : Z;
  dap_column : Z
}.

Record Frame : Type := {
  frame_id : Z;
  frame_name : string;
  frame_file : string;
  frame_line : Z;
  frame_column : Z
}.

Record StoppedState : Type := {
  file : string;
  line : Z;
  column : Z;
  stackTrace : list Frame
}.

(** The arguments of [session.customRequest('stackTrace', ...)]. *)
Record StackTraceArgs : Type := {
  st_threadId : option Z;
  st_startFrame : Z;
  st_levels : Z
}.

(** What the request settles with: the response, whose [stackFrames] may
    be missing, or a rejection. *)
Definition StackReply : Type := Result (option (list DapFrame)).

(** [f.source?.path || f.source?.name || '<unknown>'] *)
Definition file_of (f : DapFrame) : string :=
  let p := match dap_source f with Some s => path s | None => None end in
  let n := match dap_source f with Some s => name s | None => None end in
  if truthy_string p then string_value p
  else if truthy_string n then string_value n
  else "<unknown>".

Definition frame_of (f : DapFrame) : Frame :=
  {| frame_id := dap_id f;
     frame_name := dap_name f;
     frame_file := file_of f;
     frame_line := dap_line f;
     frame_column := dap_column f |}.

(** [gatherStoppedState], the request it sends ... *)
Definition stackTrace_request (threadId : option Z) : StackTraceArgs :=
  {| st_threadId := threadId; st_startFrame := 0; st_levels := 20 |}.

(** ... and what it does with the reply. *)
Definition stopped_state_of (reply : StackReply) : Result StoppedState :=
  match reply with
  | Throw e => Throw e
  | Ok stackFrames =>
      let frames := match stackFrames with Some l => l | None => [] end in
      match frames with
      | [] => Throw "No stack frames available"
      | topFrame :: _ =>
          Ok {| file := file_of topFrame;
                line := dap_line topFrame;
                column := dap_column topFrame;
                stackTrace := map frame_of frames |}
      end
  end.

Definition gatherStoppedState
    (customRequest : StackTraceArgs -> StackReply) (threadId : option Z)
  : Result StoppedState :=
  stopped_state_of (customRequest (stackTrace_request threadId)).

(** What can happen while the promise is pending. *)
Inductive Event : Type :=
| EvStopped (session : Session) (body : option StopBody)
    (* [stoppedEmitter] fires *)
| EvTerminated (session : Session)
    (* [onDidTerminateDebugSession] fires *)
| EvTimeout
    (* the 10 s timer elapses *)
| EvActionThrew (message : string)
    (* the awaited action ([executeFn] / [startDebugging]) rejects *)
| EvStackReply (reply : StackReply).
    (* the [stackTrace] request of the stop handler settles *)

(** The local state of one pending call. [stoppedDisposable],
    [terminateDisposable] and [timer] are [true] while the listener is
    subscribed (the timer armed); [gathering] holds the [body] of the stop
    event whose handler is suspended at [await gatherStoppedState]. *)
Record Pending : Type := {
  resolved : bool;
  stoppedDisposable : bool;
  terminateDisposable : bool;
  timer : bool;
  gathering : option (option StopBody)
}.

Definition start : Pending :=
  {| resolved := false;
     stoppedDisposable := true;
     terminateDisposable := true;
     timer := true;
     gathering := None |}.

(** [resolved = true; cleanup();] *)
Definition settle (st : Pending) : Pending :=
  {| resolved := true;
     stoppedDisposable := false;
     terminateDisposable := false;
     timer := false;
     gathering := gathering st |}.

Definition set_gathering (g : option (option StopBody)) (st : Pending) : Pending :=
  {| resolved := resolved st;
     stoppedDisposable := stoppedDisposable st;
     terminateDisposable := terminateDisposable st;
     timer := timer st;
     gathering := g |}.

Definition body_threadId (body : option StopBody) : option Z :=
  match body with Some b => threadId b | None => None end.
Definition body_reason (body : option StopBody) : option string :=
  match body with Some b => reason b | None => None end.
Definition body_description (body : option StopBody) : option string :=
  match body with Some b => description b | None => None end.
Definition body_text (body : option StopBody) : option string :=
  match body with Some b => text b | None => None end.

(** *** [executeAndWaitForStop] *)

Inductive Outcome : Type :=
| Stopped (state : StoppedState)
          (stopReason description exceptionText : option string)
| NotStopped (reason : string).

(** What a handler does to the outside: it calls [resolve], or it sends
    the [stackTrace] request to a session. *)
Inductive Effect (R : Type) : Type :=
| Resolve (outcome : R)
| StackTraceRequest (session : Session) (args : StackTraceArgs).
Arguments Resolve {R} outcome.
Arguments StackTraceRequest {R} session args.

(** The continuation of the stop handler after [await gatherStoppedState]. *)
Definition stop_outcome (body : option StopBody) (reply : StackReply) : Outcome :=
  match stopped_state_of reply with
  | Ok state =>
      Stopped state (body_reason body) (body_description body) (body_text body)
  | Throw e => NotStopped ("Stopped but failed to get state: " ++ e)
  end.

Section ExecuteAndWaitForStop.
Variable session : Session.
Variable fallbackThreadId : option Z.

Definition step (st : Pending) (ev : Event) : Pending * list (Effect Outcome) :=
  match ev with
  | EvStopped stoppedSession body =>
      if negb (stoppedDisposable st) then (st, [])
      else if resolved st then (st, [])
      else if Nat.eqb stoppedSession session then
        (* body?.threadId ?? fallbackThreadId *)
        let threadId :=
          match body_threadId body with
          | Some t => Some t
          | None => fallbackThreadId
          end in
        (set_gathering (Some body) (settle st),
         [StackTraceRequest session (stackTrace_request threadId)])
      else (st, [])
  | EvTerminated terminatedSession =>
      if negb (terminateDisposable st) then (st, [])
      else if resolved st then (st, [])
      else if Nat.eqb terminatedSession session then
        (settle st, [Resolve (NotStopped "Debug session terminated")])
      else (st, [])
  | EvTimeout =>
      if negb (timer st) then (st, [])
      else if resolved st then (st, [])
      else
        (settle st,
         [Resolve (NotStopped "Timed out waiting for program to stop (10s)")])
  | EvActionThrew message =>
      if negb (resolved st) then
        (settle st, [Resolve (NotStopped ("Execution failed: " ++ message))])
      else (st, [])
  | EvStackReply reply =>
      match gathering st with
      | Some body => (set_gathering None st, [Resolve (stop_outcome body reply)])
      | None => (st, [])
      end
  end.

Fixpoint run (st : Pending) (events : list Event)
  : Pending * list (Effect Outcome) :=
  match events with
  | [] => (st, [])
  | ev :: rest =>
      let (st1, effects1) := step st ev in
      let (st2, effects2) := run st1 rest in
      (st2, effects1 ++ effects2)
  end.

(** The listeners are registered, the action is invoked, and the events
    arrive in the given order. *)
Definition executeAndWaitForStop (events : list Event)
  : Pending * list (Effect Outcome) :=
  run start events.

End ExecuteAndWaitForStop.

(** *** [waitForLaunchResult] *)

Record LaunchResponse : Type := {
  lr_message : string;
  lr_reason : option string;
  lr_state : option StoppedState;
  lr_description : option string;
  lr_exceptionText : option string
}.

Definition message_only (m : string) : LaunchResponse :=
  {| lr_message := m; lr_reason := None; lr_state := None;
     lr_description := None; lr_exceptionText := None |}.

Definition if_truthy (s : option string) : option string :=
  if truthy_string s then s else None.

Definition launch_stop_response (body : option StopBody) (reply : StackReply)
  : LaunchResponse :=
  match stopped_state_of reply with
  | Ok state =>
      let stopReason := body_reason body in
      let reasonSuffix :=
        (if truthy_string stopReason
         then " (" ++ string_value stopReason ++ ")" else "")%string in
      {| lr_message :=
           "Debug session started - stopped at " ++ file state ++ ":"
             ++ string_of_Z (line state) ++ reasonSuffix;
         lr_reason := stopReason;
         lr_state := Some state;
         lr_description := if_truthy (body_description body);
         lr_exceptionText := if_truthy (body_text body) |}
  | Throw e =>
      message_only
        ("Debug session started - stopped but failed to get state: " ++ e)
  end.

Definition launch_step (st : Pending) (ev : Event)
  : Pending * list (Effect LaunchResponse) :=
  match ev with
  | EvStopped session body =>
      if negb (stoppedDisposable st) then (st, [])
      else if resolved st then (st, [])
      else
        match body_threadId body with
        | None =>
            (settle st,
             [Resolve (message_only
                "Debug session started but no thread ID in stopped event")])
        | Some threadId =>
            (set_gathering (Some body) (settle st),
             [StackTraceRequest session (stackTrace_request (Some threadId))])
        end
  | EvTerminated _ =>
      if negb (terminateDisposable st) then (st, [])
      else if resolved st then (st, [])
      else (settle st, [Resolve (message_only "Debug session terminated")])
  | EvTimeout =>
      if negb (timer st) then (st, [])
      else if resolved st then (st, [])
      else
        (settle st,
         [Resolve (message_only "Debug session started (program is running)")])
  | EvActionThrew message =>
      if negb (resolved st) then
        (settle st,
         [Resolve (message_only ("Failed to start debug session: " ++ message))])
      else (st, [])
  | EvStackReply reply =>
      match gathering st with
      | Some body =>
          (set_gathering None st, [Resolve (launch_stop_response body reply)])
      | None => (st, [])
      end
  end.

Fixpoint launch_run (st : Pending) (events : list Event)
  : Pending * list (Effect LaunchResponse) :=
  match events with
  | [] => (st, [])
  | ev :: rest =>
      let (st1, effects1) := launch_step st ev in
      let (st2, effects2) := launch_run st1 rest in
      (st2, effects1 ++ effects2)
  end.

Definition waitForLaunchResult (events : list Event)
  : Pending * list (Effect LaunchResponse) :=
  launch_run start events.

(** The outcomes passed to [resolve], in order. *)
Fixpoint outcomes {R : Type} (effects : list (Effect R)) : list R :=
  match effects with
  | [] => []
  | Resolve o :: rest => o :: outcomes rest
  | StackTraceRequest _ _ :: rest => outcomes rest
  end.

(** The [stackTrace] requests sent, in order. *)
Fixpoint requests {R : Type} (effects : list (Effect R))
  : list (Session * StackTraceArgs) :=
  match effects with
  | [] => []
  | Resolve _ :: rest => requests rest
  | StackTraceRequest s a :: rest => (s, a) :: requests rest
  end.

End Executor.

(** *** Vocabulary of the statements about the race *)

Module ExecutorProps.
Import Executor.

(** The reply the suspended stop handler will see: the first one. *)
Fixpoint first_reply (events : list Event) : option StackReply :=
  match events with
  | [] => None
  | EvStackReply r :: _ => Some r
  | _ :: rest => first_reply rest
  end.

(** The three listeners are gone and the guard is set. *)
Definition cancelled (st : Pending) : Prop :=
  resolved st = true /\ stoppedDisposable st = false /\
  terminateDisposable st = false /\ timer st = false.

Section ExecuteAndWaitForStop.
Variable session : Session.

(** The events that settle a pending call: a stop or the termination of
    [session], the timer, a failure of the action. *)
Definition fires (ev : Event) : bool :=
  match ev with
  | EvStopped s _ => Nat.eqb s session
  | EvTerminated s => Nat.eqb s session
  | EvTimeout => true
  | EvActionThrew _ => true
  | EvStackReply _ => false
  end.

Definition quiet (ev : Event) : Prop := fires ev = false.

Definition waiting (body : option StopBody) : Pending :=
  set_gathering (Some body) (settle start).

Definition done : Pending := settle start.

(** The outcome a firing event leads to, given what follows it. *)
Definition settled_by (ev : Event) (post : list Event) : list Outcome :=
  match ev with
  | EvStopped _ body =>
      match first_reply post with
      | Some r => [stop_outcome body r]
      | None => []
      end
  | EvTerminated _ => [NotStopped "Debug session terminated"]
  | EvTimeout => [NotStopped "Timed out waiting for program to stop (10s)"]
  | EvActionThrew m => [NotStopped ("Execution failed: " ++ m)]
  | EvStackReply _ => []
  end.

End ExecuteAndWaitForStop.

(** For [waitForLaunchResult] every event fires, but a stray reply. *)
Definition launch_quiet (ev : Event) : Prop :=
  match ev with EvStackReply _ => True | _ => False end.

(** Concrete inputs. *)
Definition frame_at (n : Z) : DapFrame :=
  {| dap_id := n; dap_name := "main";
     dap_source := Some {| path := Some "/w/app.js"; name := Some "app.js" |};
     dap_line := 7; dap_column := 1 |}.

Definition breakpoint_hit : option StopBody :=
  Some {| threadId := Some 1%Z; reason := Some "breakpoint";
          description := None; text := None |}.

Definition one_frame_run : list Event :=
  [EvStopped 1 breakpoint_hit; EvStackReply (Ok (Some [frame_at 0]))].

Definition one_frame_state : StoppedState :=
  {| file := "/w/app.js"; line := 7; column := 1;
     stackTrace := [frame_of (frame_at 0)] |}.

Definition long_stack : list DapFrame := map frame_at (map Z.of_nat (seq 0 21)).

End ExecutorProps.

(** *** More vocabulary for the race *)

Module ExecutorMoreProps.
Import Executor.

(** A stop or a termination of another session than the one waited for. *)
Definition foreign (session : Session) (ev : Event) : bool :=
  match ev with
  | EvStopped s _ => negb (Nat.eqb s session)
  | EvTerminated s => negb (Nat.eqb s session)
  | _ => false
  end.

(** For [waitForLaunchResult]: anything but the reply to a stack query. *)
Definition launch_fires (ev : Event) : bool :=
  match ev with
  | EvStackReply _ => false
  | _ => true
  end.

End ExecutorMoreProps.

(** ** [handleExecute]: [launch] and [continue] / [stepOver] / [stepIn] / [stepOut] *)

Module Execute.

Definition Session : Type := Executor.Session.

(** One entry of [configurations] in launch.json: its [name], and the
    other fields. *)
Record Config : Type := {
  name : string;
  fields : list (string * json)
}.

(** A workspace folder, with what
    [getConfiguration('launch', folder.uri).get('configurations')] returns
    for it ([None] for [undefined]). *)
Record WorkspaceFolder : Type := {
  fsPath : string;
  configurations : option (list Config)
}.

(** [vscode.debug.activeStackItem] *)
Inductive StackItem : Type :=
| NoStackItem
| DebugThread (threadId : Z)
| DebugStackFrame (threadId : Z) (frameId : Z).

(** What the handler reads from the host. [threads] is what
    [session.customRequest('threads')] settles with: the ids of
    [threadsResponse.threads], [None] when the response has none. *)
Record Host : Type := {
  workspaceFolders : list WorkspaceFolder;
  activeDebugSession : option Session;
  activeStackItem : StackItem;
  threads : Result (option (list Z))
}.

Record Args : Type := {
  configurationName : option string;
  noDebug : option bool;
  threadId : option Z;
  granularity : option string
}.

(** *** [case 'launch'] *)

(** How the [launch] case ends: it throws, it returns a message without
    starting anything, or it reaches
    [waitForLaunchResult(workspaceFolder, config)], which starts the
    session. [set_noDebug] tells whether [config.noDebug = true] ran. *)
Inductive Launch : Type :=
| LaunchThrows (message : string)
| LaunchReturns (message : string) (names : option (list string))
| LaunchStarts (folder : WorkspaceFolder) (config : Config) (set_noDebug : bool).

Definition truthy_bool (b : option bool) : bool :=
  match b with Some true => true | _ => false end.

Section Launch.

(** The substitution of [${workspaceFolder}] by the folder's path in
    every string of the configuration. *)
Variable replacePlaceholders : string -> Config -> Config.

Definition handle_launch (host : Host) (args : Args) : Launch :=
  match workspaceFolders host with
  | [] => LaunchThrows "No workspace folder found"
  | workspaceFolder :: _ =>
      let configs :=
        match configurations workspaceFolder with
        | Some l => l
        | None => []
        end in
      if Nat.eqb (List.length configs) 0 then
        LaunchThrows "No debug configurations found in launch.json"
      else
        let names := map name configs in
        let selected : Launch + Config :=
          if truthy_string (configurationName args) then
            let wanted := string_value (configurationName args) in
            match find (fun c => name c =? wanted) configs with
            | Some c => inr c
            | None =>
                inl (LaunchThrows
                       ("Configuration " ++ dquote ++ wanted ++ dquote
                          ++ " not found. Available: " ++ join ", " names))
            end
          else
            match configs with
            | [c] => inr c
            | _ =>
                inl (LaunchReturns
                       "Multiple debug configurations available. Specify configurationName."
                       (Some names))
            end in
        match selected with
        | inl finished => finished
        | inr c =>
            let config := replacePlaceholders (fsPath workspaceFolder) c in
            match activeDebugSession host with
            | Some _ => LaunchReturns "Debug session already active" None
            | None =>
                LaunchStarts workspaceFolder config (truthy_bool (noDebug args))
            end
        end
  end.

End Launch.

(** *** [case 'continue': case 'stepOver': case 'stepIn': case 'stepOut'] *)

Inductive StepAction : Type := Continue | StepOver | StepIn | StepOut.

Definition dapCommandMap (a : StepAction) : string :=
  match a with
  | Continue => "continue"
  | StepOver => "next"
  | StepIn => "stepIn"
  | StepOut => "stepOut"
  end.

Definition vscodeCommandMap (a : StepAction) : string :=
  match a with
  | Continue => "workbench.action.debug.continue"
  | StepOver => "workbench.action.debug.stepOver"
  | StepIn => "workbench.action.debug.stepInto"
  | StepOut => "workbench.action.debug.stepOut"
  end.

Definition is_continue (a : StepAction) : bool :=
  match a with Continue => true | _ => false end.

Definition resolveThreadId (host : Host) (explicitThreadId : option Z) : Result Z :=
  match explicitThreadId with
  | Some t => Ok t
  | None =>
      match activeStackItem host with
      | DebugThread t => Ok t
      | DebugStackFrame t _ => Ok t
      | NoStackItem =>
          match threads host with
          | Throw e => Throw e
          | Ok (Some (first :: _)) => Ok first
          | Ok _ => Throw "No threads available"
          end
      end
  end.

Record DapArgs : Type := {
  dap_threadId : Z;
  dap_granularity : option string
}.

(** The action handed to [executeAndWaitForStop]. *)
Inductive ExecuteFn : Type :=
| CustomRequest (dapCommand : string) (dapArgs : DapArgs)
    (* session.customRequest(dapCommand, dapArgs) *)
| ExecuteCommand (vscodeCommand : string).
    (* vscode.commands.executeCommand(vscodeCommand) *)

Definition useCustomRequest (args : Args) (action : StepAction) : bool :=
  match threadId args with
  | Some _ => true
  | None => truthy_string (granularity args) && negb (is_continue action)
  end.

(** Up to the call [executeAndWaitForStop(session, executeFn, threadId)]:
    its three arguments. *)
Definition handle_step (host : Host) (args : Args) (action : StepAction)
  : Result (Session * ExecuteFn * Z) :=
  match activeDebugSession host with
  | None => Throw "No active debug session"
  | Some session =>
      match resolveThreadId host (threadId args) with
      | Throw e => Throw e
      | Ok threadId =>
          let executeFn :=
            if useCustomRequest args action then
              CustomRequest (dapCommandMap action)
                {| dap_threadId := threadId;
                   dap_granularity :=
                     if truthy_string (granularity args)
                          && negb (is_continue action)
                     then granularity args else None |}
            else
              ExecuteCommand (vscodeCommandMap action) in
          Ok (session, executeFn, threadId)
      end
  end.

End Execute.

(** *** Vocabulary of the statements about [handleExecute] *)

Module ExecuteProps.
Import Execute.

(** [launchConfig.get('configurations')] with [undefined] read as none. *)
Definition configs_of (folder : WorkspaceFolder) : list Config :=
  match configurations folder with
  | Some l => l
  | None => []
  end.

(** A step action with a stepping granularity to pass on. *)
Definition passes_granularity (args : Args) (action : StepAction) : bool :=
  truthy_string (granularity args) && negb (is_continue action).

(** Concrete inputs. *)
Definition keep_config (root : string) (c : Config) : Config := c.

Definition launch_program : Config :=
  {| name := "Launch Program";
     fields := [("type", JStr "node"); ("request", JStr "launch")] |}.

Definition single_config_folder : WorkspaceFolder :=
  {| fsPath := "/w"; configurations := Some [launch_program] |}.

Definition idle_host : Host :=
  {| workspaceFolders := [single_config_folder];
     activeDebugSession := None;
     activeStackItem := NoStackItem;
     threads := Ok None |}.

Definition debugging_host : Host :=
  {| workspaceFolders := [single_config_folder];
     activeDebugSession := Some 1;
     activeStackItem := DebugThread 1;
     threads := Ok (Some [1%Z]) |}.

Definition no_args : Args :=
  {| configurationName := None; noDebug := None;
     threadId := None; granularity := None |}.

Definition with_granularity (g : string) : Args :=
  {| configurationName := None; noDebug := None;
     threadId := None; granularity := Some g |}.

End ExecuteProps.

(** ** The stdio bridge: [getPortFromConfig] *)

Module Bridge.

(** A value of the registry object, as [typeof port !== 'number'] sees it. *)
Inductive RegistryValue : Type :=
| Port (port : Z)
| NotANumber.

(** [port-config.json] as the bridge finds it: absent; present but reading
    it, parsing it or listing its entries throws; or present, with the
    entries [Object.entries(registry)] lists, in that order. *)
Inductive ConfigFile : Type :=
| Missing
| Unreadable
| Registry (entries : list (string * RegistryValue)).

Definition default_port : Z := 4711.

Section Lookup.

(** [path.sep] *)
Variable sep : string.

(** [process.cwd()] *)
Variable cwd : string.

(** [cwd === workspacePath || cwd.startsWith(workspacePath + path.sep)] *)
Definition under (workspacePath : string) : bool :=
  (cwd =? workspacePath) || String.prefix (workspacePath ++ sep) cwd.

(** The [for] loop, from the entries still to visit and the current
    [bestMatch] and [bestPort]. *)
Fixpoint scan (entries : list (string * RegistryValue))
    (bestMatch : string) (bestPort : option Z) : string * option Z :=
  match entries with
  | [] => (bestMatch, bestPort)
  | (workspacePath, NotANumber) :: rest => scan rest bestMatch bestPort
  | (workspacePath, Port port) :: rest =>
      if under workspacePath then
        if (String.length bestMatch <? String.length workspacePath)%nat then
          scan rest workspacePath (Some port)
        else scan rest bestMatch bestPort
      else scan rest bestMatch bestPort
  end.

(** [Object.values(registry).filter(v => typeof v === 'number')] *)
Fixpoint ports (entries : list (string * RegistryValue)) : list Z :=
  match entries with
  | [] => []
  | (_, Port port) :: rest => port :: ports rest
  | (_, NotANumber) :: rest => ports rest
  end.

Definition getPortFromConfig (config : ConfigFile) : Z :=
  match config with
  | Missing => default_port
  | Unreadable => default_port
  | Registry registry =>
      match snd (scan registry "" None) with
      | Some bestPort => bestPort
      | None =>
          match ports registry with
          | first :: _ => first
          | [] => default_port
          end
      end
  end.

End Lookup.

End Bridge.

(** *** Vocabulary of the statements about the port lookup *)

Module BridgeProps.
Import Bridge.

(** The working directory is the root itself, or the root followed by
    the separator and more. A root that ends in the separator, as [/]
    does, has only itself here: [/] followed by [/] starts no path. *)
Definition at_or_below (sep cwd root : string) : Prop :=
  cwd = root \/ exists rest, cwd = (root ++ sep ++ rest)%string.

(** The first entry of the registry whose value is a number. *)
Inductive first_port : list (string * RegistryValue) -> option Z -> Prop :=
| no_port : first_port [] None
| this_port k p rest : first_port ((k, Port p) :: rest) (Some p)
| later_port k rest found :
    first_port rest found -> first_port ((k, NotANumber) :: rest) found.

End BridgeProps.

(** ** The [/tcp] endpoint and [handleCommand] *)

Module Tcp.

(** [JSON.parse(body)]: a [SyntaxError], or the parsed value. *)
Inductive Parsed : Type :=
| SyntaxError (message : string)
| Value (request : json).

(** The object given to [JSON.stringify] for the response body; a [data]
    that is [undefined] is left out of the body, so it is [None] here. *)
Record Envelope : Type := {
  success : bool;
  data : option json;
  error : option string
}.

Record HttpResponse : Type := {
  status : Z;
  body : Envelope
}.

(** [request[key]]: reading a property of [null] throws a [TypeError];
    an object gives its field; any other value has no such property. *)
Definition property (key : string) (request : json) : Result (option json) :=
  match request with
  | JNull =>
      Throw ("Cannot read properties of null (reading '" ++ key ++ "')")
  | JObj fields => Ok (field key fields)
  | _ => Ok None
  end.

(** [`${v}`] *)
Fixpoint template (v : json) : string :=
  match v with
  | JNull => "null"
  | JBool true => "true"
  | JBool false => "false"
  | JNum n => string_of_Z n
  | JStr s => s
  | JArr items =>
      join ","
        (map (fun item => match item with
                          | JNull => ""
                          | _ => template item
                          end) items)
  | JObj _ => "[object Object]"
  end.

Definition template_opt (v : option json) : string :=
  match v with
  | Some v => template v
  | None => "undefined"
  end.

(** [v === 'literal'] *)
Definition is_string (v : option json) (literal : string) : bool :=
  match v with
  | Some (JStr s) => s =? literal
  | _ => false
  end.

Section Endpoint.

(** The exported [tools] array. *)
Variable tools : json.

(** The three handlers, from [request.arguments] to what they return or
    throw. *)
Variable handleExecute : option json -> Result json.
Variable handleBreakpoints : option json -> Result json.
Variable handleInspect : option json -> Result json.

(** Called on a request whose [type] was read, hence not [null]. *)
Definition handleCommand (request : json) : Result json :=
  match property "tool" request, property "arguments" request with
  | Ok tool, Ok arguments =>
      if is_string tool "debug_execute" then handleExecute arguments
      else if is_string tool "debug_breakpoints" then handleBreakpoints arguments
      else if is_string tool "debug_inspect" then handleInspect arguments
      else Throw ("Unknown tool: " ++ template_opt tool)
  | Throw e, _ => Throw e
  | _, Throw e => Throw e
  end.

Definition succeed (response : option json) : HttpResponse :=
  {| status := 200;
     body := {| success := true; data := response; error := None |} |}.

Definition fail (message : string) : HttpResponse :=
  {| status := 500;
     body := {| success := false; data := None; error := Some message |} |}.

(** The [req.on('end', ...)] callback of [POST /tcp]. *)
Definition tcp (parsed : Parsed) : HttpResponse :=
  match parsed with
  | SyntaxError message => fail message
  | Value request =>
      match property "type" request with
      | Throw message => fail message
      | Ok type =>
          if is_string type "listTools" then
            succeed (Some (JObj [("tools", tools)]))
          else if is_string type "callTool" then
            match handleCommand request with
            | Ok response => succeed (Some response)
            | Throw message => fail message
            end
          else
            (* [response] is still [undefined] *)
            succeed None
      end
  end.

End Endpoint.

End Tcp.

(** *** Vocabulary of the statements about the [/tcp] endpoint *)

Module TcpProps.
Import Tcp.

(** The body [{"type": "bogus"}]. *)
Definition bogus_request : Parsed :=
  Value (JObj [("type", JStr "bogus")]).

(** A request whose [type] is neither of the two the endpoint knows. *)
Definition unrecognized (request : json) : Prop :=
  exists type,
    property "type" request = Ok type /\
    is_string type "listTools" = false /\
    is_string type "callTool" = false.

(** A failure envelope: [{success: false, error: message}]. *)
Definition rejected (r : HttpResponse) : Prop :=
  success (body r) = false /\ exists message, error (body r) = Some message.

End TcpProps.

(** ** The port registry as the extension writes it:
       [readPortRegistry], [writePortRegistry], [registerWorkspacePorts],
       [unregisterWorkspacePorts]; and the earlier, single-port layout *)

Module Registry.
Import Bridge.

(** The registry object, by its entries in enumeration order. *)
Definition Entries : Type := list (string * RegistryValue).

(** What [JSON.parse] gives for the content of the file: a JSON object,
    the declared [Record<string, number>]; or an array, [null], or a
    number, string or boolean, here with its [typeof] and its text. *)
Inductive Parsed : Type :=
| Object (registry : Entries)
| Array (items : list RegistryValue)
| Null
| Primitive (type text : string).

(** [port-config.json] as the extension finds it: absent; present, but
    [readFileSync] or [JSON.parse] throws; or holding a JSON value. *)
Inductive PortConfig : Type :=
| Absent
| Corrupt
| Holds (value : Parsed).

(** The items of an array under their indices, from index [i] on. *)
Fixpoint indexed (i : nat) (items : list RegistryValue) : Entries :=
  match items with
  | [] => []
  | v :: rest => (string_of_nat i, v) :: indexed (S i) rest
  end.

(** The same file, as the bridge reads it: [Object.entries] lists the
    items of an array and the characters of a string under their
    indices, lists nothing for a number or a boolean, and throws on
    [null]. *)
Definition as_bridge_sees (file : PortConfig) : ConfigFile :=
  match file with
  | Absent => Missing
  | Corrupt => Unreadable
  | Holds (Object registry) => Registry registry
  | Holds (Array items) => Registry (indexed 0 items)
  | Holds Null => Unreadable
  | Holds (Primitive type text) =>
      if type =? "string"
      then Registry (indexed 0 (repeat NotANumber (String.length text)))
      else Registry []
  end.

Definition readPortRegistry (file : PortConfig) : Parsed :=
  match file with
  | Holds value => value
  | Absent => Object []
  | Corrupt => Object []
  end.

(** The entries of the registry object, when the file holds one. *)
Definition own_entries (file : PortConfig) : Entries :=
  match readPortRegistry file with
  | Object registry => registry
  | _ => []
  end.

(** [registry[key] = value]: the value of a known key is replaced where
    it stands, a new key goes last. (The keys set here are
    [folder.uri.fsPath], absolute paths, never array indices, which an
    object would enumerate first.) *)
Fixpoint obj_set (key : string) (value : RegistryValue) (registry : Entries)
  : Entries :=
  match registry with
  | [] => [(key, value)]
  | (k, v) :: rest =>
      if k =? key then (k, value) :: rest
      else (k, v) :: obj_set key value rest
  end.

(** [delete registry[key]] *)
Definition obj_delete (key : string) (registry : Entries) : Entries :=
  filter (fun kv => negb (fst kv =? key)) registry.

(** [writePortRegistry], given what [writeFileSync] does: the new file
    and the error message shown, if any. A write that throws is taken to
    leave the file as it was. *)
Definition writePortRegistry (writeFileSync : Result unit)
    (file : PortConfig) (registry : Parsed) : PortConfig * option string :=
  match writeFileSync with
  | Ok _ => (Holds registry, None)
  | Throw e => (file, Some ("Failed to write port configuration: " ++ e)%string)
  end.

(** How a call ends: it returns, having shown an error message or none,
    or it throws. *)
Inductive Outcome : Type :=
| Returns (shown : option string)
| Throws (message : string).

Section Folders.

(** Whether the bundled extension runs in strict mode
    ([alwaysStrict] of [tsconfig.json], which is not among the
    sources): an assignment to a property of a number, string or
    boolean then throws, and is ignored otherwise. *)
Variable strict : bool.

(** [vscode.workspace.workspaceFolders ?? []], by their [uri.fsPath]. *)
Variable folders : list string.

Definition registered (port : Z) (registry : Entries) : Entries :=
  fold_left (fun r folder => obj_set folder (Port port) r) folders registry.

Definition unregistered (registry : Entries) : Entries :=
  fold_left (fun r folder => obj_delete folder r) folders registry.

(** The entries whose key is none of the folders. *)
Definition kept (kv : string * RegistryValue) : bool :=
  negb (existsb (fun g => fst kv =? g) folders).

(** [for (const folder of folders) registry[folder.uri.fsPath] = port]:
    on an array the assignments make named properties, which
    [JSON.stringify] leaves out; on [null] the first one throws. *)
Definition assign_all (port : Z) (registry : Parsed) : Result Parsed :=
  match registry with
  | Object r => Ok (Object (registered port r))
  | Array items => Ok (Array items)
  | Null =>
      match folders with
      | [] => Ok Null
      | folder :: _ =>
          Throw ("Cannot set properties of null (setting '" ++ folder
                   ++ "')")%string
      end
  | Primitive type text =>
      match folders with
      | [] => Ok registry
      | folder :: _ =>
          if strict then
            Throw ("Cannot create property '" ++ folder ++ "' on "
                     ++ type ++ " '" ++ text ++ "'")%string
          else Ok registry
      end
  end.

(** [for (const folder of folders) delete registry[folder.uri.fsPath]] *)
Definition delete_all (registry : Parsed) : Result Parsed :=
  match registry with
  | Object r => Ok (Object (unregistered r))
  | Null =>
      match folders with
      | [] => Ok Null
      | _ :: _ => Throw "Cannot convert undefined or null to object"
      end
  | Array items => Ok (Array items)
  | Primitive type text => Ok registry
  end.

(** The file after the call, and how the call ends. *)
Definition registerWorkspacePorts (port : Z) (writeFileSync : Result unit)
    (file : PortConfig) : PortConfig * Outcome :=
  match assign_all port (readPortRegistry file) with
  | Throw e => (file, Throws e)
  | Ok registry =>
      let (file', shown) := writePortRegistry writeFileSync file registry in
      (file', Returns shown)
  end.

Definition unregisterWorkspacePorts (writeFileSync : Result unit)
    (file : PortConfig) : PortConfig * Outcome :=
  match delete_all (readPortRegistry file) with
  | Throw e => (file, Throws e)
  | Ok registry =>
      let (file', shown) := writePortRegistry writeFileSync file registry in
      (file', Returns shown)
  end.

End Folders.

(** *** The earlier layout: one port for all windows *)

(** What the earlier [activate] writes:
    [JSON.stringify({ port })] with [port = config.get('port') ?? 4711]. *)
Definition single_port_config (configured : option Z) : ConfigFile :=
  Registry [("port", Port match configured with
                          | Some p => p
                          | None => 4711%Z
                          end)].

Fixpoint own (key : string) (entries : Entries) : option RegistryValue :=
  match entries with
  | [] => None
  | (k, v) :: rest => if k =? key then Some v else own key rest
  end.

(** The earlier [getPortFromConfig] of the bridge:
    [config && typeof config.port === 'number' ? config.port : 4711]. *)
Definition single_port_lookup (config : ConfigFile) : Z :=
  match config with
  | Registry entries =>
      match own "port" entries with
      | Some (Port port) => port
      | _ => 4711%Z
      end
  | Missing => 4711%Z
  | Unreadable => 4711%Z
  end.

(** Concrete inputs. *)
Definition two_windows : Entries :=
  [("/home/u/api", Port 4711); ("/home/u/web", Port 4712)].

End Registry.

(** ** The listening server: [setPort], [start], [stop], and [startServer]
       of the extension *)

Module Server.
Import Registry.

(** The fields of [DebugServer] that [start] and [stop] use: whether
    [this.server] is set, [this.port], [this._isRunning]. *)
Record DebugServer : Type := {
  server : bool;
  port : Z;
  isRunning : bool
}.

(** [port || 4711] *)
Definition port_or_default (port : Z) : Z :=
  if (port =? 0)%Z then 4711%Z else port.

(** [new DebugServer(port)] *)
Definition create (port : Z) : DebugServer :=
  {| server := false; port := port_or_default port; isRunning := false |}.



(** What [this.server.listen(portToTry, ...)] leads to: the listening
    callback, or an [error] event with its [code] and [message]. *)
Inductive Listen : Type :=
| Listening
| ListenError (code : string) (message : string).

Definition maxAttempts : nat := 10.

(** The [for] loop of [start], from [attempt] on, with [remaining]
    iterations to go. *)
Fixpoint attempts (listen : Z -> Listen) (remaining : nat) (attempt : Z)
    (s : DebugServer) : Result unit * DebugServer :=
  match remaining with
  | O => (Ok tt, s)
  | S remaining' =>
      let portToTry := (port s + attempt)%Z in
      match listen portToTry with
      | Listening =>
          (Ok tt,
           {| server := server s; port := portToTry; isRunning := true |})
      | ListenError code message =>
          if (code =? "EADDRINUSE")
             && (attempt <? Z.of_nat maxAttempts - 1)%Z
          then attempts listen remaining' (attempt + 1)%Z s
          else (Throw message, s)
      end
  end.

Definition start (listen : Z -> Listen) (s : DebugServer)
  : Result unit * DebugServer :=
  if server s then (Throw "Server is already running", s)
  else
    attempts listen maxAttempts 0%Z
      {| server := true; port := port s; isRunning := isRunning s |}.

(** [stop], once the server has closed: [this.server = null],
    [this._isRunning = false]. *)
Definition stop (s : DebugServer) : DebugServer :=
  {| server := false; port := port s; isRunning := false |}.


(** The port answers [EADDRINUSE]. *)
Definition in_use (listen : Z -> Listen) (p : Z) : Prop :=
  exists message, listen p = ListenError "EADDRINUSE" message.

(** Concrete inputs: ports 4711 and 4712 are taken. *)
Definition two_taken (p : Z) : Listen :=
  if (p =? 4711)%Z || (p =? 4712)%Z
  then ListenError "EADDRINUSE" "listen EADDRINUSE: address already in use"
  else Listening.

Definition all_taken (p : Z) : Listen :=
  ListenError "EADDRINUSE" "listen EADDRINUSE: address already in use".

End Server.

(** ** [handleExecute]: the other cases, and a step call from its
       arguments to its response *)

Module ExecuteMore.
Import Execute.

(** *** [case 'stop'] *)

(** The result, and the sessions [vscode.debug.stopDebugging] was called
    on. *)
Definition handle_stop (stopDebugging : Session -> Result unit) (host : Host)
  : Result string * list Session :=
  match activeDebugSession host with
  | None => (Ok "No active debug session", [])
  | Some session =>
      match stopDebugging session with
      | Ok _ => (Ok "Debug session stopped", [session])
      | Throw e => (Throw e, [session])
      end
  end.

(** *** [case 'listConfigurations'] *)

Record ListedConfig : Type := {
  lc_name : string;
  lc_type : option json;
  lc_request : option json
}.

Definition listed_config (c : Config) : ListedConfig :=
  {| lc_name := name c;
     lc_type := field "type" (fields c);
     lc_request := field "request" (fields c) |}.

(** The [message], when there is one, and the [configurations]. *)
Definition handle_listConfigurations (host : Host)
  : Result (option string * list ListedConfig) :=
  match workspaceFolders host with
  | [] => Throw "No workspace folder found"
  | workspaceFolder :: _ =>
      let configs :=
        match configurations workspaceFolder with
        | Some l => l
        | None => []
        end in
      if Nat.eqb (List.length configs) 0 then
        Ok (Some "No debug configurations found in launch.json", [])
      else Ok (None, map listed_config configs)
  end.

(** *** The response of a step action *)

Definition action_name (a : StepAction) : string :=
  match a with
  | Continue => "continue"
  | StepOver => "stepOver"
  | StepIn => "stepIn"
  | StepOut => "stepOut"
  end.

Record StepResponse : Type := {
  sr_message : string;
  sr_reason : option string;
  sr_state : option Executor.StoppedState;
  sr_description : option string;
  sr_exceptionText : option string
}.

(** From [result] to the value returned, after
    [await this.executeAndWaitForStop(...)]. *)
Definition step_response (action : StepAction) (result : Executor.Outcome)
  : StepResponse :=
  match result with
  | Executor.Stopped state stopReason description exceptionText =>
      let reasonSuffix :=
        (if truthy_string stopReason
         then " (" ++ string_value stopReason ++ ")" else "")%string in
      {| sr_message :=
           (action_name action ++ " completed - stopped at " ++ Executor.file state
              ++ ":" ++ string_of_Z (Executor.line state) ++ reasonSuffix)%string;
         sr_reason := stopReason;
         sr_state := Some state;
         sr_description := Executor.if_truthy description;
         sr_exceptionText := Executor.if_truthy exceptionText |}
  | Executor.NotStopped reason =>
      {| sr_message := reason; sr_reason := None; sr_state := None;
         sr_description := None; sr_exceptionText := None |}
  end.

(** A step call as a whole: the arguments of [executeAndWaitForStop] from
    [handle_step], the events that reach the pending promise, and the
    response built from the outcome it resolves with ([None] while it is
    still pending). *)
Definition step_call (host : Host) (args : Args) (action : StepAction)
    (events : list Executor.Event) : Result (option StepResponse) :=
  match handle_step host args action with
  | Throw e => Throw e
  | Ok (session, _, threadId) =>
      match Executor.outcomes
              (snd (Executor.executeAndWaitForStop session (Some threadId) events))
      with
      | result :: _ => Ok (Some (step_response action result))
      | [] => Ok None
      end
  end.


(** The names [launch] works with. *)
Definition launch_names (host : Host) : list string :=
  match workspaceFolders host with
  | [] => []
  | workspaceFolder :: _ =>
      match configurations workspaceFolder with
      | Some l => map name l
      | None => []
      end
  end.

(** Concrete inputs. *)
Definition stopped_host : Host :=
  {| workspaceFolders := [];
     activeDebugSession := Some 1;
     activeStackItem := NoStackItem;
     threads := Ok (Some [7%Z; 8%Z]) |}.

Definition plain_args : Args :=
  {| configurationName := None; noDebug := None;
     threadId := None; granularity := None |}.

Definition named (n : string) : Args :=
  {| configurationName := Some n; noDebug := None;
     threadId := None; granularity := None |}.


End ExecuteMore.

(** ** [replacePlaceholders] of the [launch] case *)

Module Placeholders.

Definition dollar : ascii := ascii_of_nat 36.
Definition backtick : ascii := ascii_of_nat 96.
Definition ampersand : ascii := ascii_of_nat 38.
Definition apostrophe : ascii := ascii_of_nat 39.

(** What the pattern [/\$\{workspaceFolder\}/g] matches. *)
Definition placeholder : string := "${workspaceFolder}".

(** The placeholder after its dollar sign. *)
Definition placeholder_tail : string := "{workspaceFolder}".

(** The replacement text of one match, for a pattern without groups: in
    the replacement string [$$] stands for a dollar, [$&] for the match,
    [$`] for what precedes it and [$'] for what follows it; every other
    character, a lone dollar too, stands for itself. *)
Fixpoint expand (before matched after template : string) : string :=
  match template with
  | EmptyString => EmptyString
  | String c rest =>
      if Ascii.eqb c dollar then
        match rest with
        | String d rest' =>
            if Ascii.eqb d dollar then
              String dollar (expand before matched after rest')
            else if Ascii.eqb d backtick then
              before ++ expand before matched after rest'
            else if Ascii.eqb d ampersand then
              matched ++ expand before matched after rest'
            else if Ascii.eqb d apostrophe then
              after ++ expand before matched after rest'
            else String c (expand before matched after rest)
        | EmptyString => String c EmptyString
        end
      else String c (expand before matched after rest)
  end.

Fixpoint drop (n : nat) (s : string) : string :=
  match n, s with
  | S n', String _ rest => drop n' rest
  | _, _ => s
  end.

(** [s.replace(/\$\{workspaceFolder\}/g, root)], from a position of the
    string on: [before] is what precedes the position, [skip] the
    number of characters still covered by the last match. *)
Fixpoint replace_from (root : string) (skip : nat) (before s : string)
  : string :=
  match s with
  | EmptyString => EmptyString
  | String c rest =>
      match skip with
      | S skip' =>
          replace_from root skip' (before ++ String c EmptyString) rest
      | O =>
          if String.prefix placeholder s then
            expand before placeholder
              (drop (String.length placeholder) s) root
            ++ replace_from root (String.length placeholder - 1)
                 (before ++ String c EmptyString) rest
          else
            String c
              (replace_from root 0 (before ++ String c EmptyString) rest)
      end
  end.

Definition replace (root s : string) : string :=
  replace_from root 0 EmptyString s.

(** [result[key] = ...] creates no property for the key [__proto__]. *)
Definition creates_property (key : string) : bool :=
  negb (key =? "__proto__").

(** [replacePlaceholders], with [root] for [workspaceFolder.uri.fsPath]. *)
Fixpoint replacePlaceholders (root : string) (obj : json) : json :=
  match obj with
  | JStr s => JStr (replace root s)
  | JArr items => JArr (map (replacePlaceholders root) items)
  | JObj fields =>
      JObj (filter (fun kv => creates_property (fst kv))
              (map (fun kv => match kv with
                              | (key, value) =>
                                  (key, replacePlaceholders root value)
                              end) fields))
  | JNull => JNull
  | JBool b => JBool b
  | JNum n => JNum n
  end.

(** The same on a configuration, whose [name] is one of its strings. *)
Definition replace_config (root : string) (c : Execute.Config)
  : Execute.Config :=
  {| Execute.name := replace root (Execute.name c);
     Execute.fields :=
       filter (fun kv => creates_property (fst kv))
         (map (fun kv => match kv with
                         | (key, value) =>
                             (key, replacePlaceholders root value)
                         end) (Execute.fields c)) |}.

(** *** Vocabulary *)

(** The string has a dollar sign. *)
Fixpoint has_dollar (s : string) : bool :=
  match s with
  | EmptyString => false
  | String c rest => Ascii.eqb c dollar || has_dollar rest
  end.

(** The placeholder occurs in the string. *)
Fixpoint occurs (s : string) : bool :=
  match s with
  | EmptyString => false
  | String _ rest => String.prefix placeholder s || occurs rest
  end.

(** No string of the value holds the placeholder, and no object of it
    has a key [__proto__]. *)
Fixpoint clean (obj : json) : bool :=
  match obj with
  | JStr s => negb (occurs s)
  | JArr items => forallb clean items
  | JObj fields =>
      forallb (fun kv => match kv with
                         | (key, value) => creates_property key && clean value
                         end) fields
  | _ => true
  end.

(** The value with every string emptied: what is left is its nesting,
    its keys and its numbers, booleans and nulls. *)
Fixpoint skeleton (obj : json) : json :=
  match obj with
  | JStr _ => JStr EmptyString
  | JArr items => JArr (map skeleton items)
  | JObj fields =>
      JObj (map (fun kv => match kv with
                           | (key, value) => (key, skeleton value)
                           end) fields)
  | other => other
  end.

(** The value without the [__proto__] keys of its objects and what is
    under them. *)
Fixpoint without_proto (obj : json) : json :=
  match obj with
  | JArr items => JArr (map without_proto items)
  | JObj fields =>
      JObj (filter (fun kv => creates_property (fst kv))
              (map (fun kv => match kv with
                              | (key, value) => (key, without_proto value)
                              end) fields))
  | other => other
  end.

(** No object of the value has a key [__proto__]. *)
Fixpoint plain_keys (obj : json) : bool :=
  match obj with
  | JArr items => forallb plain_keys items
  | JObj fields =>
      forallb (fun kv => match kv with
                         | (key, value) =>
                             creates_property key && plain_keys value
                         end) fields
  | _ => true
  end.

(** Concrete input. *)
Definition node_launch : json :=
  JObj [("type", JStr "node");
        ("program", JStr "${workspaceFolder}/app.js");
        ("args", JArr [JStr "--root"; JStr "${workspaceFolder}"; JNum 3]);
        ("stopOnEntry", JBool false)].

Definition polluted_launch : json :=
  JObj [("__proto__", JObj [("program", JStr "x")]);
        ("cwd", JStr "${workspaceFolder}")].

End Placeholders.

(** ** [handleInspect] *)

Module Inspect.

Record Args : Type := {
  action : string;
  expression : option string;
  frameId : option Z;
  context : option string;
  threadId : option Z;
  startFrame : option Z;
  levels : option Z
}.

(** The arguments of a [stackTrace] request; [evaluate] sends the thread
    id alone. *)
Record StackQuery : Type := {
  q_threadId : Z;
  q_startFrame : option Z;
  q_levels : option Z
}.

Record EvaluateQuery : Type := {
  e_expression : string;
  e_frameId : Z;
  e_context : string
}.

Record StackResponse : Type := {
  stackFrames : option (list Executor.DapFrame);
  totalFrames : option json
}.

Record EvaluateResponse : Type := {
  result : option json;
  type : option json;
  variablesReference : option json
}.

(** What [session.customRequest] settles with; [Ok None] is a response
    without body. *)
Record Adapter : Type := {
  stackTrace : StackQuery -> Result (option StackResponse);
  evaluate : EvaluateQuery -> Result (option EvaluateResponse)
}.

(** The requests sent to the debug adapter, in order. *)
Inductive Request : Type :=
| Threads
| StackTrace (query : StackQuery)
| Evaluate (query : EvaluateQuery).

Inductive Response : Type :=
| Evaluated (r_result r_type r_variablesReference : option json)
| Stack (r_threadId : Z) (frames : list Executor.Frame)
        (r_totalFrames : option json).

(** [resolveThreadId] asks the adapter for its threads only when it has
    neither an explicit thread id nor an active stack item. *)
Definition resolve_requests (host : Execute.Host) (explicit : option Z)
  : list Request :=
  match explicit, Execute.activeStackItem host with
  | None, Execute.NoStackItem => [Threads]
  | _, _ => []
  end.

Definition frames_of (response : option StackResponse)
  : list Executor.DapFrame :=
  match response with
  | Some r => match stackFrames r with Some l => l | None => [] end
  | None => []
  end.

Section Handler.
Variable host : Execute.Host.
Variable adapter : Adapter.

(** The frame to evaluate in, when [args.frameId] is [undefined]. *)
Definition top_frame (args : Args) : Result Z * list Request :=
  match Execute.resolveThreadId host (threadId args) with
  | Throw e => (Throw e, resolve_requests host (threadId args))
  | Ok thread =>
      let query := {| q_threadId := thread; q_startFrame := None;
                      q_levels := None |} in
      let sent := resolve_requests host (threadId args)
                    ++ [StackTrace query] in
      match stackTrace adapter query with
      | Throw e => (Throw e, sent)
      | Ok frames =>
          match frames_of frames with
          | top :: _ => (Ok (Executor.dap_id top), sent)
          | [] => (Throw "No stack frame available", sent)
          end
      end
  end.

Definition handle_evaluate (args : Args) : Result Response * list Request :=
  if negb (truthy_string (expression args)) then
    (Throw "expression is required for evaluate action", [])
  else
    let frame :=
      match frameId args with
      | Some f => (Ok f, [])
      | None => top_frame args
      end in
    match frame with
    | (Throw e, sent) => (Throw e, sent)
    | (Ok f, sent) =>
        let query :=
          {| e_expression := string_value (expression args);
             e_frameId := f;
             e_context :=
               if truthy_string (context args)
               then string_value (context args) else "repl" |} in
        match evaluate adapter query with
        | Throw e => (Throw e, sent ++ [Evaluate query])
        | Ok None =>
            (Throw "Cannot read properties of undefined (reading 'result')",
             sent ++ [Evaluate query])
        | Ok (Some response) =>
            (Ok (Evaluated (result response) (type response)
                   (variablesReference response)),
             sent ++ [Evaluate query])
        end
    end.

Definition handle_stackTrace (args : Args) : Result Response * list Request :=
  match Execute.resolveThreadId host (threadId args) with
  | Throw e => (Throw e, resolve_requests host (threadId args))
  | Ok thread =>
      let query :=
        {| q_threadId := thread;
           q_startFrame :=
             Some match startFrame args with Some n => n | None => 0%Z end;
           q_levels :=
             Some match levels args with Some n => n | None => 20%Z end |} in
      let sent := resolve_requests host (threadId args)
                    ++ [StackTrace query] in
      match stackTrace adapter query with
      | Throw e => (Throw e, sent)
      | Ok None =>
          (Throw "Cannot read properties of undefined (reading 'stackFrames')",
           sent)
      | Ok (Some response) =>
          (Ok (Stack thread
                 (map Executor.frame_of (frames_of (Some response)))
                 (totalFrames response)),
           sent)
      end
  end.

Definition handleInspect (args : Args) : Result Response * list Request :=
  match Execute.activeDebugSession host with
  | None =>
      (Throw "No active debug session. The program must be paused.", [])
  | Some _ =>
      if action args =? "evaluate" then handle_evaluate args
      else if action args =? "stackTrace" then handle_stackTrace args
      else (Throw ("Unknown inspect action: " ++ action args)%string, [])
  end.

End Handler.

(** Concrete inputs. *)
Definition evaluate_x : Args :=
  {| action := "evaluate"; expression := Some "x"; frameId := Some 1000%Z;
     context := None; threadId := None; startFrame := None; levels := None |}.

Definition all_frames : Args :=
  {| action := "stackTrace"; expression := None; frameId := None;
     context := None; threadId := Some 7%Z; startFrame := None;
     levels := Some 0%Z |}.

Definition top_of_stack : Args :=
  {| action := "evaluate"; expression := Some "x"; frameId := None;
     context := Some "watch"; threadId := None; startFrame := None;
     levels := None |}.

Definition default_window : Args :=
  {| action := "stackTrace"; expression := None; frameId := None;
     context := None; threadId := None; startFrame := None;
     levels := None |}.

(** A paused session whose active stack item is a frame of an earlier
    stop. *)
Definition paused_host : Execute.Host :=
  {| Execute.workspaceFolders := [];
     Execute.activeDebugSession := Some 1;
     Execute.activeStackItem := Execute.DebugStackFrame 7 999;
     Execute.threads := Ok (Some [7%Z]) |}.

Definition two_frames : list Executor.DapFrame :=
  [ExecutorProps.frame_at 1000; ExecutorProps.frame_at 1001].

Definition node_adapter : Adapter :=
  {| stackTrace := fun _ =>
       Ok (Some {| stackFrames := Some two_frames;
                   totalFrames := Some (JNum 2) |});
     evaluate := fun _ =>
       Ok (Some {| result := Some (JStr "10"); type := Some (JStr "number");
                   variablesReference := Some (JNum 0) |}) |}.

End Inspect.

(** ** The bridge as a client of [/tcp]: [makeRequest] and the
       [CallToolRequest] handler of [mcp/src/index.ts] *)

Module BridgeClient.
Import Tcp.

(** [if (v)] for a parsed JSON value or [undefined]. *)
Definition truthy (v : option json) : bool :=
  match v with
  | None => false
  | Some JNull => false
  | Some (JBool b) => b
  | Some (JNum n) => negb (n =? 0)%Z
  | Some (JStr s) => negb (s =? "")
  | Some (JArr _) => true
  | Some (JObj _) => true
  end.

(** The response body as the bridge parses it: [JSON.stringify] leaves
    out the fields that are [undefined], and [JSON.parse] gives the rest
    back. *)
Definition received (e : Envelope) : json :=
  JObj ([("success", JBool (success e))]
          ++ match data e with Some d => [("data", d)] | None => [] end
          ++ match error e with Some m => [("error", JStr m)] | None => [] end).

(** The [res.on('end', ...)] callback of [makeRequest]: the promise is
    resolved with [response.data] or rejected with an error. The status
    code of the response is not looked at. *)
Definition settle (body : Parsed) : Result (option json) :=
  match body with
  | SyntaxError message => Throw message
  | Value response =>
      match property "success" response with
      | Throw message => Throw message
      | Ok success =>
          if negb (truthy success) then
            match property "error" response with
            | Throw message => Throw message
            | Ok error =>
                Throw (if truthy error then template_opt error
                       else "Unknown error")
            end
          else property "data" response
      end
  end.

(** The payload of a tool call, as the server parses it:
    [{type: 'callTool', tool: name, arguments}], without [arguments]
    when the caller gave none. *)
Definition payload (name : string) (arguments : option json) : json :=
  JObj ([("type", JStr "callTool"); ("tool", JStr name)]
          ++ match arguments with
             | Some a => [("arguments", a)]
             | None => []
             end).

Section Reachable.
Variable tools : json.
Variable handleExecute : option json -> Result json.
Variable handleBreakpoints : option json -> Result json.
Variable handleInspect : option json -> Result json.

(** A request of the bridge, answered by the [/tcp] endpoint of a
    server that is reachable. *)
Definition makeRequest (request : json) : Result (option json) :=
  settle
    (Value (received
              (body (tcp tools handleExecute handleBreakpoints
                       handleInspect (Value request))))).

Definition callTool (name : string) (arguments : option json)
  : Result (option json) :=
  makeRequest (payload name arguments).

End Reachable.

(** Concrete inputs. *)
Definition no_tools : json := JArr [].

Definition echo (arguments : option json) : Result json :=
  match arguments with
  | Some a => Ok a
  | None => Throw "action is required"
  end.

Definition silent (arguments : option json) : Result json := Throw "".

End BridgeClient.

(* ================================================================== *)
(** * Part II: the properties *)
(* ================================================================== *)
(** ** Integral doubles *)

Module JsFacts.

(** Up to 2^53 every integer is a double. *)
Lemma to_double_exact (z : Z) :
  (Z.abs z <= exact_limit)%Z -> to_double z = z.
Proof.
  intros H. unfold to_double. apply Z.leb_le in H. now rewrite H.
Qed.

Lemma number_sub_exact (a b : Z) :
  (Z.abs (a - b) <= exact_limit)%Z -> number_sub a b = (a - b)%Z.
Proof. apply to_double_exact. Qed.


(** The mantissa and the exponent of an integer beyond 2^53. *)
Lemma mantissa_bounds (a : Z) :
  (exact_limit < a)%Z ->
  (1 <= Z.log2 a - 52)%Z /\
  (2 ^ 52 <= Z.shiftr a (Z.log2 a - 52))%Z.
Proof.
  intros Ha. unfold exact_limit in Ha.
  assert (Hlog : (53 <= Z.log2 a)%Z).
  { change 53%Z with (Z.log2 9007199254740992).
    apply Z.log2_le_mono. lia. }
  split; [lia|].
  rewrite Z.shiftr_div_pow2 by lia.
  apply Z.div_le_lower_bound; [apply Z.pow_pos_nonneg; lia|].
  rewrite <- Z.pow_add_r by lia.
  replace (Z.log2 a - 52 + 52)%Z with (Z.log2 a) by lia.
  apply Z.log2_spec. lia.
Qed.

(** Rounding never brings an integer beyond 2^53 back below it. *)
Lemma to_double_large (z : Z) :
  (exact_limit < Z.abs z)%Z -> (exact_limit <= Z.abs (to_double z))%Z.
Proof.
  intros H. unfold to_double.
  assert (Hle : (Z.abs z <=? exact_limit)%Z = false) by (apply Z.leb_gt; lia).
  rewrite Hle.
  destruct (mantissa_bounds (Z.abs z) H) as [He Hq].
  set (e := (Z.log2 (Z.abs z) - 52)%Z) in *.
  set (q := Z.shiftr (Z.abs z) e) in *.
  match goal with
  | |- context [Z.shiftl ?m e] =>
      match m with
      | (if _ then _ else _) => set (q' := m)
      end
  end.
  assert (Hq' : (q <= q')%Z) by (subst q'; destruct (_ || _); lia).
  rewrite Z.abs_mul, Z.shiftl_mul_pow2 by lia.
  assert (Hsgn : Z.abs (Z.sgn z) = 1%Z)
    by (destruct z; [unfold exact_limit in H; simpl in H; lia | | ];
        reflexivity).
  rewrite Hsgn, Z.mul_1_l.
  assert (Hpow : (2 ^ 1 <= 2 ^ e)%Z) by (apply Z.pow_le_mono_r; lia).
  assert (H52 : (2 ^ 52 = 4503599627370496)%Z) by reflexivity.
  rewrite H52 in Hq. change (2 ^ 1)%Z with 2%Z in Hpow.
  rewrite Z.abs_eq by nia. unfold exact_limit. nia.
Qed.

Lemma to_double_nonneg (z : Z) : (0 <= z)%Z -> (0 <= to_double z)%Z.
Proof.
  intros Hz.
  destruct (Z_le_gt_dec (Z.abs z) exact_limit) as [Hs|Hl].
  - now rewrite to_double_exact.
  - unfold to_double.
    assert (Hle : (Z.abs z <=? exact_limit)%Z = false)
      by (apply Z.leb_gt; lia).
    rewrite Hle.
    assert (H : (exact_limit < Z.abs z)%Z) by lia.
    destruct (mantissa_bounds (Z.abs z) H) as [He Hq].
    apply Z.mul_nonneg_nonneg; [apply Z.sgn_nonneg; assumption|].
    apply Z.shiftl_nonneg.
    destruct (_ || _); lia.
Qed.

(** A sum that comes out below 2^53 was computed exactly. *)
Lemma number_add_inv (a b r : Z) :
  number_add a b = r -> (Z.abs r < exact_limit)%Z -> (a + b = r)%Z.
Proof.
  unfold number_add. intros H Hr.
  destruct (Z_le_gt_dec (Z.abs (a + b)) exact_limit) as [Hs|Hl].
  - now rewrite to_double_exact in H.
  - assert (Hbig : (exact_limit <= Z.abs (to_double (a + b)))%Z)
      by (apply to_double_large; lia).
    rewrite H in Hbig. lia.
Qed.

End JsFacts.


(** ** Breakpoints: [set], [remove], [list] *)

Module BreakpointsFacts.
Import Breakpoints BreakpointsProps JsFacts.

Lemma has_id_true (i : nat) (bps : list Breakpoint) :
  has_id i bps = true <-> In i (map id bps).
Proof.
  unfold has_id. rewrite existsb_exists, in_map_iff.
  split; intros [b [H1 H2]]; exists b.
  - apply Nat.eqb_eq in H2. auto.
  - split; [assumption | now apply Nat.eqb_eq].
Qed.

Lemma fresh_id_new (store : Store) : has_id (fresh_id store) store = false.
Proof.
  destruct (has_id (fresh_id store) store) eqn:E; [|reflexivity].
  apply has_id_true in E.
  assert (H : list_max (map id store) <= list_max (map id store)) by lia.
  rewrite list_max_le, Forall_forall in H.
  apply H in E. unfold fresh_id in E. lia.
Qed.

(** Removing by object identity the breakpoints a predicate selects keeps
    exactly those the predicate rejects. *)
Lemma remove_filtered (p : Breakpoint -> bool) (store : Store) :
  distinct_ids store ->
  removeBreakpoints store (filter p store) = filter (fun b => negb (p b)) store.
Proof.
  intros Hnd. unfold removeBreakpoints.
  apply filter_ext_in. intros b Hb. f_equal.
  destruct (p b) eqn:Hp.
  - apply has_id_true, in_map, filter_In. auto.
  - destruct (has_id (id b) (filter p store)) eqn:E; [|reflexivity].
    exfalso. apply has_id_true, in_map_iff in E.
    destruct E as [b' [Hid Hb']]. apply filter_In in Hb'.
    destruct Hb' as [Hin' Hp'].
    assert (b' = b); [|congruence].
    clear Hp Hp'. unfold distinct_ids in Hnd.
    induction store as [|x xs IH]; [contradiction|].
    simpl in Hnd. inversion Hnd as [|? ? Hx Hxs]; subst.
    destruct Hb as [->|Hb], Hin' as [->|Hin']; auto.
    + exfalso. apply Hx. rewrite <- Hid. now apply in_map.
    + exfalso. apply Hx. rewrite Hid. now apply in_map.
Qed.

Lemma distinct_ids_filter (p : Breakpoint -> bool) (store : Store) :
  distinct_ids store -> distinct_ids (filter p store).
Proof.
  unfold distinct_ids. induction store as [|b rest IH]; simpl; [auto|].
  intros Hnd. inversion Hnd as [|? ? Hb Hrest]; subst.
  destruct (p b); simpl; [|auto].
  constructor; [|auto].
  intros Hin. apply Hb. apply in_map_iff in Hin.
  destruct Hin as [b' [Hid Hin]]. apply filter_In in Hin.
  rewrite <- Hid. apply in_map. tauto.
Qed.

Lemma distinct_ids_fresh (store : Store) (k : BreakpointKind) :
  distinct_ids store ->
  distinct_ids (addBreakpoints store [ {| id := fresh_id store; kind := k |} ]).
Proof.
  unfold distinct_ids, addBreakpoints. intros Hnd. simpl.
  rewrite fresh_id_new. simpl. rewrite map_app. simpl.
  apply NoDup_app; [assumption | repeat constructor; auto |].
  intros i Hi [<- | []]. apply has_id_true in Hi.
  rewrite fresh_id_new in Hi. discriminate.
Qed.


Lemma remove_matches_spec (f : string) (l : Z) (bp : Breakpoint) :
  remove_matches f l bp = true <->
  exists sb, kind bp = IsSource sb /\ fsPath sb = f
             /\ start_line sb = number_sub l 1.
Proof.
  unfold remove_matches. destruct (kind bp) as [sb|n].
  - rewrite andb_true_iff, String.eqb_eq, Z.eqb_eq. split.
    + intros [H1 H2]. exists sb. auto.
    + intros [sb' [H [H1 H2]]]. inversion H; subst. auto.
  - split; [discriminate|]. intros [sb [H _]]. discriminate.
Qed.

Section WithHost.
Variable openTextDocument : string -> Result string.

(** The handler keeps the invariant of the store. *)
Lemma handleBreakpoints_distinct_ids (store : Store) (args : Args) :
  distinct_ids store ->
  distinct_ids (snd (handleBreakpoints openTextDocument store args)).
Proof.
  intros Hnd. unfold handleBreakpoints, handle_set, handle_remove, handle_list.
  repeat match goal with
         | |- context [if ?c then _ else _] => destruct c
         | |- context [match openTextDocument ?f with _ => _ end] =>
             destruct (openTextDocument f)
         end;
    simpl; auto using distinct_ids_fresh.
  unfold removeBreakpoints. now apply distinct_ids_filter.
Qed.

(** C4. A [remove] call that names a file and a line removes exactly the
    source breakpoints at that file and at the 0-based line [line - 1]
    (the number the code computes):
    the store keeps, in order, every breakpoint that is not one of them
    (same line in another file, same file at another line, non-source
    breakpoints); the call returns how many were removed, and when none
    matches it returns 0 with the 'No breakpoint found' message and
    leaves the store as it was. *)
Theorem remove_exactly_matching (store : Store) (args : Args) (f : string) (l : Z) :
  action args = "remove" ->
  file args = Some f -> f <> "" ->
  line args = Some l -> l <> 0%Z ->
  distinct_ids store ->
  let matching := filter (remove_matches f l) store in
  let result := handleBreakpoints openTextDocument store args in
  snd result = filter (fun bp => negb (remove_matches f l bp)) store /\
  (forall bp, In bp (snd result) <->
     In bp store /\
     ~ (exists sb, kind bp = IsSource sb /\ fsPath sb = f
                   /\ start_line sb = number_sub l 1)) /\
  (exists message,
     fst result = Ok (RemoveResponse message (List.length matching))) /\
  List.length store = List.length (snd result) + List.length matching /\
  (matching = [] ->
     result = (Ok (RemoveResponse
                     ("No breakpoint found at " ++ f ++ ":" ++ string_of_Z l) 0),
               store)).
Proof.
  intros Ha Hf Hfne Hl Hlne Hnd matching result.
  assert (Hres : result =
    if Nat.eqb (List.length matching) 0 then
      (Ok (RemoveResponse
             ("No breakpoint found at " ++ f ++ ":" ++ string_of_Z l) 0), store)
    else
      (Ok (RemoveResponse
             ("Removed " ++ string_of_nat (List.length matching)
                ++ " breakpoint(s) at " ++ f ++ ":" ++ string_of_Z l)
             (List.length matching)),
       removeBreakpoints store matching)).
  { subst result matching. unfold handleBreakpoints, handle_remove.
    rewrite Ha, Hf, Hl. simpl.
    apply String.eqb_neq in Hfne. rewrite Hfne.
    apply Z.eqb_neq in Hlne. rewrite Hlne. reflexivity. }
  assert (Hstore : snd result =
            filter (fun bp => negb (remove_matches f l bp)) store).
  { rewrite Hres. destruct (Nat.eqb (List.length matching) 0) eqn:E; simpl.
    - apply Nat.eqb_eq, length_zero_iff_nil in E.
      symmetry. apply forallb_filter_id. apply forallb_forall.
      intros b Hb. destruct (remove_matches f l b) eqn:Hm; [|reflexivity].
      exfalso. assert (Hin : In b matching) by (apply filter_In; auto).
      rewrite E in Hin. contradiction.
    - now apply remove_filtered. }
  split; [exact Hstore|]. split; [|split; [|split]].
  - intros bp. rewrite Hstore, filter_In, negb_true_iff.
    rewrite <- remove_matches_spec.
    destruct (remove_matches f l bp); intuition congruence.
  - rewrite Hres. destruct (Nat.eqb (List.length matching) 0) eqn:E; simpl.
    + apply Nat.eqb_eq in E. rewrite E. eauto.
    + eauto.
  - rewrite Hstore. subst matching.
    rewrite <- (filter_length (remove_matches f l) store). lia.
  - intros Hnil. rewrite Hres, Hnil. reflexivity.
Qed.

(** What a valid [set] evaluates to: the breakpoint is stored under the
    path the host reports for the document it opened. *)
Lemma set_eval (store : Store) (args : Args) (f opened : string) (l : Z) :
  action args = "set" ->
  file args = Some f -> f <> "" ->
  line args = Some l -> (0 < l)%Z ->
  openTextDocument f = Ok opened ->
  handleBreakpoints openTextDocument store args =
  (Ok (SetResponse ("Breakpoint set at " ++ f ++ ":" ++ string_of_Z l)
         f l (arg_condition args) (arg_hitCondition args)
         (arg_logMessage args)),
   store ++ [ {| id := fresh_id store;
                 kind := IsSource
                   {| fsPath := opened;
                      start_line := number_sub l 1;
                      enabled := true;
                      condition := arg_condition args;
                      hitCondition := arg_hitCondition args;
                      logMessage := arg_logMessage args |} |} ]).
Proof.
  intros Ha Hf Hfne Hl Hpos Hopen.
  unfold handleBreakpoints, handle_set. rewrite Ha, Hf, Hl. simpl.
  apply String.eqb_neq in Hfne. rewrite Hfne.
  assert (Hz : (l =? 0)%Z = false) by (apply Z.eqb_neq; lia).
  rewrite Hz. simpl. rewrite Hopen.
  assert (Hn : (number_sub l 1 <? 0)%Z = false).
  { apply Z.ltb_ge. apply to_double_nonneg. lia. }
  rewrite Hn. unfold addBreakpoints. simpl.
  now rewrite fresh_id_new.
Qed.


(** C10. In [set] and in [remove] a line argument 0 is handled as an
    omitted line: the call throws, with 'line is required for set action'
    (resp. 'remove') once a file is given, and the store is untouched. *)
Theorem line_zero_is_omitted (store : Store) (args : Args) :
  line args = Some 0%Z ->
  action args = "set" \/ action args = "remove" ->
  let result := handleBreakpoints openTextDocument store args in
  result = handleBreakpoints openTextDocument store (with_line None args) /\
  snd result = store /\
  (exists message, fst result = Throw message) /\
  (truthy_string (file args) = true ->
   fst result = Throw ("line is required for " ++ action args ++ " action")).
Proof.
  intros Hl Ha result. subst result.
  unfold handleBreakpoints, handle_set, handle_remove. simpl.
  rewrite Hl. simpl.
  destruct Ha as [-> | ->]; simpl;
    destruct (truthy_string (file args)); simpl;
    (split; [reflexivity | split; [reflexivity | split; [eauto|]]]);
    intros H; try discriminate H; reflexivity.
Qed.

End WithHost.

Lemma sample_store_distinct : distinct_ids sample_store.
Proof.
  unfold distinct_ids. simpl.
  repeat constructor; simpl; intuition discriminate.
Qed.

Lemma remove_exactly_matching_witness :
  snd (handleBreakpoints open_as_given sample_store
         (sample_args "remove" (Some 3%Z)))
  = [bp_at 2 "/w/b.js" 2; bp_at 3 "/w/a.js" 7;
     {| id := 4; kind := IsFunction "main" |}].
Proof.
  rewrite (proj1 (remove_exactly_matching open_as_given sample_store
                    (sample_args "remove" (Some 3%Z)) "/w/a.js" 3
                    eq_refl eq_refl ltac:(discriminate) eq_refl
                    ltac:(lia) sample_store_distinct)).
  reflexivity.
Defined.



(** Beyond 2^53 the line listed is not the line set: [line - 1] and
    [line + 1] are rounded. *)
Lemma line_beyond_exact_limit_is_rounded :
  fst (handleBreakpoints open_as_given
         (snd (handleBreakpoints open_as_given []
                 (sample_args "set" (Some 9007199254740994%Z))))
         (sample_args "list" None))
  = Ok (ListResponse
          [ {| l_file := "/w/a.js"; l_line := 9007199254740992;
               l_enabled := true;
               l_condition := Some "x > 5"; l_hitCondition := None;
               l_logMessage := None |} ] 1).
Proof. reflexivity. Qed.

Lemma line_zero_is_omitted_witness :
  handleBreakpoints open_as_given sample_store (sample_args "set" (Some 0%Z))
  = (Throw "line is required for set action", sample_store).
Proof.
  pose proof (line_zero_is_omitted open_as_given sample_store
                (sample_args "set" (Some 0%Z)) eq_refl (or_introl eq_refl))
    as [_ [Hstore [_ Hmsg]]].
  specialize (Hmsg eq_refl).
  rewrite (surjective_pairing (handleBreakpoints _ _ _)).
  rewrite Hstore, Hmsg. reflexivity.
Defined.

End BreakpointsFacts.

(** ** The race of [executeAndWaitForStop] and [waitForLaunchResult] *)

Module ExecutorFacts.
Import Executor ExecutorProps.

Lemma first_reply_In (events : list Event) (r : StackReply) :
  first_reply events = Some r -> In (EvStackReply r) events.
Proof.
  induction events as [|ev rest IH]; simpl; [discriminate|].
  destruct ev; auto. intros H. inversion H. now left.
Qed.

Lemma prefix_app (s t : string) : String.prefix s (s ++ t) = true.
Proof.
  induction s as [|c s IH]; simpl.
  - now destruct t.
  - destruct (ascii_dec c c); [assumption | congruence].
Qed.

Lemma outcomes_app {R : Type} (a b : list (Effect R)) :
  outcomes (a ++ b) = outcomes a ++ outcomes b.
Proof.
  induction a as [|e a IH]; simpl; [reflexivity|].
  destruct e; simpl; now rewrite IH.
Qed.

Lemma requests_app {R : Type} (a b : list (Effect R)) :
  requests (a ++ b) = requests a ++ requests b.
Proof.
  induction a as [|e a IH]; simpl; [reflexivity|].
  destruct e; simpl; now rewrite IH.
Qed.

(** What [stopped_state_of] accepts. *)
Lemma stopped_state_of_Ok (reply : StackReply) (state : StoppedState) :
  stopped_state_of reply = Ok state ->
  exists top rest,
    reply = Ok (Some (top :: rest)) /\
    stackTrace state = map frame_of (top :: rest) /\
    file state = frame_file (frame_of top) /\
    line state = frame_line (frame_of top) /\
    column state = frame_column (frame_of top).
Proof.
  unfold stopped_state_of. destruct reply as [[[|top rest]|]|e]; try discriminate.
  intros H. inversion H. exists top, rest. simpl. auto.
Qed.

(** [gatherStoppedState] asks for 20 levels from frame 0 and keeps every
    frame of the answer. *)
Lemma gatherStoppedState_Ok (customRequest : StackTraceArgs -> StackReply)
    (threadId : option Z) (state : StoppedState) :
  gatherStoppedState customRequest threadId = Ok state ->
  exists top rest,
    customRequest {| st_threadId := threadId; st_startFrame := 0;
                     st_levels := 20 |} = Ok (Some (top :: rest)) /\
    stackTrace state = map frame_of (top :: rest) /\
    file state = frame_file (frame_of top) /\
    line state = frame_line (frame_of top) /\
    column state = frame_column (frame_of top).
Proof. apply stopped_state_of_Ok. Qed.

Section ExecuteAndWaitForStop.
Variable session : Session.
Variable fallbackThreadId : option Z.

Local Abbreviation step := (step session fallbackThreadId).
Local Abbreviation run := (run session fallbackThreadId).

Lemma run_app (st : Pending) (a b : list Event) :
  run st (a ++ b) =
  (fst (run (fst (run st a)) b), snd (run st a) ++ snd (run (fst (run st a)) b)).
Proof.
  revert st. induction a as [|ev a IH]; intros st; simpl.
  - now destruct (run st b).
  - destruct (step st ev) as [st1 e1]. rewrite IH.
    destruct (run st1 a) as [st2 e2]. simpl.
    now rewrite app_assoc.
Qed.

Lemma run_quiet (pre : list Event) :
  Forall (quiet session) pre -> run start pre = (start, []).
Proof.
  induction 1 as [|ev pre Hq _ IH]; simpl; [reflexivity|].
  assert (Hs : step start ev = (start, [])).
  { unfold quiet, fires in Hq. destruct ev; simpl in *;
      try rewrite Hq; try reflexivity; discriminate. }
  rewrite Hs, IH. reflexivity.
Qed.

Lemma run_done (post : list Event) : run done post = (done, []).
Proof.
  induction post as [|ev post IH]; simpl; [reflexivity|].
  assert (Hs : step done ev = (done, [])) by (destruct ev; reflexivity).
  rewrite Hs, IH. reflexivity.
Qed.

Lemma run_waiting (body : option StopBody) (post : list Event) :
  run (waiting body) post =
  match first_reply post with
  | Some r => (done, [Resolve (stop_outcome body r)])
  | None => (waiting body, [])
  end.
Proof.
  induction post as [|ev post IH]; simpl; [reflexivity|].
  destruct ev; simpl; try (rewrite IH; destruct (first_reply post); reflexivity).
  change (set_gathering None (waiting body)) with done.
  rewrite run_done. reflexivity.
Qed.

(** A trace is quiet throughout, or has a first event that fires. *)
Lemma first_to_fire (events : list Event) :
  Forall (quiet session) events \/
  exists pre ev post,
    events = pre ++ ev :: post /\
    Forall (quiet session) pre /\ fires session ev = true.
Proof.
  induction events as [|ev rest IH]; [left; constructor|].
  destruct (fires session ev) eqn:E.
  - right. exists [], ev, rest. repeat split; auto.
  - destruct IH as [IH | [pre [ev' [post [-> [Hq Hf]]]]]].
    + left. constructor; assumption.
    + right. exists (ev :: pre), ev', post. repeat split; auto.
Qed.

Lemma run_first_to_fire (pre : list Event) (ev : Event) (post : list Event) :
  Forall (quiet session) pre -> fires session ev = true ->
  cancelled (fst (run start (pre ++ [ev]))) /\
  outcomes (snd (run start (pre ++ ev :: post))) = settled_by ev post /\
  requests (snd (run start (pre ++ ev :: post))) =
    match ev with
    | EvStopped _ body =>
        [(session,
          stackTrace_request
            match body_threadId body with
            | Some t => Some t
            | None => fallbackThreadId
            end)]
    | _ => []
    end.
Proof.
  intros Hq Hf. rewrite !run_app, (run_quiet pre Hq). simpl.
  destruct ev; simpl in *; try discriminate.
  - rewrite Hf. simpl.
    change (set_gathering (Some body) (settle start)) with (waiting body).
    rewrite run_waiting. destruct (first_reply post); simpl;
      repeat split; reflexivity.
  - rewrite Hf. simpl. change (settle start) with done. rewrite run_done.
    repeat split; reflexivity.
  - change (settle start) with done. rewrite run_done.
    repeat split; reflexivity.
  - change (settle start) with done. rewrite run_done.
    repeat split; reflexivity.
Qed.

Lemma settled_by_length (ev : Event) (post : list Event) :
  List.length (settled_by ev post) <= 1.
Proof.
  destruct ev; simpl; try lia. destruct (first_reply post); simpl; lia.
Qed.

Lemma outcomes_cases (events : list Event) :
  outcomes (snd (run start events)) = [] \/
  exists pre ev post,
    events = pre ++ ev :: post /\
    Forall (quiet session) pre /\ fires session ev = true /\
    outcomes (snd (run start events)) = settled_by ev post.
Proof.
  destruct (first_to_fire events) as [Hq | [pre [ev [post [-> [Hq Hf]]]]]].
  - left. now rewrite run_quiet.
  - right. exists pre, ev, post. repeat split; auto.
    apply (run_first_to_fire pre ev post Hq Hf).
Qed.

(** C1. Whatever events arrive, [resolve] is called at most once. The
    first event that fires (a stop or the termination of the session,
    the timer, a failure of the action) cancels all three listeners at
    once and alone decides the outcome, whatever fires later: the
    termination and the timer give their own reason, a failure of the
    action gives a reason starting with 'Execution failed', and a stop
    gives the outcome built from the host's answer to the stack query,
    the only thing that handler still waits for. *)
Theorem settles_exactly_once (events : list Event) :
  let outs :=
    outcomes (snd (executeAndWaitForStop session fallbackThreadId events)) in
  List.length outs <= 1 /\
  forall pre ev post,
    events = pre ++ ev :: post ->
    Forall (quiet session) pre -> fires session ev = true ->
    cancelled
      (fst (executeAndWaitForStop session fallbackThreadId (pre ++ [ev]))) /\
    (forall s, ev = EvTerminated s ->
       outs = [NotStopped "Debug session terminated"]) /\
    (ev = EvTimeout ->
       outs = [NotStopped "Timed out waiting for program to stop (10s)"]) /\
    (forall s body reply,
       ev = EvStopped s body -> first_reply post = Some reply ->
       outs = [stop_outcome body reply]) /\
    (forall message,
       ev = EvActionThrew message ->
       exists reason,
         outs = [NotStopped reason] /\
         reason = ("Execution failed: " ++ message)%string /\
         String.prefix "Execution failed" reason = true).
Proof.
  intros outs. split.
  - subst outs. unfold executeAndWaitForStop.
    destruct (outcomes_cases events) as [-> | [pre [ev [post [_ [_ [_ ->]]]]]]].
    + simpl. lia.
    + apply settled_by_length.
  - intros pre ev post -> Hq Hf. subst outs. unfold executeAndWaitForStop.
    destruct (run_first_to_fire pre ev post Hq Hf) as [Hc [Ho _]].
    rewrite Ho. split; [exact Hc|].
    repeat split.
    + intros s ->. reflexivity.
    + intros ->. reflexivity.
    + intros s body reply -> Hr. simpl. now rewrite Hr.
    + intros message ->. eexists. split; [reflexivity|]. split; [reflexivity|].
      apply (prefix_app "Execution failed" (String ":" (String " " message))).
Qed.

(** While the host has not answered the stack query of the stop handler,
    nothing is resolved yet, and nothing else can resolve. *)
Lemma stop_awaits_reply (pre : list Event) (body : option StopBody)
    (post : list Event) :
  Forall (quiet session) pre -> first_reply post = None ->
  outcomes (snd (executeAndWaitForStop session fallbackThreadId
                   (pre ++ EvStopped session body :: post))) = [].
Proof.
  intros Hq Hr. unfold executeAndWaitForStop.
  assert (Hf : fires session (EvStopped session body) = true)
    by (simpl; apply Nat.eqb_refl).
  destruct (run_first_to_fire pre _ post Hq Hf) as [_ [Ho _]].
  rewrite Ho. simpl. now rewrite Hr.
Qed.

(** C8, as the code has it. The state of every Stopped outcome is built
    from a non-empty list of frames the host returned: its [stackTrace]
    has one entry per returned frame, in order, and [file], [line] and
    [column] are those of its first entry. The stack query asks for
    [levels = 20] from [startFrame = 0], and the answer is not cut: the
    [stackTrace] has at most 20 frames when the host returns at most 20.
    When the host returns no frame after a stop, the outcome is
    NotStopped with a reason starting 'Stopped but failed to get
    state'. *)
Theorem stopped_outcome_state (events : list Event) :
  let result := executeAndWaitForStop session fallbackThreadId events in
  (forall state r d t,
     In (Stopped state r d t) (outcomes (snd result)) ->
     exists top rest,
       In (EvStackReply (Ok (Some (top :: rest)))) events /\
       stackTrace state = map frame_of (top :: rest) /\
       stackTrace state <> [] /\
       List.length (stackTrace state) = List.length (top :: rest) /\
       Some (file state) = option_map frame_file (hd_error (stackTrace state)) /\
       Some (line state) = option_map frame_line (hd_error (stackTrace state)) /\
       Some (column state) =
         option_map frame_column (hd_error (stackTrace state)) /\
       ((forall frames,
           In (EvStackReply (Ok (Some frames))) events ->
           List.length frames <= 20) ->
        List.length (stackTrace state) <= 20)) /\
  (forall s a,
     In (s, a) (requests (snd result)) ->
     s = session /\ st_startFrame a = 0%Z /\ st_levels a = 20%Z) /\
  (forall pre body post reply,
     events = pre ++ EvStopped session body :: post ->
     Forall (quiet session) pre ->
     first_reply post = Some reply ->
     reply = Ok None \/ reply = Ok (Some []) ->
     exists reason,
       outcomes (snd result) = [NotStopped reason] /\
       String.prefix "Stopped but failed to get state" reason = true).
Proof.
  intros result. subst result. unfold executeAndWaitForStop.
  split; [|split].
  - intros state r d t Hin.
    destruct (outcomes_cases events)
      as [He | [pre [ev [post [-> [Hq [Hf He]]]]]]];
      rewrite He in Hin; [contradiction|].
    destruct ev; simpl in Hin;
      try (destruct Hin as [Hin|[]]; discriminate); try contradiction.
    destruct (first_reply post) as [reply|] eqn:Hr; [|contradiction].
    destruct Hin as [Hin|[]]. unfold stop_outcome in Hin.
    destruct (stopped_state_of reply) as [state'|e] eqn:Hs; [|discriminate].
    inversion Hin; subst.
    destruct (stopped_state_of_Ok _ _ Hs)
      as [top [rest [-> [Hst [Hfile [Hline Hcol]]]]]].
    exists top, rest.
    split; [apply in_or_app; right; right; now apply first_reply_In|].
    split; [exact Hst|]. rewrite Hst.
    split; [discriminate|].
    split; [apply length_map|].
    simpl. rewrite Hfile, Hline, Hcol.
    repeat split; try reflexivity.
    intros Hb. rewrite length_map. apply (Hb (top :: rest)).
    apply in_or_app. right. right. now apply first_reply_In.
  - intros s a Hin.
    destruct (first_to_fire events) as [Hq | [pre [ev [post [-> [Hq Hf]]]]]].
    + rewrite run_quiet in Hin by assumption. contradiction.
    + destruct (run_first_to_fire pre ev post Hq Hf) as [_ [_ Hr]].
      rewrite Hr in Hin. destruct ev; try contradiction.
      destruct Hin as [Hin|[]]. inversion Hin. auto.
  - intros pre body post reply -> Hq Hr Hempty.
    assert (Hf : fires session (EvStopped session body) = true)
      by (simpl; apply Nat.eqb_refl).
    destruct (run_first_to_fire pre _ post Hq Hf) as [_ [Ho _]].
    rewrite Ho. simpl. rewrite Hr.
    exists "Stopped but failed to get state: No stack frames available".
    split; [|reflexivity].
    destruct Hempty as [-> | ->]; reflexivity.
Qed.

End ExecuteAndWaitForStop.

(** *** [waitForLaunchResult]: the same race, without the session filter *)

Lemma launch_run_app (st : Pending) (a b : list Event) :
  launch_run st (a ++ b) =
  (fst (launch_run (fst (launch_run st a)) b),
   snd (launch_run st a) ++ snd (launch_run (fst (launch_run st a)) b)).
Proof.
  revert st. induction a as [|ev a IH]; intros st; simpl.
  - now destruct (launch_run st b).
  - destruct (launch_step st ev) as [st1 e1]. rewrite IH.
    destruct (launch_run st1 a) as [st2 e2]. simpl.
    now rewrite app_assoc.
Qed.

Lemma launch_run_quiet (pre : list Event) :
  Forall launch_quiet pre -> launch_run start pre = (start, []).
Proof.
  induction 1 as [|ev pre Hq _ IH]; simpl; [reflexivity|].
  destruct ev; try contradiction. simpl. now rewrite IH.
Qed.

Lemma launch_run_done (post : list Event) :
  launch_run (settle start) post = (settle start, []).
Proof.
  induction post as [|ev post IH]; simpl; [reflexivity|].
  assert (Hs : launch_step (settle start) ev = (settle start, []))
    by (destruct ev as [? body| | | |]; try reflexivity).
  rewrite Hs, IH. reflexivity.
Qed.

Lemma launch_run_waiting (body : option StopBody) (post : list Event) :
  launch_run (set_gathering (Some body) (settle start)) post =
  match first_reply post with
  | Some r => (settle start, [Resolve (launch_stop_response body r)])
  | None => (set_gathering (Some body) (settle start), [])
  end.
Proof.
  induction post as [|ev post IH]; simpl; [reflexivity|].
  destruct ev; simpl; try (rewrite IH; destruct (first_reply post); reflexivity).
  change (set_gathering None (set_gathering (Some body) (settle start)))
    with (settle start).
  rewrite launch_run_done. reflexivity.
Qed.


(** *** Concrete runs *)

Lemma settles_exactly_once_witness :
  outcomes (snd (executeAndWaitForStop 1 None
                   [EvStopped 2 breakpoint_hit; EvTerminated 1; EvTimeout;
                    EvStopped 1 breakpoint_hit]))
  = [NotStopped "Debug session terminated"].
Proof.
  assert (Hq : Forall (quiet 1) [EvStopped 2 breakpoint_hit])
    by (constructor; [reflexivity | constructor]).
  exact (proj1 (proj2 (proj2 (settles_exactly_once 1 None _)
                        [EvStopped 2 breakpoint_hit] (EvTerminated 1)
                        [EvTimeout; EvStopped 1 breakpoint_hit]
                        eq_refl Hq eq_refl))
           1 eq_refl).
Defined.

Lemma stopped_outcome_state_witness :
  List.length (stackTrace one_frame_state) <= 20.
Proof.
  destruct (proj1 (stopped_outcome_state 1 None one_frame_run)
              one_frame_state (Some "breakpoint") None None
              (or_introl eq_refl))
    as [top [rest [_ [_ [_ [_ [_ [_ [_ Hbound]]]]]]]]].
  apply Hbound. intros frames Hin. simpl in Hin.
  destruct Hin as [H | [H | []]]; inversion H. simpl. lia.
Defined.

(** C8 as stated fails: the host may answer the query for 20 levels with
    more frames, and all of them reach the Stopped outcome. *)

Lemma stopped_outcome_more_than_20 :
  exists state r d t,
    In (Stopped state r d t)
       (outcomes (snd (executeAndWaitForStop 1 None
                         [EvStopped 1 breakpoint_hit;
                          EvStackReply (Ok (Some long_stack))]))) /\
    List.length (stackTrace state) = 21 /\
    ~ List.length (stackTrace state) <= 20.
Proof.
  eexists _, _, _, _. split; [left; reflexivity|]. simpl. split; [reflexivity|lia].
Qed.


End ExecutorFacts.

(** ** [handleExecute]: configuration resolution and step dispatch *)

Module ExecuteFacts.
Import Execute ExecuteProps.

Lemma find_none_by_name (configs : list Config) (n : string) :
  (forall c, In c configs -> name c <> n) ->
  find (fun c => name c =? n) configs = None.
Proof.
  induction configs as [|c rest IH]; intros H; simpl; [reflexivity|].
  assert (Hc : (name c =? n) = false)
    by (apply String.eqb_neq, H; now left).
  rewrite Hc. apply IH. intros c' Hin. apply H. now right.
Qed.

Section Launch.
Variable replacePlaceholders : string -> Config -> Config.

Lemma launch_zero (host : Host) (args : Args)
    (folder : WorkspaceFolder) (others : list WorkspaceFolder) :
  workspaceFolders host = folder :: others ->
  configs_of folder = [] ->
  handle_launch replacePlaceholders host args
    = LaunchThrows "No debug configurations found in launch.json".
Proof.
  intros Hws Hc. unfold handle_launch. rewrite Hws.
  unfold configs_of in Hc. rewrite Hc. reflexivity.
Qed.

(** C2, as the code has it. In an open workspace folder: with zero
    configurations the call fails with 'No debug configurations found'
    whatever the state of the debugger, which is not consulted; a
    configuration name that no configuration carries fails with a
    message listing the available names; with no name and exactly one
    configuration, that one is selected, and it is started unless a
    debug session is already active, in which case the call returns
    'Debug session already active'; with no name and several
    configurations, the call returns their names and starts nothing. *)
Theorem launch_resolution (host : Host) (args : Args)
    (folder : WorkspaceFolder) (others : list WorkspaceFolder) :
  workspaceFolders host = folder :: others ->
  let configs := configs_of folder in
  let result := handle_launch replacePlaceholders host args in
  (configs = [] ->
     result = LaunchThrows "No debug configurations found in launch.json" /\
     forall host',
       workspaceFolders host' = workspaceFolders host ->
       handle_launch replacePlaceholders host' args = result) /\
  (forall n,
     configurationName args = Some n -> n <> "" -> configs <> [] ->
     (forall c, In c configs -> name c <> n) ->
     result =
       LaunchThrows
         ("Configuration " ++ dquote ++ n ++ dquote
            ++ " not found. Available: " ++ join ", " (map name configs))) /\
  (forall c,
     truthy_string (configurationName args) = false -> configs = [c] ->
     (activeDebugSession host = None ->
        result = LaunchStarts folder (replacePlaceholders (fsPath folder) c)
                   (truthy_bool (noDebug args))) /\
     (activeDebugSession host <> None ->
        result = LaunchReturns "Debug session already active" None)) /\
  (truthy_string (configurationName args) = false ->
     1 < List.length configs ->
     result =
       LaunchReturns
         "Multiple debug configurations available. Specify configurationName."
         (Some (map name configs))).
Proof.
  intros Hws configs result.
  split.
  { intros Hc. subst result.
    rewrite (launch_zero host args folder others Hws Hc).
    split; [reflexivity|]. intros host' H. rewrite Hws in H.
    apply (launch_zero host' args folder others H Hc). }
  subst result configs.
  unfold handle_launch, configs_of. rewrite Hws.
  destruct (configurations folder) as [configs|]; simpl.
  2: { repeat split.
       - intros n _ _ H. contradiction.
       - discriminate.
       - discriminate.
       - intros _ H. inversion H. }
  split; [|split].
  - intros n Hn Hne Hc Hnone.
    destruct configs as [|c0 rest]; [contradiction|].
    cbn [List.length Nat.eqb]. rewrite Hn.
    cbn [truthy_string string_value].
    apply String.eqb_neq in Hne. rewrite Hne. cbn [negb].
    rewrite (find_none_by_name _ _ Hnone). reflexivity.
  - intros c Hname ->. simpl. rewrite Hname.
    destruct (activeDebugSession host); split; intros H;
      try reflexivity; try discriminate; contradiction.
  - intros Hname Hlen.
    destruct configs as [|c0 [|c1 rest]]; simpl in Hlen; try lia.
    cbn [List.length Nat.eqb]. rewrite Hname. reflexivity.
Qed.

End Launch.

(** C2 as stated fails: one configuration, no name, and yet nothing is
    started, because a debug session is already active. *)
Lemma launch_single_config_not_started :
  configurationName no_args = None /\
  configs_of single_config_folder = [launch_program] /\
  handle_launch keep_config debugging_host no_args
    = LaunchReturns "Debug session already active" None /\
  forall folder config flag,
    handle_launch keep_config debugging_host no_args
      <> LaunchStarts folder config flag.
Proof.
  repeat split. intros folder config flag H. discriminate H.
Qed.

Lemma launch_resolution_witness :
  handle_launch keep_config idle_host no_args
    = LaunchStarts single_config_folder launch_program false.
Proof.
  exact (proj1 (proj1 (proj2 (proj2
           (launch_resolution keep_config idle_host no_args
              single_config_folder [] eq_refl)))
           launch_program eq_refl eq_refl) eq_refl).
Defined.

(** C6, as the code has it. With an active session and a resolved thread,
    the action goes through the VS Code command unless the caller gave a
    thread id, or gave a granularity for a step action; then it goes
    through the DAP request ([continue], [next], [stepIn], [stepOut]) with
    the resolved thread id, and with the granularity for a step action. A
    granularity given with [continue] is ignored. *)
Theorem step_dispatch (host : Host) (args : Args) (action : StepAction)
    (session : Session) (resolved : Z) :
  activeDebugSession host = Some session ->
  resolveThreadId host (threadId args) = Ok resolved ->
  exists executeFn,
    handle_step host args action = Ok (session, executeFn, resolved) /\
    (threadId args = None -> passes_granularity args action = false ->
       executeFn = ExecuteCommand (vscodeCommandMap action)) /\
    (threadId args <> None \/ passes_granularity args action = true ->
       executeFn =
         CustomRequest (dapCommandMap action)
           {| dap_threadId := resolved;
              dap_granularity :=
                if passes_granularity args action
                then granularity args else None |}) /\
    (action = Continue -> threadId args = None ->
       executeFn = ExecuteCommand "workbench.action.debug.continue") /\
    (forall explicit, threadId args = Some explicit -> resolved = explicit).
Proof.
  intros Hs Hr. unfold handle_step. rewrite Hs, Hr.
  eexists. split; [reflexivity|]. unfold useCustomRequest, passes_granularity.
  repeat split.
  - intros Ht Hg. rewrite Ht, Hg. reflexivity.
  - intros [Ht | Hg].
    + destruct (threadId args); [reflexivity | contradiction].
    + rewrite Hg. destruct (threadId args); reflexivity.
  - intros -> Ht. rewrite Ht. simpl. rewrite andb_false_r. reflexivity.
  - intros explicit Ht. rewrite Ht in Hr. simpl in Hr. congruence.
Qed.

(** C6 as stated fails: a granularity given with [continue] does not
    switch it to the DAP request. *)
Lemma continue_with_granularity_stays_high_level :
  granularity (with_granularity "line") = Some "line" /\
  handle_step debugging_host (with_granularity "line") Continue
    = Ok (1, ExecuteCommand "workbench.action.debug.continue", 1%Z) /\
  forall dapCommand dapArgs,
    handle_step debugging_host (with_granularity "line") Continue
      <> Ok (1, CustomRequest dapCommand dapArgs, 1%Z).
Proof.
  repeat split. intros dapCommand dapArgs H. discriminate H.
Qed.

Lemma step_dispatch_witness :
  handle_step debugging_host (with_granularity "line") StepOver
    = Ok (1, CustomRequest "next"
               {| dap_threadId := 1; dap_granularity := Some "line" |}, 1%Z).
Proof.
  destruct (step_dispatch debugging_host (with_granularity "line") StepOver
              1 1%Z eq_refl eq_refl) as [fn [Heq [_ [Hlow _]]]].
  rewrite Heq, (Hlow (or_intror eq_refl)). reflexivity.
Defined.

End ExecuteFacts.

(** ** The port lookup of the bridge *)

Module BridgeFacts.
Import Bridge BridgeProps.

Lemma prefix_nil (s : string) : String.prefix "" s = true.
Proof. now destruct s. Qed.

Lemma prefix_cons (c d : ascii) (s t : string) :
  String.prefix (String c s) (String d t) = true <->
  c = d /\ String.prefix s t = true.
Proof.
  simpl. destruct (ascii_dec c d) as [->|Hne].
  - tauto.
  - split; [discriminate | intros [H _]; contradiction].
Qed.

Lemma prefix_of_append (a b c : string) :
  String.prefix (a ++ b) c = true -> String.prefix a c = true.
Proof.
  revert c. induction a as [|x a IH]; intros c H.
  - apply prefix_nil.
  - destruct c as [|y c]; [discriminate H|].
    simpl append in H. apply prefix_cons in H. destruct H as [-> H].
    apply prefix_cons. split; [reflexivity | now apply IH].
Qed.

Lemma prefix_refl (s : string) : String.prefix s s = true.
Proof.
  induction s as [|c s IH]; [reflexivity|].
  apply prefix_cons. auto.
Qed.

(** Two prefixes of one string that have the same length are equal. *)
Lemma prefix_same_length (a b c : string) :
  String.prefix a c = true -> String.prefix b c = true ->
  String.length a = String.length b -> a = b.
Proof.
  revert b c. induction a as [|x a IH]; intros [|y b] c Ha Hb Hl;
    try reflexivity; try discriminate Hl.
  destruct c as [|z c]; [discriminate Ha|].
  apply prefix_cons in Ha. apply prefix_cons in Hb.
  destruct Ha as [-> Ha], Hb as [-> Hb].
  f_equal. apply (IH b c); auto.
Qed.

Lemma prefix_split (a b : string) :
  String.prefix a b = true <-> exists rest, b = (a ++ rest)%string.
Proof.
  split.
  - revert b. induction a as [|x a IH]; intros b H.
    + exists b. reflexivity.
    + destruct b as [|y b]; [discriminate H|].
      apply prefix_cons in H. destruct H as [-> H].
      destruct (IH b H) as [rest ->]. exists rest. reflexivity.
  - intros [rest ->]. induction a as [|x a IH]; [apply prefix_nil|].
    apply prefix_cons. auto.
Qed.

Lemma append_assoc (a b c : string) :
  ((a ++ b) ++ c = a ++ (b ++ c))%string.
Proof. induction a as [|x a IH]; simpl; [reflexivity | now rewrite IH]. Qed.

(** The test of the loop, spelled out. *)
Lemma under_spec (sep cwd root : string) :
  under sep cwd root = true <-> at_or_below sep cwd root.
Proof.
  unfold under, at_or_below.
  rewrite orb_true_iff, String.eqb_eq, prefix_split.
  split; (intros [H | [rest H]]; [now left | right; exists rest]).
  - now rewrite <- append_assoc.
  - now rewrite append_assoc.
Qed.

Lemma under_false (sep cwd root : string) :
  under sep cwd root = false <-> ~ at_or_below sep cwd root.
Proof.
  rewrite <- under_spec. destruct (under sep cwd root); split; intros H.
  - discriminate H.
  - exfalso. now apply H.
  - intros Hc. discriminate Hc.
  - reflexivity.
Qed.

Section Lookup.
Variable sep : string.
Variable cwd : string.

Lemma under_prefix (k : string) :
  under sep cwd k = true -> String.prefix k cwd = true.
Proof.
  unfold under. intros H. apply orb_true_iff in H. destruct H as [H|H].
  - apply String.eqb_eq in H. subst. apply prefix_refl.
  - now apply prefix_of_append in H.
Qed.

(** Once the best match is at least as long as every matching key still
    to come, the loop keeps it. *)
Lemma scan_keeps (entries : list (string * RegistryValue))
    (bestMatch : string) (bestPort : option Z) :
  (forall k p, In (k, Port p) entries -> under sep cwd k = true ->
               String.length k <= String.length bestMatch) ->
  scan sep cwd entries bestMatch bestPort = (bestMatch, bestPort).
Proof.
  induction entries as [|[k v] rest IH]; intros H; simpl; [reflexivity|].
  assert (Hrest : forall k' p', In (k', Port p') rest ->
            under sep cwd k' = true ->
            String.length k' <= String.length bestMatch)
    by (intros k' p' Hin; apply (H k' p'); now right).
  destruct v as [p|]; [|now apply IH].
  destruct (under sep cwd k) eqn:Hu; [|now apply IH].
  assert (Hle : String.length k <= String.length bestMatch)
    by (apply (H k p); [now left | assumption]).
  apply Nat.ltb_ge in Hle. rewrite Hle. now apply IH.
Qed.

Lemma scan_finds (entries : list (string * RegistryValue))
    (bestMatch : string) (bestPort : option Z) (k : string) (p : Z) :
  NoDup (map fst entries) ->
  In (k, Port p) entries ->
  under sep cwd k = true ->
  String.length bestMatch < String.length k ->
  (forall k' p', In (k', Port p') entries -> under sep cwd k' = true ->
                 String.length k' <= String.length k) ->
  scan sep cwd entries bestMatch bestPort = (k, Some p).
Proof.
  revert bestMatch bestPort.
  induction entries as [|[k0 v0] rest IH];
    intros bestMatch bestPort Hnd Hin Hu Hlt Hmax; [contradiction|].
  simpl in Hnd. inversion Hnd as [|? ? Hfresh Hnd']; subst.
  assert (Hmax' : forall k' p', In (k', Port p') rest ->
            under sep cwd k' = true ->
            String.length k' <= String.length k)
    by (intros k' p' Hin'; apply (Hmax k' p'); now right).
  destruct Hin as [Heq | Hin].
  - inversion Heq; subst. simpl. rewrite Hu.
    apply Nat.ltb_lt in Hlt. rewrite Hlt.
    now apply scan_keeps.
  - simpl. destruct v0 as [p0|]; [|now apply IH].
    destruct (under sep cwd k0) eqn:Hu0; [|now apply IH].
    destruct (String.length bestMatch <? String.length k0)%nat eqn:Hcmp;
      [|now apply IH].
    apply IH; auto.
    assert (Hle : String.length k0 <= String.length k)
      by (apply (Hmax k0 p0); [now left | assumption]).
    destruct (Nat.eq_dec (String.length k0) (String.length k)) as [He|Hne];
      [|lia].
    exfalso. apply Hfresh.
    assert (k0 = k)
      by (apply (prefix_same_length k0 k cwd); auto using under_prefix).
    subst. change k with (fst (k, Port p)). now apply in_map.
Qed.

Lemma scan_none (entries : list (string * RegistryValue)) :
  (forall k p, In (k, Port p) entries -> under sep cwd k = false) ->
  scan sep cwd entries "" None = ("", None).
Proof.
  intros H. apply scan_keeps. intros k p Hin Hu.
  rewrite (H k p Hin) in Hu. discriminate.
Qed.

Lemma ports_In (entries : list (string * RegistryValue)) (p : Z) :
  In p (ports entries) -> exists k, In (k, Port p) entries.
Proof.
  induction entries as [|[k v] rest IH]; simpl; [contradiction|].
  destruct v as [q|].
  - intros [-> | H]; [exists k; now left|].
    destruct (IH H) as [k' Hk']. exists k'. now right.
  - intros H. destruct (IH H) as [k' Hk']. exists k'. now right.
Qed.

End Lookup.

Lemma ports_first (entries : list (string * RegistryValue)) :
  first_port entries (hd_error (ports entries)).
Proof.
  induction entries as [|[k [p|]] rest IH]; simpl.
  - constructor.
  - constructor.
  - now constructor.
Qed.

(** What does hold of the lookup. Among the registered roots that the
    working directory is, or continues after the separator, the longest
    gives the port; when there is none, the first port of the registry
    does, and 4711 when it has none, or is missing or unreadable. *)
Lemma longest_root_lookup (sep cwd : string)
    (registry : list (string * RegistryValue)) :
  NoDup (map fst registry) ->
  let port := getPortFromConfig sep cwd (Registry registry) in
  (forall k p,
     In (k, Port p) registry -> k <> "" -> at_or_below sep cwd k ->
     (forall k' p', In (k', Port p') registry -> at_or_below sep cwd k' ->
                    String.length k' <= String.length k) ->
     port = p) /\
  ((forall k p, In (k, Port p) registry -> ~ at_or_below sep cwd k) ->
     (forall p, first_port registry (Some p) -> port = p) /\
     (first_port registry None -> port = 4711%Z)) /\
  getPortFromConfig sep cwd (Registry []) = 4711%Z /\
  getPortFromConfig sep cwd Missing = 4711%Z /\
  getPortFromConfig sep cwd Unreadable = 4711%Z.
Proof.
  intros Hnd port. subst port.
  split; [|split; [|repeat split]].
  - intros k p Hin Hne Hu Hmax. unfold getPortFromConfig.
    rewrite (scan_finds sep cwd registry "" None k p Hnd Hin); auto.
    + now apply under_spec.
    + destruct k; [contradiction | simpl; lia].
    + intros k' p' Hin' Hu'. apply (Hmax k' p' Hin'). now apply under_spec.
  - intros Hnone.
    assert (Hscan : scan sep cwd registry "" None = ("", None)).
    { apply scan_none. intros k p Hin. apply under_false. eauto. }
    unfold getPortFromConfig. rewrite Hscan. cbn [snd].
    pose proof (ports_first registry) as Hfirst.
    assert (Hfun : forall a b, first_port registry a ->
                               first_port registry b -> a = b).
    { clear. induction registry as [|[k v] rest IH]; intros a b Ha Hb;
        inversion Ha; subst; inversion Hb; subst; auto. }
    split.
    + intros p Hp. specialize (Hfun _ _ Hfirst Hp).
      destruct (ports registry); simpl in Hfun; congruence.
    + intros Hp. specialize (Hfun _ _ Hfirst Hp).
      destruct (ports registry); simpl in Hfun; [reflexivity | discriminate].
Qed.

Lemma prefix_app_cancel (a b c : string) :
  String.prefix (a ++ b) (a ++ c) = String.prefix b c.
Proof.
  induction a as [|x a IH]; [reflexivity|].
  cbn [append String.prefix].
  destruct (ascii_dec x x) as [_|Hne]; [exact IH | contradiction].
Qed.

Lemma append_fixed (a b : string) : (a ++ b)%string = a -> b = "".
Proof.
  induction a as [|x a IH]; [auto|].
  cbn [append]. intros H. injection H as H. auto.
Qed.

(** C3 fails on the code: a registered root that ends in the separator,
    as [/] or a drive root does, is never matched by a directory below
    it. With such a root and another one registered that the directory
    does not lie under, the lookup matches none and answers the port of
    the other one, the first of the registry: from [/home/u], with
    [/home/v] and [/] registered, the port of [/home/v]. *)
Theorem root_directory_is_not_matched (sep parent rest other : string)
    (p q : Z) :
  rest <> "" -> String.prefix sep rest = false ->
  let root := (parent ++ sep)%string in
  let cwd := (root ++ rest)%string in
  under sep cwd other = false ->
  under sep cwd root = false /\
  getPortFromConfig sep cwd (Registry [(other, Port p); (root, Port q)]) = p.
Proof.
  intros Hrest Hsep root cwd Hother.
  assert (Hroot : under sep cwd root = false).
  { unfold under. subst cwd. rewrite prefix_app_cancel, Hsep, orb_false_r.
    apply String.eqb_neq. intros H. apply Hrest.
    now apply (append_fixed root). }
  split; [exact Hroot|].
  unfold getPortFromConfig. cbn [scan]. rewrite Hother, Hroot. reflexivity.
Qed.

Lemma root_directory_is_not_matched_witness :
  under "/" "/home/u" "/" = false /\
  getPortFromConfig "/" "/home/u"
    (Registry [("/home/v", Port 4711); ("/", Port 5000)]) = 4711%Z.
Proof.
  exact (root_directory_is_not_matched "/" "" "home/u" "/home/v" 4711 5000
           ltac:(discriminate) eq_refl eq_refl).
Defined.

End BridgeFacts.

(** ** The [/tcp] endpoint *)

Module TcpFacts.
Import Tcp TcpProps.

Section Endpoint.
Variable tools : json.
Variable handleExecute handleBreakpoints handleInspect : option json -> Result json.

Local Abbreviation tcp := (tcp tools handleExecute handleBreakpoints handleInspect).
Local Abbreviation handleCommand :=
  (handleCommand handleExecute handleBreakpoints handleInspect).

(** What does hold of the endpoint: the answer is always an envelope,
    either a success without error or a failure with a message and no
    data; [listTools] answers the tools; [callTool] answers what
    [handleCommand] returns, or fails with what it throws; a body that
    does not parse, and a body that is [null], fail. *)
Lemma tcp_envelope (parsed : Parsed) :
  (success (body (tcp parsed)) = true /\ error (body (tcp parsed)) = None \/
   rejected (tcp parsed) /\ data (body (tcp parsed)) = None) /\
  (forall message, parsed = SyntaxError message -> tcp parsed = fail message) /\
  (parsed = Value JNull -> rejected (tcp parsed)) /\
  (forall request,
     parsed = Value request ->
     is_string (field "type" match request with JObj f => f | _ => [] end)
       "listTools" = true ->
     tcp parsed = succeed (Some (JObj [("tools", tools)]))) /\
  (forall fields,
     parsed = Value (JObj fields) ->
     is_string (field "type" fields) "callTool" = true ->
     tcp parsed = match handleCommand (JObj fields) with
                  | Ok response => succeed (Some response)
                  | Throw message => fail message
                  end).
Proof.
  split; [|split; [|split; [|split]]].
  - destruct parsed as [m|request]; simpl.
    + right. unfold rejected. simpl. eauto.
    + destruct (property "type" request) as [type|m]; simpl.
      * destruct (is_string type "listTools"); [left; auto|].
        destruct (is_string type "callTool"); [|left; auto].
        destruct (handleCommand request); simpl; [left; auto|].
        right. unfold rejected. simpl. eauto.
      * right. unfold rejected. simpl. eauto.
  - intros message ->. reflexivity.
  - intros ->. unfold rejected. simpl. eauto.
  - intros request -> Ht. simpl.
    destruct request; simpl in *; try discriminate Ht.
    now rewrite Ht.
  - intros fields -> Ht. simpl.
    destruct (is_string (field "type" fields) "listTools") eqn:Hl.
    + exfalso. unfold is_string in *.
      destruct (field "type" fields) as [[| | |s| |]|]; try discriminate.
      apply String.eqb_eq in Hl, Ht. congruence.
    + now rewrite Ht.
Qed.

(** C7 fails on the code: a body whose [type] is neither [listTools] nor
    [callTool] is answered with status 200 and [{success: true}], with
    neither data nor error; it is not rejected. *)
Theorem unrecognized_type_succeeds :
  tcp bogus_request
    = {| status := 200;
         body := {| success := true; data := None; error := None |} |} /\
  ~ rejected (tcp bogus_request) /\
  forall request,
    unrecognized request ->
    tcp (Value request) = succeed None /\ ~ rejected (tcp (Value request)).
Proof.
  split; [reflexivity|]. split.
  - intros [H _]. discriminate H.
  - intros request [type [Hp [Hl Hc]]]. simpl. rewrite Hp, Hl, Hc.
    split; [reflexivity|]. intros [H _]. discriminate H.
Qed.

End Endpoint.

End TcpFacts.

(** ** Breakpoints: how the actions compose *)

Module BreakpointsMore.
Import Breakpoints BreakpointsProps BreakpointsFacts JsFacts.

Lemma filter_none {A : Type} (p : A -> bool) (l : list A) :
  filter p l = [] -> filter (fun x => negb (p x)) l = l.
Proof.
  induction l as [|x l IH]; simpl; [reflexivity|].
  destruct (p x); simpl; [discriminate|].
  intros H. now rewrite IH.
Qed.

Lemma filter_negb_twice {A : Type} (p : A -> bool) (l : list A) :
  filter p (filter (fun x => negb (p x)) l) = [].
Proof.
  induction l as [|x l IH]; simpl; [reflexivity|].
  destruct (p x) eqn:E; simpl; [assumption|]. now rewrite E.
Qed.

Lemma list_source_entry (store : Store) (e : Listed) :
  In e (list_source store) <->
  exists bp, In bp store /\ listed_of bp = Some e.
Proof.
  induction store as [|b rest IH]; simpl.
  - split; [contradiction | intros [bp [[] _]]].
  - destruct (listed_of b) as [e'|] eqn:Hb; simpl; rewrite IH; split.
    + intros [<- | [bp [Hin Hl]]]; [exists b | exists bp]; auto.
    + intros [bp [[<- | Hin] Hl]]; [left; congruence | right; eauto].
    + intros [bp [Hin Hl]]. exists bp. auto.
    + intros [bp [[<- | Hin] Hl]]; [congruence | eauto].
Qed.

Lemma list_source_length (store : Store) :
  List.length (list_source store) <= List.length store.
Proof.
  induction store as [|b rest IH]; simpl; [lia|].
  destruct (listed_of b); simpl; lia.
Qed.

Section WithHost.
Variable openTextDocument : string -> Result string.

(** What a validated [remove] evaluates to. *)
Lemma remove_eval (store : Store) (args : Args) (f : string) (l : Z) :
  action args = "remove" ->
  file args = Some f -> f <> "" ->
  line args = Some l -> l <> 0%Z ->
  distinct_ids store ->
  exists message,
    handleBreakpoints openTextDocument store args =
    (Ok (RemoveResponse message
           (List.length (filter (remove_matches f l) store))),
     filter (fun bp => negb (remove_matches f l bp)) store) /\
    (filter (remove_matches f l) store = [] ->
     message = ("No breakpoint found at " ++ f ++ ":" ++ string_of_Z l)%string).
Proof.
  intros Ha Hf Hfne Hl Hlne Hnd.
  unfold handleBreakpoints, handle_remove. rewrite Ha, Hf, Hl. simpl.
  apply String.eqb_neq in Hfne. rewrite Hfne.
  apply Z.eqb_neq in Hlne. rewrite Hlne. simpl.
  destruct (filter (remove_matches f l) store) as [|b bs] eqn:E.
  - simpl. eexists. split; [|reflexivity].
    now rewrite (filter_none _ _ E).
  - cbn [List.length Nat.eqb]. eexists. split; [|discriminate].
    rewrite <- E. now rewrite remove_filtered.
Qed.

(** X1. A call that throws leaves the breakpoint store exactly as it
    was, whatever the action and the arguments; so does [list]. *)
Theorem failure_leaves_store (store : Store) (args : Args) :
  (forall message,
     fst (handleBreakpoints openTextDocument store args) = Throw message ->
     snd (handleBreakpoints openTextDocument store args) = store) /\
  (action args = "list" ->
   snd (handleBreakpoints openTextDocument store args) = store).
Proof.
  split.
  - intros message. unfold handleBreakpoints, handle_set, handle_remove, handle_list.
    repeat match goal with
           | |- context [if ?c then _ else _] => destruct c
           | |- context [match openTextDocument ?f with _ => _ end] =>
               destruct (openTextDocument f)
           end; simpl; try reflexivity; discriminate.
  - intros Ha. unfold handleBreakpoints. rewrite Ha. reflexivity.
Qed.

(** X2. Whatever the call, the store afterwards is the old store, or
    the old store followed by one new, enabled source breakpoint, or
    what is left of the old store after some breakpoints were taken
    out: a call never reorders, edits or disables a breakpoint that
    stays, and never adds more than one. *)
Theorem store_changes_by_one_action (store : Store) (args : Args) :
  let store' := snd (handleBreakpoints openTextDocument store args) in
  store' = store \/
  (exists sb, store' = store ++ [ {| id := fresh_id store; kind := IsSource sb |} ]
              /\ enabled sb = true) \/
  (exists keep, store' = filter keep store).
Proof.
  unfold handleBreakpoints, handle_set, handle_remove, handle_list.
  repeat match goal with
         | |- context [if ?c then _ else _] => destruct c
         | |- context [match openTextDocument ?f with _ => _ end] =>
             destruct (openTextDocument f)
         end; simpl; auto.
  - right. left. eexists. unfold addBreakpoints. simpl.
    rewrite fresh_id_new. simpl. split; reflexivity.
  - right. right. eexists. reflexivity.
Qed.

(** X3. Setting a breakpoint and then removing at the path under which
    the host opened the file, and at the same line, takes out the new
    breakpoint together with those that were already there: the count
    returned is one more than the number already there, and a store
    that had none at that place is back exactly as it was. *)
Theorem set_then_remove (store : Store) (set_args remove_args : Args)
    (f opened : string) (l : Z) :
  action set_args = "set" -> action remove_args = "remove" ->
  file set_args = Some f -> f <> "" ->
  openTextDocument f = Ok opened ->
  file remove_args = Some opened -> opened <> "" ->
  line set_args = Some l -> line remove_args = Some l -> (0 < l)%Z ->
  distinct_ids store ->
  let after_set := snd (handleBreakpoints openTextDocument store set_args) in
  let result := handleBreakpoints openTextDocument after_set remove_args in
  let already := filter (remove_matches opened l) store in
  (exists message,
     fst result = Ok (RemoveResponse message (S (List.length already)))) /\
  snd result = filter (fun bp => negb (remove_matches opened l bp)) store /\
  (already = [] -> snd result = store).
Proof.
  intros Has Har Hfs Hfne Hopen Hfr Hone Hls Hlr Hpos Hnd
         after_set result already.
  assert (Hnd' : distinct_ids after_set)
    by (apply handleBreakpoints_distinct_ids; assumption).
  assert (Hlne : l <> 0%Z) by lia.
  destruct (remove_eval after_set remove_args opened l Har Hfr Hone Hlr
              Hlne Hnd') as [message [Heq _]].
  subst result. rewrite Heq. clear Heq. subst after_set.
  rewrite (set_eval openTextDocument store set_args f opened l
             Has Hfs Hfne Hls Hpos Hopen) in *.
  cbn [fst snd].
  match goal with
  | |- context [store ++ [?b]] => set (added := b) in *
  end.
  assert (Hm : remove_matches opened l added = true).
  { apply remove_matches_spec. eexists. split; [reflexivity|]. auto. }
  rewrite !filter_app. cbn [filter]. rewrite Hm. cbn [negb].
  rewrite app_nil_r, length_app. cbn [List.length].
  split; [|split].
  - exists message. f_equal. f_equal. subst already. lia.
  - reflexivity.
  - intros H. now apply filter_none.
Qed.

(** X4. Removing twice is removing once: the second [remove] of the
    same file and line finds nothing, answers 'No breakpoint found'
    with count 0, and leaves the store as the first one left it. *)
Theorem remove_twice (store : Store) (args : Args) (f : string) (l : Z) :
  action args = "remove" ->
  file args = Some f -> f <> "" ->
  line args = Some l -> l <> 0%Z ->
  distinct_ids store ->
  let once := snd (handleBreakpoints openTextDocument store args) in
  handleBreakpoints openTextDocument once args =
  (Ok (RemoveResponse
         ("No breakpoint found at " ++ f ++ ":" ++ string_of_Z l) 0),
   once).
Proof.
  intros Ha Hf Hfne Hl Hlne Hnd once.
  destruct (remove_eval store args f l Ha Hf Hfne Hl Hlne Hnd)
    as [m1 [Heq1 _]].
  assert (Honce : once = filter (fun bp => negb (remove_matches f l bp)) store)
    by (subst once; now rewrite Heq1).
  assert (Hnd' : distinct_ids once)
    by (apply handleBreakpoints_distinct_ids; assumption).
  destruct (remove_eval once args f l Ha Hf Hfne Hl Hlne Hnd')
    as [m2 [Heq2 Hmsg]].
  assert (Hnone : filter (remove_matches f l) once = [])
    by (rewrite Honce; apply filter_negb_twice).
  rewrite Heq2, Hnone, (Hmsg Hnone). simpl.
  now rewrite (filter_none _ _ Hnone).
Qed.

(** X5. [list] shows every source breakpoint of the store, and nothing
    else, with its 0-based line turned into a 1-based one; its count is
    the number of entries. After a [remove] of a file and a line below
    2^53, no entry of [list] has that file and that line. *)
Theorem list_after_remove (store : Store) (args list_args : Args)
    (f : string) (l : Z) :
  action args = "remove" -> action list_args = "list" ->
  file args = Some f -> f <> "" ->
  line args = Some l -> l <> 0%Z -> (Z.abs l < exact_limit)%Z ->
  distinct_ids store ->
  let after := snd (handleBreakpoints openTextDocument store args) in
  exists entries,
    fst (handleBreakpoints openTextDocument after list_args)
      = Ok (ListResponse entries (List.length entries)) /\
    List.length entries <= List.length store /\
    (forall e, In e entries -> ~ (l_file e = f /\ l_line e = l)) /\
    (forall e, In e entries <->
       exists bp sb, In bp after /\ kind bp = IsSource sb /\
         e = {| l_file := fsPath sb;
                l_line := number_add (start_line sb) 1;
                l_enabled := enabled sb; l_condition := condition sb;
                l_hitCondition := hitCondition sb;
                l_logMessage := logMessage sb |}).
Proof.
  intros Ha Hla Hf Hfne Hl Hlne Hsafe Hnd after.
  destruct (remove_eval store args f l Ha Hf Hfne Hl Hlne Hnd)
    as [m [Heq _]].
  assert (Hafter : after = filter (fun bp => negb (remove_matches f l bp)) store)
    by (subst after; now rewrite Heq).
  exists (list_source after).
  split; [unfold handleBreakpoints; rewrite Hla; reflexivity|].
  assert (Hchar : forall e, In e (list_source after) <->
       exists bp sb, In bp after /\ kind bp = IsSource sb /\
         e = {| l_file := fsPath sb;
                l_line := number_add (start_line sb) 1;
                l_enabled := enabled sb; l_condition := condition sb;
                l_hitCondition := hitCondition sb;
                l_logMessage := logMessage sb |}).
  { intros e. rewrite list_source_entry. unfold listed_of. split.
    - intros [bp [Hin Hk]]. destruct (kind bp) as [sb|] eqn:K; [|discriminate].
      exists bp, sb. inversion Hk. auto.
    - intros [bp [sb [Hin [K ->]]]]. exists bp. rewrite K. auto. }
  split; [|split; [|exact Hchar]].
  - etransitivity; [apply list_source_length|].
    rewrite Hafter. apply filter_length_le.
  - intros e He [Hfile Hline]. apply Hchar in He.
    destruct He as [bp [sb [Hin [K ->]]]]. cbn [l_file l_line] in *.
    rewrite Hafter in Hin. apply filter_In in Hin. destruct Hin as [_ Hm].
    apply negb_true_iff in Hm.
    assert (Ht : remove_matches f l bp = true).
    { apply remove_matches_spec. exists sb. repeat split; auto.
      apply number_add_inv in Hline; [|assumption].
      rewrite number_sub_exact by lia. lia. }
    congruence.
Qed.

End WithHost.

Lemma failure_leaves_store_witness :
  snd (handleBreakpoints open_as_given sample_store (sample_args "set" (Some (-2)%Z)))
  = sample_store.
Proof.
  exact (proj1 (failure_leaves_store open_as_given sample_store
                  (sample_args "set" (Some (-2)%Z)))
           "Illegal argument: line must be non-negative" eq_refl).
Defined.

Lemma set_then_remove_witness :
  snd (handleBreakpoints open_as_given
         (snd (handleBreakpoints open_as_given sample_store
                 (sample_args "set" (Some 5%Z))))
         (sample_args "remove" (Some 5%Z)))
  = sample_store.
Proof.
  exact (proj2 (proj2 (set_then_remove open_as_given sample_store
                         (sample_args "set" (Some 5%Z))
                         (sample_args "remove" (Some 5%Z))
                         "/w/a.js" "/w/a.js" 5
                         eq_refl eq_refl eq_refl ltac:(discriminate)
                         eq_refl eq_refl ltac:(discriminate)
                         eq_refl eq_refl ltac:(lia)
                         sample_store_distinct))
           eq_refl).
Defined.

Lemma remove_twice_witness :
  handleBreakpoints open_as_given
    (snd (handleBreakpoints open_as_given sample_store
            (sample_args "remove" (Some 3%Z))))
    (sample_args "remove" (Some 3%Z))
  = (Ok (RemoveResponse "No breakpoint found at /w/a.js:3" 0),
     snd (handleBreakpoints open_as_given sample_store
            (sample_args "remove" (Some 3%Z)))).
Proof.
  exact (remove_twice open_as_given sample_store
           (sample_args "remove" (Some 3%Z)) "/w/a.js" 3
           eq_refl eq_refl ltac:(discriminate) eq_refl ltac:(lia)
           sample_store_distinct).
Defined.

Lemma list_after_remove_witness :
  exists entries,
    fst (handleBreakpoints open_as_given
           (snd (handleBreakpoints open_as_given sample_store
                   (sample_args "remove" (Some 3%Z))))
           (sample_args "list" None))
      = Ok (ListResponse entries (List.length entries)) /\
    List.length entries <= List.length sample_store.
Proof.
  assert (Hsafe : (Z.abs 3 < exact_limit)%Z) by reflexivity.
  destruct (list_after_remove open_as_given sample_store
              (sample_args "remove" (Some 3%Z)) (sample_args "list" None)
              "/w/a.js" 3 eq_refl eq_refl eq_refl ltac:(discriminate)
              eq_refl ltac:(lia) Hsafe sample_store_distinct)
    as [entries [H1 [H2 _]]].
  exists entries. split; assumption.
Defined.

End BreakpointsMore.

(** ** More on the race *)

Module ExecutorMore.
Import Executor ExecutorProps ExecutorMoreProps ExecutorFacts.

Lemma step_foreign (session : Session) (fallback : option Z)
    (st : Pending) (ev : Event) :
  foreign session ev = true -> step session fallback st ev = (st, []).
Proof.
  destruct ev as [s body|s| | |]; simpl; try discriminate;
    intros H; apply negb_true_iff in H; rewrite H;
    repeat match goal with
           | |- context [if ?c then _ else _] => destruct c
           end; reflexivity.
Qed.

Lemma run_without_foreign (session : Session) (fallback : option Z)
    (events : list Event) (st : Pending) :
  run session fallback st events =
  run session fallback st
    (filter (fun ev => negb (foreign session ev)) events).
Proof.
  revert st. induction events as [|ev rest IH]; intros st; [reflexivity|].
  cbn [filter]. destruct (foreign session ev) eqn:E; cbn [negb].
  - cbn [run]. rewrite (step_foreign _ _ _ _ E). rewrite IH.
    destruct (run session fallback st _). reflexivity.
  - cbn [run]. destruct (step session fallback st ev) as [st1 e1].
    now rewrite IH.
Qed.

(** X15. Stops and terminations of other sessions are invisible to
    [executeAndWaitForStop]: it ends in the same state, resolves the
    same and sends the same stack queries as if they had not happened;
    on their own they resolve nothing, cancel nothing and query
    nothing. *)
Theorem other_sessions_are_ignored (session : Session)
    (fallback : option Z) (events : list Event) :
  executeAndWaitForStop session fallback events =
  executeAndWaitForStop session fallback
    (filter (fun ev => negb (foreign session ev)) events) /\
  (forallb (foreign session) events = true ->
   executeAndWaitForStop session fallback events = (start, [])).
Proof.
  unfold executeAndWaitForStop. split; [apply run_without_foreign|].
  intros H. rewrite run_without_foreign.
  assert (Hnil : filter (fun ev => negb (foreign session ev)) events = []).
  { induction events as [|ev rest IH]; [reflexivity|].
    simpl in H. apply andb_true_iff in H. destruct H as [H1 H2].
    simpl. rewrite H1. simpl. now apply IH. }
  now rewrite Hnil.
Qed.

Lemma launch_first_to_fire (events : list Event) :
  Forall launch_quiet events \/
  exists pre ev post,
    events = pre ++ ev :: post /\ Forall launch_quiet pre /\
    launch_fires ev = true.
Proof.
  induction events as [|ev rest IH]; [left; constructor|].
  destruct (launch_fires ev) eqn:E.
  - right. exists [], ev, rest. repeat split; auto.
  - assert (Hq : launch_quiet ev) by (destruct ev; try discriminate; exact I).
    destruct IH as [IH | [pre [ev' [post [-> [Hpre Hf]]]]]].
    + left. now constructor.
    + right. exists (ev :: pre), ev', post. repeat split; auto.
Qed.

Lemma launch_outcomes_after (ev : Event) (post : list Event) :
  launch_fires ev = true ->
  List.length (outcomes (snd (launch_run start (ev :: post)))) <= 1 /\
  cancelled (fst (launch_step start ev)).
Proof.
  intros Hf. cbn [launch_run].
  destruct ev as [s body| s | | m | r]; try discriminate; simpl.
  - destruct (body_threadId body) as [t|].
    + rewrite launch_run_waiting. destruct (first_reply post); simpl;
        repeat split; lia.
    + rewrite launch_run_done. simpl. repeat split; lia.
  - rewrite launch_run_done. simpl. repeat split; lia.
  - rewrite launch_run_done. simpl. repeat split; lia.
  - rewrite launch_run_done. simpl. repeat split; lia.
Qed.

(** X16. [waitForLaunchResult] resolves at most once, whatever events
    arrive. The first stop, termination, timer or failure of
    [startDebugging] cancels all three listeners; the timer coming
    first answers 'Debug session started (program is running)', and a
    failure of [startDebugging] coming first answers 'Failed to start
    debug session: ' and the error, whatever follows. *)
Theorem launch_settles_once (events : list Event) :
  let outs := outcomes (snd (waitForLaunchResult events)) in
  let only message :=
    {| lr_message := message; lr_reason := None; lr_state := None;
       lr_description := None; lr_exceptionText := None |} in
  List.length outs <= 1 /\
  forall pre ev post,
    events = pre ++ ev :: post -> Forall launch_quiet pre ->
    launch_fires ev = true ->
    cancelled (fst (waitForLaunchResult (pre ++ [ev]))) /\
    (ev = EvTimeout ->
     outs = [only "Debug session started (program is running)"]) /\
    (forall message,
       ev = EvActionThrew message ->
       outs = [only ("Failed to start debug session: " ++ message)%string]).
Proof.
  intros outs only. subst outs only. unfold waitForLaunchResult. split.
  - destruct (launch_first_to_fire events)
      as [Hq | [pre [ev [post [-> [Hq Hf]]]]]].
    + rewrite (launch_run_quiet _ Hq). simpl. lia.
    + rewrite launch_run_app, (launch_run_quiet _ Hq). cbn [fst snd app].
      apply (launch_outcomes_after ev post Hf).
  - intros pre ev post -> Hq Hf.
    rewrite !launch_run_app, (launch_run_quiet _ Hq). cbn [fst snd app].
    split; [|split].
    + cbn [launch_run]. destruct (launch_step start ev) eqn:E. simpl.
      pose proof (proj2 (launch_outcomes_after ev [] Hf)) as Hc.
      now rewrite E in Hc.
    + intros ->. cbn [launch_run launch_step]. simpl.
      now rewrite launch_run_done.
    + intros message ->. cbn [launch_run launch_step]. simpl.
      now rewrite launch_run_done.
Qed.

Lemma other_sessions_are_ignored_witness :
  executeAndWaitForStop 1 None
    [EvStopped 2 breakpoint_hit; EvTerminated 3; EvStopped 4 None]
  = (start, []).
Proof.
  exact (proj2 (other_sessions_are_ignored 1 None
                  [EvStopped 2 breakpoint_hit; EvTerminated 3; EvStopped 4 None])
           eq_refl).
Defined.

Lemma launch_settles_once_witness :
  outcomes (snd (waitForLaunchResult
                   [EvActionThrew "no such program"; EvTimeout]))
  = [ {| lr_message := "Failed to start debug session: no such program";
         lr_reason := None; lr_state := None; lr_description := None;
         lr_exceptionText := None |} ].
Proof.
  exact (proj2 (proj2 (proj2 (launch_settles_once _)
                        [] (EvActionThrew "no such program") [EvTimeout]
                        eq_refl (Forall_nil _) eq_refl))
           "no such program" eq_refl).
Defined.

End ExecutorMore.

(** ** The port registry, from the extension that writes it to the bridge
       that reads it *)

Module RegistryFacts.
Import Bridge BridgeProps BridgeFacts Registry.


Lemma filter_twice {A : Type} (p q : A -> bool) (l : list A) :
  filter p (filter q l) = filter (fun x => p x && q x) l.
Proof.
  induction l as [|x l IH]; simpl; [reflexivity|].
  destruct (q x); simpl.
  - rewrite andb_true_r. destruct (p x); now rewrite IH.
  - now rewrite andb_false_r.
Qed.


Lemma obj_set_from (key : string) (value : RegistryValue) (r : Entries)
    (k : string) (v : RegistryValue) :
  In (k, v) (obj_set key value r) -> (k, v) = (key, value) \/ In (k, v) r.
Proof.
  induction r as [|[k0 v0] rest IH]; simpl.
  - intros [H | []]. left. congruence.
  - destruct (k0 =? key) eqn:E; simpl.
    + apply String.eqb_eq in E. subst.
      intros [H | H]; [left; congruence | right; now right].
    + intros [H | H]; [right; now left|].
      destruct (IH H) as [H' | H']; [now left | right; now right].
Qed.

Lemma obj_set_other (key : string) (value : RegistryValue) (r : Entries)
    (k : string) (v : RegistryValue) :
  k <> key -> In (k, v) r -> In (k, v) (obj_set key value r).
Proof.
  intros Hne. induction r as [|[k0 v0] rest IH]; simpl; [contradiction|].
  destruct (k0 =? key) eqn:E.
  - apply String.eqb_eq in E. subst.
    intros [H | H]; [inversion H; subst; contradiction | now right].
  - intros [H | H]; [now left | right; now apply IH].
Qed.

Lemma obj_set_keys (key : string) (value : RegistryValue) (r : Entries) :
  map fst (obj_set key value r) =
  if existsb (fun k => k =? key) (map fst r) then map fst r
  else map fst r ++ [key].
Proof.
  induction r as [|[k v] rest IH]; simpl; [reflexivity|].
  destruct (k =? key) eqn:E; simpl; [reflexivity|].
  rewrite IH. now destruct (existsb _ (map fst rest)).
Qed.

Lemma obj_set_NoDup (key : string) (value : RegistryValue) (r : Entries) :
  NoDup (map fst r) -> NoDup (map fst (obj_set key value r)).
Proof.
  intros Hnd. rewrite obj_set_keys.
  destruct (existsb (fun k => k =? key) (map fst r)) eqn:E; [assumption|].
  apply NoDup_app; [assumption | repeat constructor; auto |].
  intros k Hk [Heq | []]. subst k.
  assert (Ht : existsb (fun k' => k' =? key) (map fst r) = true).
  { apply existsb_exists. exists key. split; [assumption | apply String.eqb_refl]. }
  congruence.
Qed.

Section Folders.
Variable strict : bool.
Variable sep : string.
Variable folders : list string.

Lemma registered_NoDup (port : Z) (r : Entries) :
  NoDup (map fst r) -> NoDup (map fst (registered folders port r)).
Proof.
  unfold registered. revert r.
  induction folders as [|g gs IH]; intros r H; simpl; [assumption|].
  apply IH. now apply obj_set_NoDup.
Qed.


Lemma registered_from (port : Z) (r : Entries)
    (k : string) (v : RegistryValue) :
  In (k, v) (registered folders port r) ->
  (In k folders /\ v = Port port) \/ In (k, v) r.
Proof.
  unfold registered. revert r.
  induction folders as [|g gs IH]; intros r H; simpl in H; [now right|].
  destruct (IH _ H) as [[Hk Hv] | H'].
  - left. split; [now right | assumption].
  - destruct (obj_set_from _ _ _ _ _ H') as [Heq | Hold]; [|now right].
    inversion Heq; subst. left. split; [now left | reflexivity].
Qed.

Lemma registered_keeps (port : Z) (r : Entries)
    (k : string) (v : RegistryValue) :
  ~ In k folders -> In (k, v) r -> In (k, v) (registered folders port r).
Proof.
  unfold registered. revert r.
  induction folders as [|g gs IH]; intros r Hk H; simpl; [assumption|].
  apply IH; [intros Hc; apply Hk; now right|].
  apply obj_set_other; [|assumption].
  intros ->. apply Hk. now left.
Qed.

Lemma unregistered_filter (r : Entries) :
  unregistered folders r = filter (kept folders) r.
Proof.
  unfold unregistered, kept. revert r.
  induction folders as [|g gs IH]; intros r; simpl.
  - symmetry. apply forallb_filter_id. now apply forallb_forall.
  - rewrite IH. unfold obj_delete. rewrite filter_twice.
    apply filter_ext. intros [k v]. simpl.
    destruct (k =? g); simpl; [now rewrite andb_false_r|].
    now rewrite andb_true_r.
Qed.

Lemma kept_obj_set (g : string) (value : RegistryValue) (r : Entries) :
  In g folders ->
  filter (kept folders) (obj_set g value r) = filter (kept folders) r.
Proof.
  intros Hg.
  assert (Hdrop : forall v, kept folders (g, v) = false).
  { intros v. unfold kept. simpl. apply negb_false_iff, existsb_exists.
    exists g. split; [assumption | apply String.eqb_refl]. }
  induction r as [|[k v] rest IH]; simpl.
  - now rewrite Hdrop.
  - destruct (k =? g) eqn:E; simpl.
    + apply String.eqb_eq in E. subst. now rewrite !Hdrop.
    + now rewrite IH.
Qed.

Lemma kept_registered (port : Z) (r : Entries) :
  filter (kept folders) (registered folders port r) = filter (kept folders) r.
Proof.
  unfold registered.
  assert (H : forall gs, incl gs folders -> forall r0,
            filter (kept folders) (fold_left (fun r1 g => obj_set g (Port port) r1) gs r0)
            = filter (kept folders) r0).
  { induction gs as [|g gs IH]; intros Hincl r0; simpl; [reflexivity|].
    rewrite IH; [|intros x Hx; apply Hincl; now right].
    apply kept_obj_set. apply Hincl. now left. }
  apply H. apply incl_refl.
Qed.




Lemma kept_In (k : string) (v : RegistryValue) :
  kept folders (k, v) = true <-> ~ In k folders.
Proof.
  unfold kept. cbn [fst]. rewrite negb_true_iff. split.
  - intros H Hk.
    assert (Ht : existsb (fun g => k =? g) folders = true).
    { apply existsb_exists. exists k.
      split; [assumption | apply String.eqb_refl]. }
    congruence.
  - intros H. destruct (existsb (fun g => k =? g) folders) eqn:E;
      [|reflexivity].
    apply existsb_exists in E. destruct E as [g [Hg He]].
    apply String.eqb_eq in He. subst. contradiction.
Qed.

(** What the two calls leave in the file, one after the other. *)
Lemma register_unregister_eval (port : Z) (file : PortConfig) :
  fst (unregisterWorkspacePorts folders (Ok tt)
         (fst (registerWorkspacePorts strict folders port (Ok tt) file)))
  = match readPortRegistry file with
    | Object r => Holds (Object (filter (kept folders) r))
    | other => Holds other
    end.
Proof.
  unfold registerWorkspacePorts, unregisterWorkspacePorts.
  destruct file as [| |[r|items| |type text]];
    cbn [readPortRegistry assign_all delete_all writePortRegistry fst];
    try (now rewrite unregistered_filter, kept_registered).
  - reflexivity.
  - destruct folders; reflexivity.
  - destruct folders; [reflexivity|]. destruct strict; reflexivity.
Qed.

(** X7. Unregistering after registering leaves the registry without the
    folders of this window and with every other entry as it was, in
    order; a registry that did not list these folders before is back
    exactly as it was, and so is a file that holds no JSON object. *)
Theorem register_then_unregister (port : Z) (file : PortConfig) :
  let written :=
    fst (registerWorkspacePorts strict folders port (Ok tt) file) in
  let cleared := fst (unregisterWorkspacePorts folders (Ok tt) written) in
  cleared = match readPortRegistry file with
            | Object r => Holds (Object (filter (kept folders) r))
            | other => Holds other
            end /\
  (forall k v, In (k, v) (own_entries cleared) <->
               In (k, v) (own_entries file) /\ ~ In k folders) /\
  ((forall g, In g folders -> ~ In g (map fst (own_entries file))) ->
   cleared = Holds (readPortRegistry file)).
Proof.
  intros written cleared.
  assert (Hc : cleared = match readPortRegistry file with
                         | Object r => Holds (Object (filter (kept folders) r))
                         | other => Holds other
                         end)
    by (subst cleared written; apply register_unregister_eval).
  split; [exact Hc|]. split.
  - intros k v. rewrite Hc. unfold own_entries.
    destruct (readPortRegistry file) as [r|items| |type text];
      cbn [readPortRegistry]; try tauto.
    rewrite filter_In, kept_In. tauto.
  - intros Hfresh. rewrite Hc. unfold own_entries in Hfresh.
    destruct (readPortRegistry file) as [r|items| |type text];
      try reflexivity.
    do 2 f_equal.
    apply forallb_filter_id, forallb_forall. intros [k v] Hin.
    apply kept_In. intros Hk. apply (Hfresh k Hk).
    change k with (fst (k, v)). now apply in_map.
Qed.

End Folders.

Lemma longest_match (sep cwd : string) (r : Entries) :
  (exists k p, In (k, Port p) r /\ k <> "" /\ under sep cwd k = true) ->
  exists k p,
    In (k, Port p) r /\ k <> "" /\ under sep cwd k = true /\
    forall k' p', In (k', Port p') r -> under sep cwd k' = true ->
                  String.length k' <= String.length k.
Proof.
  induction r as [|[k0 v0] rest IH]; intros [k [p [Hin [Hne Hu]]]];
    [contradiction|].
  assert (Hrest : (exists k p, In (k, Port p) rest /\ k <> ""
                               /\ under sep cwd k = true) \/
                  ~ (exists k p, In (k, Port p) rest /\ k <> ""
                                 /\ under sep cwd k = true)).
  { clear. induction rest as [|[k v] rest IH].
    - right. intros [k [p [[] _]]].
    - destruct IH as [[k' [p' [H1 [H2 H3]]]] | IH].
      + left. exists k', p'. repeat split; auto. now right.
      + destruct v as [p|].
        * destruct (under sep cwd k) eqn:Hu.
          -- destruct (String.eqb_spec k "") as [->|Hne].
             ++ right. intros [k' [p' [[Heq|Hin] [Hne' Hu']]]].
                ** inversion Heq; subst. contradiction.
                ** apply IH. eauto.
             ++ left. exists k, p. repeat split; auto. now left.
          -- right. intros [k' [p' [[Heq|Hin] [Hne' Hu']]]].
             ++ inversion Heq; subst. congruence.
             ++ apply IH. eauto.
        * right. intros [k' [p' [[Heq|Hin] [Hne' Hu']]]].
          -- inversion Heq.
          -- apply IH. eauto. }
  destruct Hrest as [Hsome | Hnone].
  - destruct (IH Hsome) as [k1 [p1 [Hin1 [Hne1 [Hu1 Hmax1]]]]].
    destruct v0 as [p0|].
    + destruct (under sep cwd k0) eqn:Hu0.
      * destruct (le_lt_dec (String.length k0) (String.length k1)) as [Hle|Hlt].
        -- exists k1, p1. repeat split; auto; [now right|].
           intros k' p' [Heq|Hin'] Hu'; [inversion Heq; subst; assumption|].
           eauto.
        -- exists k0, p0. repeat split; auto; [now left | |].
           ++ intros ->. simpl in Hlt. lia.
           ++ intros k' p' [Heq|Hin'] Hu'; [inversion Heq; subst; lia|].
              specialize (Hmax1 k' p' Hin' Hu'). lia.
      * exists k1, p1. repeat split; auto; [now right|].
        intros k' p' [Heq|Hin'] Hu'; [inversion Heq; subst; congruence|].
        eauto.
    + exists k1, p1. repeat split; auto; [now right|].
      intros k' p' [Heq|Hin'] Hu'; [inversion Heq|]. eauto.
  - destruct Hin as [Heq | Hin]; [|exfalso; apply Hnone; eauto].
    inversion Heq; subst. exists k, p. repeat split; auto; [now left|].
    intros k' p' [Heq'|Hin'] Hu'; [inversion Heq'; subst; lia|].
    destruct (String.eqb_spec k' "") as [->|Hne']; [simpl; lia|].
    exfalso. apply Hnone. eauto.
Qed.

Lemma lookup_longest (sep cwd : string) (r : Entries) (k : string) (p : Z) :
  NoDup (map fst r) ->
  In (k, Port p) r -> k <> "" -> under sep cwd k = true ->
  (forall k' p', In (k', Port p') r -> under sep cwd k' = true ->
                 String.length k' <= String.length k) ->
  getPortFromConfig sep cwd (Registry r) = p.
Proof.
  intros Hnd Hin Hne Hu Hmax. unfold getPortFromConfig.
  rewrite (scan_finds sep cwd r "" None k p Hnd Hin Hu); auto.
  destruct k; [contradiction | simpl; lia].
Qed.

(** X8. What another window registers or unregisters does not change the
    port a bridge finds, as long as the working directory of the bridge
    is a registered root, or continues one after the separator, and does
    so with none of the other window's folders. (A root that ends in the
    separator, as [/] does, is continued by no directory.) *)
Theorem other_window_does_not_interfere (strict : bool) (sep cwd : string)
    (folders : list string) (port : Z) (registry : Entries) :
  NoDup (map fst registry) ->
  (exists k p, In (k, Port p) registry /\ k <> "" /\ at_or_below sep cwd k) ->
  (forall g, In g folders -> ~ at_or_below sep cwd g) ->
  let before := getPortFromConfig sep cwd (Registry registry) in
  getPortFromConfig sep cwd
    (as_bridge_sees
       (fst (registerWorkspacePorts strict folders port (Ok tt)
               (Holds (Object registry)))))
    = before /\
  getPortFromConfig sep cwd
    (as_bridge_sees
       (fst (unregisterWorkspacePorts folders (Ok tt)
               (Holds (Object registry)))))
    = before.
Proof.
  intros Hnd Hex Hout before.
  assert (Hex' : exists k p, In (k, Port p) registry /\ k <> ""
                             /\ under sep cwd k = true).
  { destruct Hex as [k [p [H1 [H2 H3]]]]. exists k, p.
    repeat split; auto. now apply under_spec. }
  assert (Hout' : forall g, In g folders -> under sep cwd g = false)
    by (intros g Hg; apply under_false; auto).
  destruct (longest_match sep cwd registry Hex')
    as [k [p [Hin [Hne [Hu Hmax]]]]].
  assert (Hb : before = p)
    by (subst before; now apply (lookup_longest sep cwd registry k p)).
  assert (Hk : ~ In k folders)
    by (intros Hc; rewrite (Hout' k Hc) in Hu; discriminate).
  rewrite Hb.
  unfold registerWorkspacePorts, unregisterWorkspacePorts.
  cbn [readPortRegistry assign_all delete_all writePortRegistry fst
       as_bridge_sees].
  split.
  - apply (lookup_longest sep cwd _ k p); auto.
    + now apply registered_NoDup.
    + now apply registered_keeps.
    + intros k' p' Hin' Hu'.
      destruct (registered_from _ _ _ _ _ Hin') as [[Hg _] | Hold]; eauto.
      rewrite (Hout' k' Hg) in Hu'. discriminate.
  - rewrite unregistered_filter.
    apply (lookup_longest sep cwd _ k p); auto.
    + clear -Hnd. induction registry as [|[k0 v0] rest IH]; simpl; [constructor|].
      simpl in Hnd. inversion Hnd as [|? ? Hx Hr]; subst.
      destruct (kept folders (k0, v0)); simpl; [|auto].
      constructor; [|auto]. intros Hc. apply Hx.
      apply in_map_iff in Hc. destruct Hc as [[k1 v1] [Heq Hin1]].
      apply filter_In in Hin1. simpl in Heq. subst.
      change k0 with (fst (k0, v1)). apply in_map. tauto.
    + apply filter_In. split; [assumption|]. now apply kept_In.
    + intros k' p' Hin' Hu'. apply filter_In in Hin'. destruct Hin'. eauto.
Qed.

(** X9. When the working directory is a registered root, or continues
    one after the separator, the port found does not depend on the
    order of the entries in the file. *)
Theorem lookup_order_irrelevant (sep cwd : string) (registry shuffled : Entries) :
  Permutation registry shuffled ->
  NoDup (map fst registry) ->
  (exists k p, In (k, Port p) registry /\ k <> "" /\ at_or_below sep cwd k) ->
  getPortFromConfig sep cwd (Registry shuffled)
    = getPortFromConfig sep cwd (Registry registry).
Proof.
  intros Hperm Hnd Hex.
  assert (Hex' : exists k p, In (k, Port p) registry /\ k <> ""
                             /\ under sep cwd k = true).
  { destruct Hex as [k [p [H1 [H2 H3]]]]. exists k, p.
    repeat split; auto. now apply under_spec. }
  destruct (longest_match sep cwd registry Hex')
    as [k [p [Hin [Hne [Hu Hmax]]]]].
  rewrite (lookup_longest sep cwd registry k p); auto.
  apply (lookup_longest sep cwd shuffled k p); auto.
  - apply (Permutation_NoDup (Permutation_map fst Hperm) Hnd).
  - now apply (Permutation_in _ Hperm).
  - intros k' p' Hin' Hu'. apply (Hmax k' p'); [|assumption].
    now apply (Permutation_in _ (Permutation_sym Hperm)).
Qed.

Lemma scan_from (sep cwd : string) (entries : Entries)
    (bestMatch : string) (bestPort : option Z) (p : Z) :
  snd (scan sep cwd entries bestMatch bestPort) = Some p ->
  bestPort = Some p \/ exists k, In (k, Port p) entries.
Proof.
  revert bestMatch bestPort.
  induction entries as [|[k v] rest IH]; intros bm bp H; simpl in H; [now left|].
  assert (Hstep : forall bm' bp',
    snd (scan sep cwd rest bm' bp') = Some p ->
    bp' = Some p \/ exists k0, In (k0, Port p) ((k, v) :: rest)).
  { intros bm' bp' H'. destruct (IH _ _ H') as [-> | [k0 Hk0]]; [now left|].
    right. exists k0. now right. }
  destruct v as [q|]; [|now apply (Hstep bm bp)].
  destruct (under sep cwd k); [|now apply (Hstep bm bp)].
  destruct (String.length bm <? String.length k)%nat; [|now apply (Hstep bm bp)].
  destruct (Hstep _ _ H) as [Heq | Hex]; [|now right].
  inversion Heq; subst. right. exists k. now left.
Qed.

(** X10. The bridge never makes a port up: the port it returns is 4711
    or a port that stands in the registry. *)
Theorem lookup_port_is_registered (sep cwd : string) (config : ConfigFile) :
  getPortFromConfig sep cwd config = 4711%Z \/
  exists registry k,
    config = Registry registry /\
    In (k, Port (getPortFromConfig sep cwd config)) registry.
Proof.
  destruct config as [| |registry]; [now left | now left|].
  unfold getPortFromConfig.
  destruct (snd (scan sep cwd registry "" None)) as [p|] eqn:E.
  - destruct (scan_from _ _ _ _ _ _ E) as [H | [k Hk]]; [discriminate|].
    right. exists registry, k. auto.
  - destruct (ports registry) as [|p rest] eqn:Hp; [now left|].
    right. destruct (ports_In registry p) as [k Hk]; [rewrite Hp; now left|].
    exists registry, k. auto.
Qed.

(** X11. A file in the earlier layout, one [port] for all windows, is
    still understood: the bridge returns that port from whatever working
    directory, as the earlier bridge did. *)
Theorem single_port_layout_still_read (sep cwd : string) (configured : option Z) :
  getPortFromConfig sep cwd (single_port_config configured)
    = match configured with Some p => p | None => 4711%Z end /\
  single_port_lookup (single_port_config configured)
    = getPortFromConfig sep cwd (single_port_config configured).
Proof.
  unfold getPortFromConfig, single_port_config, single_port_lookup. simpl.
  destruct (under sep cwd "port"); simpl; split; reflexivity.
Qed.

Lemma two_windows_distinct : NoDup (map fst two_windows).
Proof. simpl. repeat constructor; simpl; intuition discriminate. Qed.


Lemma register_then_unregister_witness :
  fst (unregisterWorkspacePorts ["/home/u/cli"] (Ok tt)
         (fst (registerWorkspacePorts true ["/home/u/cli"] 4713 (Ok tt)
                 (Holds (Object two_windows)))))
  = Holds (Object two_windows).
Proof.
  apply (proj2 (proj2 (register_then_unregister true ["/home/u/cli"] 4713
                         (Holds (Object two_windows))))).
  intros g [Hg | []] H. subst g. simpl in H.
  destruct H as [H | [H | []]]; discriminate H.
Defined.

Lemma below_api : at_or_below "/" "/home/u/api/src" "/home/u/api".
Proof. right. exists "src". reflexivity. Qed.

Lemma other_window_does_not_interfere_witness :
  getPortFromConfig "/" "/home/u/api/src"
    (as_bridge_sees
       (fst (registerWorkspacePorts true ["/home/u/cli"] 4713 (Ok tt)
               (Holds (Object two_windows)))))
  = getPortFromConfig "/" "/home/u/api/src" (Registry two_windows).
Proof.
  assert (Hex : exists k p,
             In (k, Port p) two_windows /\ k <> ""
             /\ at_or_below "/" "/home/u/api/src" k).
  { exists "/home/u/api", 4711%Z.
    split; [now left|]. split; [discriminate | exact below_api]. }
  assert (Hout : forall g, In g ["/home/u/cli"] ->
                           ~ at_or_below "/" "/home/u/api/src" g).
  { intros g [Hg | []]. subst g. apply under_false. reflexivity. }
  pose proof (other_window_does_not_interfere true "/" "/home/u/api/src"
                ["/home/u/cli"] 4713 two_windows two_windows_distinct
                Hex Hout) as H.
  exact (proj1 H).
Defined.

Lemma lookup_order_irrelevant_witness :
  getPortFromConfig "/" "/home/u/api/src"
    (Registry [("/home/u/web", Port 4712); ("/home/u/api", Port 4711)])
  = getPortFromConfig "/" "/home/u/api/src" (Registry two_windows).
Proof.
  apply lookup_order_irrelevant.
  - apply perm_swap.
  - exact two_windows_distinct.
  - exists "/home/u/api", 4711%Z.
    split; [now left|]. split; [discriminate | exact below_api].
Defined.

End RegistryFacts.

(** ** Binding a port, and telling the bridge which *)

Module ServerFacts.
Import Bridge Registry Server RegistryFacts.

Lemma attempts_fields (listen : Z -> Listen) (remaining : nat) (attempt : Z)
    (s : DebugServer) :
  server (snd (attempts listen remaining attempt s)) = server s.
Proof.
  revert attempt. induction remaining as [|n IH]; intros attempt; simpl;
    [reflexivity|].
  destruct (listen (port s + attempt)%Z) as [|code message]; [reflexivity|].
  destruct ((code =? "EADDRINUSE") && _); [apply IH | reflexivity].
Qed.

(** The loop, started at [attempt] with the iterations that are left up
    to the tenth. *)
Lemma attempts_spec (listen : Z -> Listen) (s : DebugServer) (n : nat)
    (attempt : Z) :
  (attempt + Z.of_nat (S n) = 10)%Z -> (0 <= attempt)%Z ->
  (forall j, (0 <= j < attempt)%Z -> in_use listen (port s + j)) ->
  match attempts listen (S n) attempt s with
  | (Ok _, s') =>
      exists i, (0 <= i < 10)%Z /\
        port s' = (port s + i)%Z /\
        listen (port s + i)%Z = Listening /\
        isRunning s' = true /\
        forall j, (0 <= j < i)%Z -> in_use listen (port s + j)
  | (Throw message, s') =>
      s' = s /\
      exists i code, (0 <= i < 10)%Z /\
        listen (port s + i)%Z = ListenError code message /\
        (code <> "EADDRINUSE" \/ i = 9%Z) /\
        forall j, (0 <= j < i)%Z -> in_use listen (port s + j)
  end.
Proof.
  revert attempt. induction n as [|n IH]; intros attempt Hsum Hpos Hbelow.
  - assert (attempt = 9%Z) by lia. subst attempt. simpl.
    destruct (listen (port s + 9)%Z) as [|code message] eqn:E.
    + exists 9%Z. simpl. repeat split; auto; lia.
    + rewrite andb_false_r. split; [reflexivity|].
      exists 9%Z, code. repeat split; auto; lia.
  - cbn [attempts].
    destruct (listen (port s + attempt)%Z) as [|code message] eqn:E.
    + exists attempt. cbn [port isRunning]. repeat split; auto; lia.
    + assert (Hlt : (attempt <? Z.of_nat maxAttempts - 1)%Z = true)
        by (apply Z.ltb_lt; unfold maxAttempts; lia).
      rewrite Hlt, andb_true_r.
      destruct (code =? "EADDRINUSE") eqn:Hc.
      * apply String.eqb_eq in Hc. subst code.
        apply IH; [lia | lia |].
        intros j Hj. destruct (Z.eq_dec j attempt) as [->|Hne].
        -- exists message. exact E.
        -- apply Hbelow. lia.
      * split; [reflexivity|]. exists attempt, code.
        apply String.eqb_neq in Hc. repeat split; auto; lia.
Qed.


(** X12. [start] binds the first free port among the ten from the
    configured one on: when it succeeds the server runs on a port
    [port + i] with [i < 10] that accepted, and every port before it
    answered [EADDRINUSE]; when it throws, port and running flag are
    unchanged and the error is that of a port [port + i] reached the
    same way, which either failed for another reason than
    [EADDRINUSE] or was the tenth. No port outside these ten is tried. *)
Theorem start_binds_first_free (listen : Z -> Listen) (s : DebugServer) :
  server s = false ->
  match start listen s with
  | (Ok _, s') =>
      exists i, (0 <= i < 10)%Z /\
        port s' = (port s + i)%Z /\
        listen (port s + i)%Z = Listening /\
        isRunning s' = true /\
        forall j, (0 <= j < i)%Z -> in_use listen (port s + j)
  | (Throw message, s') =>
      port s' = port s /\ isRunning s' = isRunning s /\
      exists i code, (0 <= i < 10)%Z /\
        listen (port s + i)%Z = ListenError code message /\
        (code <> "EADDRINUSE" \/ i = 9%Z) /\
        forall j, (0 <= j < i)%Z -> in_use listen (port s + j)
  end.
Proof.
  intros Hs. unfold start. rewrite Hs.
  set (s0 := {| server := true; port := port s; isRunning := isRunning s |}).
  pose proof (attempts_spec listen s0 9 0%Z) as H.
  change maxAttempts with 10. 
  destruct (attempts listen 10 0%Z s0) as [[u|message] s'].
  - apply H; [reflexivity | lia | intros j Hj; lia].
  - destruct H as [-> H]; [reflexivity | lia | intros j Hj; lia |].
    simpl. auto.
Qed.

(** X13. Once [start] has run, whether it bound a port or threw, a
    further [start] throws 'Server is already running' without trying
    any port; only after [stop] does [start] try again. *)
Theorem start_again_needs_stop (listen again : Z -> Listen) (s : DebugServer) :
  server s = false ->
  let after := snd (start listen s) in
  start again after = (Throw "Server is already running", after) /\
  server (stop after) = false /\
  isRunning (stop after) = false /\
  port (stop after) = port after.
Proof.
  intros Hs after.
  assert (Hserver : server after = true).
  { subst after. unfold start. rewrite Hs. now rewrite attempts_fields. }
  unfold start at 1. rewrite Hserver. repeat split.
Qed.


Lemma start_binds_first_free_witness :
  exists i, (0 <= i < 10)%Z /\
    port (snd (start two_taken (create 4711))) = (4711 + i)%Z /\
    two_taken (4711 + i)%Z = Listening /\
    isRunning (snd (start two_taken (create 4711))) = true.
Proof.
  pose proof (start_binds_first_free two_taken (create 4711) eq_refl) as H.
  assert (E : start two_taken (create 4711)
              = (Ok tt, {| server := true; port := 4713; isRunning := true |}))
    by reflexivity.
  rewrite E in H. rewrite E. cbn [snd port isRunning] in *.
  change (port_or_default 4711) with 4711%Z in H.
  destruct H as [i [H1 [H2 [H3 [H4 _]]]]].
  exists i. auto.
Defined.

Lemma start_again_needs_stop_witness :
  start two_taken (snd (start all_taken (create 4711)))
  = (Throw "Server is already running", snd (start all_taken (create 4711))).
Proof.
  exact (proj1 (start_again_needs_stop all_taken two_taken (create 4711)
                  eq_refl)).
Defined.


End ServerFacts.

(** ** [handleExecute]: sessions, configurations, and the answer of a step *)

Module ExecuteMoreFacts.
Import Execute ExecuteProps ExecuteMore.

Lemma find_by_name (configs : list Config) (n : string) :
  In n (map name configs) ->
  exists c, find (fun c => name c =? n) configs = Some c /\ name c = n
            /\ In c configs.
Proof.
  induction configs as [|c rest IH]; simpl; [contradiction|].
  destruct (name c =? n) eqn:E.
  - intros _. exists c. apply String.eqb_eq in E. auto.
  - intros [H | H]; [apply String.eqb_neq in E; contradiction|].
    destruct (IH H) as [c' [H1 [H2 H3]]]. exists c'. auto.
Qed.

Section Launch.
Variable replacePlaceholders : string -> Config -> Config.

(** X17. The names [listConfigurations] lists are, in order, the names
    [launch] works with, and every listed name can be launched: given
    as [configurationName] (when not empty) it selects the first
    configuration of that name, which is started with the workspace
    path substituted, unless a session is already active; it is never
    answered 'not found' nor by the list of names. *)
Theorem listed_configuration_launches (host : Host) (args : Args)
    (message : option string)
    (listed : list ListedConfig) (n : string) :
  handle_listConfigurations host = Ok (message, listed) ->
  map lc_name listed = launch_names host /\
  (In n (map lc_name listed) -> n <> "" ->
   configurationName args = Some n ->
   exists folder c,
     hd_error (workspaceFolders host) = Some folder /\
     find (fun c => name c =? n) (configs_of folder) = Some c /\
     name c = n /\
     handle_launch replacePlaceholders host args =
       match activeDebugSession host with
       | Some _ => LaunchReturns "Debug session already active" None
       | None =>
           LaunchStarts folder (replacePlaceholders (fsPath folder) c)
             (truthy_bool (noDebug args))
       end).
Proof.
  unfold handle_listConfigurations, launch_names, handle_launch.
  destruct (workspaceFolders host) as [|folder others]; [discriminate|].
  destruct (configurations folder) as [configs|] eqn:Hconf; simpl.
  2: { intros H. inversion H; subst. split; [reflexivity|]. contradiction. }
  destruct configs as [|c0 rest].
  - simpl. intros H. inversion H; subst. split; [reflexivity|]. contradiction.
  - cbn [List.length Nat.eqb]. intros H. inversion H; subst. clear H.
    assert (Hnames : map lc_name (map listed_config (c0 :: rest))
                     = map name (c0 :: rest)).
    { rewrite map_map. apply map_ext. reflexivity. }
    split; [exact Hnames|].
    intros Hin Hne Hn.
    change (In n (map lc_name (map listed_config (c0 :: rest)))) in Hin.
    rewrite Hnames in Hin.
    destruct (find_by_name _ _ Hin) as [c [Hfind [Hname _]]].
    exists folder, c.
    split; [reflexivity|].
    split; [unfold configs_of; rewrite Hconf; exact Hfind|].
    split; [exact Hname|].
    rewrite Hn. cbn [truthy_string string_value].
    apply String.eqb_neq in Hne. rewrite Hne. cbn [negb].
    rewrite Hfind. reflexivity.
Qed.

End Launch.

(** X18. A step call answers with what settles the race first, whatever
    comes later: when the session terminates first the message is 'Debug
    session terminated', also when the timer would fire afterwards; when
    the timer fires first it is 'Timed out waiting for program to stop
    (10s)'; when the action fails first it is 'Execution failed: ' and
    the error. Such an answer carries no location. *)
Theorem step_reports_what_fired_first (host : Host) (args : Args)
    (action : StepAction) (session : Session) (executeFn : ExecuteFn)
    (resolved : Z) (pre post : list Executor.Event) :
  handle_step host args action = Ok (session, executeFn, resolved) ->
  Forall (ExecutorProps.quiet session) pre ->
  let only message :=
    Ok (Some {| sr_message := message; sr_reason := None; sr_state := None;
                sr_description := None; sr_exceptionText := None |}) in
  step_call host args action (pre ++ Executor.EvTerminated session :: post)
    = only "Debug session terminated" /\
  step_call host args action (pre ++ Executor.EvTimeout :: post)
    = only "Timed out waiting for program to stop (10s)" /\
  forall e,
    step_call host args action (pre ++ Executor.EvActionThrew e :: post)
      = only ("Execution failed: " ++ e)%string.
Proof.
  intros Hstep Hq only. subst only. unfold step_call. rewrite Hstep.
  unfold Executor.executeAndWaitForStop.
  split; [|split; [|intros e]];
    match goal with
    | |- context [pre ++ ?ev :: post] =>
        assert (Hf : ExecutorProps.fires session ev = true)
          by (simpl; try apply Nat.eqb_refl; reflexivity);
        destruct (ExecutorFacts.run_first_to_fire session (Some resolved)
                    pre ev post Hq Hf) as [_ [Ho _]];
        rewrite Ho
    end; reflexivity.
Qed.


Lemma listed_configuration_launches_witness :
  handle_launch keep_config idle_host (named "Launch Program")
  = LaunchStarts single_config_folder launch_program false.
Proof.
  destruct (proj2 (listed_configuration_launches keep_config idle_host
                     (named "Launch Program") None
                     [listed_config launch_program] "Launch Program"
                     eq_refl)
              (or_introl eq_refl) ltac:(discriminate) eq_refl)
    as [folder [c [Hfolder [Hfind [_ Heq]]]]].
  simpl in Hfolder, Hfind. inversion Hfolder; subst.
  inversion Hfind; subst. exact Heq.
Defined.

Lemma step_reports_what_fired_first_witness :
  step_call stopped_host plain_args Continue
    [Executor.EvStopped 2 None; Executor.EvTerminated 1; Executor.EvTimeout]
  = Ok (Some {| sr_message := "Debug session terminated"; sr_reason := None;
                sr_state := None; sr_description := None;
                sr_exceptionText := None |}).
Proof.
  assert (Hq : Forall (ExecutorProps.quiet 1) [Executor.EvStopped 2 None])
    by (constructor; [reflexivity | constructor]).
  exact (proj1 (step_reports_what_fired_first stopped_host plain_args
                  Continue 1 (ExecuteCommand "workbench.action.debug.continue")
                  7 [Executor.EvStopped 2 None] [Executor.EvTimeout]
                  eq_refl Hq)).
Defined.


End ExecuteMoreFacts.

(** ** [replacePlaceholders] *)

Module PlaceholdersFacts.
Import Placeholders.

(** Induction over a JSON value and the values nested in it. *)
Lemma json_ind_full (P : json -> Prop) :
  P JNull ->
  (forall b, P (JBool b)) ->
  (forall n, P (JNum n)) ->
  (forall s, P (JStr s)) ->
  (forall items, Forall P items -> P (JArr items)) ->
  (forall fields, Forall (fun kv => P (snd kv)) fields -> P (JObj fields)) ->
  forall obj, P obj.
Proof.
  intros Hnull Hbool Hnum Hstr Harr Hobj.
  fix IH 1. intros [|b|n|s|items|fields].
  - exact Hnull.
  - apply Hbool.
  - apply Hnum.
  - apply Hstr.
  - apply Harr. induction items as [|x items IHitems]; constructor.
    + apply IH.
    + exact IHitems.
  - apply Hobj. induction fields as [|[k v] fields IHfields]; constructor.
    + apply IH.
    + exact IHfields.
Qed.

Lemma no_match_at (c : ascii) (s : string) :
  Ascii.eqb c dollar = false ->
  String.prefix placeholder (String c s) = false.
Proof.
  intros H. apply Ascii.eqb_neq in H. unfold placeholder.
  cbn [String.prefix].
  destruct (ascii_dec "$" c) as [E|E]; [|reflexivity].
  exfalso. apply H. symmetry. exact E.
Qed.

Lemma replace_from_absent (root : string) (s before : string) :
  occurs s = false -> replace_from root 0 before s = s.
Proof.
  revert before. induction s as [|c s IH]; intros before H; [reflexivity|].
  cbn [occurs] in H. apply orb_false_iff in H. destruct H as [Hp Ho].
  cbn [replace_from]. rewrite Hp. now rewrite IH.
Qed.

Lemma expand_plain (before matched after root : string) :
  has_dollar root = false -> expand before matched after root = root.
Proof.
  induction root as [|c root IH]; [reflexivity|].
  cbn [has_dollar]. intros H. apply orb_false_iff in H. destruct H as [Hc Hr].
  cbn [expand]. rewrite Hc. now rewrite IH.
Qed.

Lemma replace_from_before (root : string) :
  has_dollar root = false ->
  forall s skip before before',
    replace_from root skip before s = replace_from root skip before' s.
Proof.
  intros Hroot. induction s as [|c s IH]; intros skip before before';
    [reflexivity|].
  cbn [replace_from]. destruct skip as [|skip]; [|apply IH].
  destruct (String.prefix placeholder (String c s)).
  - rewrite !(expand_plain _ _ _ _ Hroot). f_equal. apply IH.
  - f_equal. apply IH.
Qed.

Lemma replace_from_skip (root : string) (covered rest : string) :
  forall before,
    replace_from root (String.length covered) before (covered ++ rest)
    = replace_from root 0 (before ++ covered) rest.
Proof.
  induction covered as [|c covered IH]; intros before.
  - simpl. destruct rest; [reflexivity|].
    assert (H : (before ++ "")%string = before).
    { clear. induction before as [|x b IHb]; simpl; [reflexivity|].
      now rewrite IHb. }
    now rewrite H.
  - simpl. rewrite IH. f_equal.
    clear. induction before as [|x b IHb]; simpl; [reflexivity|].
    now rewrite IHb.
Qed.

Lemma string_app_assoc (a b c : string) :
  ((a ++ b) ++ c = a ++ (b ++ c))%string.
Proof. induction a as [|x a IH]; simpl; [reflexivity | now rewrite IH]. Qed.

Lemma string_app_nil (a : string) : (a ++ "")%string = a.
Proof. induction a as [|x a IH]; simpl; [reflexivity | now rewrite IH]. Qed.

Lemma placeholder_app (rest : string) :
  (placeholder ++ rest)%string = String dollar (placeholder_tail ++ rest).
Proof. reflexivity. Qed.

Lemma placeholder_length :
  String.length placeholder - 1 = String.length placeholder_tail.
Proof. reflexivity. Qed.

Lemma drop_app (a b : string) : drop (String.length a) (a ++ b) = b.
Proof. induction a as [|x a IH]; simpl; [now destruct b | exact IH]. Qed.

Lemma replace_from_match (root before : string) (c : ascii) (s : string) :
  String.prefix placeholder (String c s) = true ->
  replace_from root 0 before (String c s)
  = (expand before placeholder
       (drop (String.length placeholder) (String c s)) root
     ++ replace_from root (String.length placeholder - 1)
          (before ++ String c EmptyString) s)%string.
Proof. intros H. cbn [replace_from]. rewrite H. reflexivity. Qed.

(** The first match of a string, after a prefix without dollar sign. *)
Lemma replace_from_first (root head rest : string) :
  has_dollar head = false ->
  forall before,
    replace_from root 0 before (head ++ placeholder ++ rest)
    = (head ++ expand (before ++ head) placeholder rest root
         ++ replace_from root 0 (before ++ head ++ placeholder) rest)%string.
Proof.
  induction head as [|c head IH]; intros Hhead before.
  - cbn [append]. rewrite string_app_nil.
    assert (Hp : String.prefix placeholder
                   (String dollar (placeholder_tail ++ rest)) = true).
    { rewrite <- placeholder_app.
      apply (ExecutorFacts.prefix_app placeholder rest). }
    assert (Hd : drop (String.length placeholder)
                   (String dollar (placeholder_tail ++ rest)) = rest).
    { rewrite <- placeholder_app. apply drop_app. }
    rewrite placeholder_app, (replace_from_match _ _ _ _ Hp), Hd.
    rewrite placeholder_length, replace_from_skip, string_app_assoc.
    reflexivity.
  - cbn [has_dollar] in Hhead. apply orb_false_iff in Hhead.
    destruct Hhead as [Hc Hh].
    cbn [append replace_from]. rewrite (no_match_at _ _ Hc).
    f_equal. rewrite (IH Hh), !string_app_assoc. reflexivity.
Qed.

Lemma expand_app (before matched after a b : string) :
  has_dollar a = false ->
  expand before matched after (a ++ b)
  = (a ++ expand before matched after b)%string.
Proof.
  induction a as [|c a IH]; [reflexivity|].
  cbn [has_dollar]. intros H. apply orb_false_iff in H. destruct H as [Hc Ha].
  cbn [append expand]. rewrite Hc. now rewrite IH.
Qed.

(** X20. With a workspace path that has no dollar sign, the first
    placeholder of a string is replaced by the path, what precedes it is
    kept, and the replacement goes on in what follows it. *)
Theorem placeholder_is_replaced (root head rest : string) :
  has_dollar root = false ->
  has_dollar head = false ->
  replace root (head ++ placeholder ++ rest)
  = (head ++ root ++ replace root rest)%string.
Proof.
  intros Hroot Hhead. unfold replace.
  rewrite (replace_from_first root head rest Hhead).
  rewrite (expand_plain _ _ _ _ Hroot). do 2 f_equal.
  now apply replace_from_before.
Qed.

(** X21. The workspace path is used as a replacement pattern, not as plain
    text: of two dollar signs in a row in the path only one reaches the
    configuration. *)
Theorem doubled_dollar_collapses (a b head rest : string) :
  has_dollar a = false ->
  has_dollar b = false ->
  has_dollar head = false ->
  occurs rest = false ->
  replace (a ++ "$$" ++ b) (head ++ placeholder ++ rest)
  = (head ++ (a ++ "$" ++ b) ++ rest)%string.
Proof.
  intros Ha Hb Hhead Hrest. unfold replace.
  rewrite (replace_from_first _ head rest Hhead).
  rewrite (expand_app _ _ _ a _ Ha).
  change ("$$" ++ b)%string with (String dollar (String dollar b)).
  cbn [expand]. rewrite !Ascii.eqb_refl.
  rewrite (expand_plain _ _ _ _ Hb).
  rewrite (replace_from_absent _ _ _ Hrest).
  rewrite !string_app_assoc. reflexivity.
Qed.

Lemma doubled_dollar_collapses_witness :
  replace "/home/u/a$$b" "${workspaceFolder}/app.js" = "/home/u/a$b/app.js".
Proof.
  exact (doubled_dollar_collapses "/home/u/a" "b" "" "/app.js"
           eq_refl eq_refl eq_refl eq_refl).
Defined.

Lemma map_fields_id (f : json -> json) (fields : list (string * json)) :
  Forall (fun kv => f (snd kv) = snd kv) fields ->
  map (fun kv => match kv with (key, value) => (key, f value) end) fields
  = fields.
Proof.
  induction 1 as [|[k v] fields Hkv _ IH]; simpl; [reflexivity|].
  simpl in Hkv. now rewrite Hkv, IH.
Qed.

(** X22. A value in which the placeholder does not occur (and no object
    has a [__proto__] key) comes back from [replacePlaceholders] as it
    went in, whatever the workspace path; so does a configuration. *)
Theorem without_placeholder_unchanged (root : string) :
  (forall obj, clean obj = true -> replacePlaceholders root obj = obj) /\
  (forall c,
     occurs (Execute.name c) = false ->
     clean (JObj (Execute.fields c)) = true ->
     replace_config root c = c).
Proof.
  assert (Hobj : forall obj, clean obj = true ->
                             replacePlaceholders root obj = obj).
  { induction obj as [|b|n|s|items IH|fields IH] using json_ind_full;
      intros Hc; try reflexivity.
    - simpl in Hc. apply negb_true_iff in Hc. simpl. f_equal.
      now apply replace_from_absent.
    - cbn [replacePlaceholders]. f_equal.
      simpl in Hc. induction IH as [|x items Hx _ IHitems]; [reflexivity|].
      simpl in Hc. apply andb_true_iff in Hc. destruct Hc as [H1 H2].
      simpl. now rewrite Hx, IHitems.
    - cbn [replacePlaceholders]. f_equal. simpl in Hc.
      induction IH as [|[k v] fields Hkv _ IHfields]; [reflexivity|].
      simpl in Hc. apply andb_true_iff in Hc. destruct Hc as [H1 H2].
      apply andb_true_iff in H1. destruct H1 as [Hk Hv].
      simpl in Hkv. cbn [map filter fst]. rewrite Hk.
      now rewrite (Hkv Hv), (IHfields H2). }
  split; [exact Hobj|].
  intros [n fields] Hn Hc. unfold replace_config. simpl in *.
  specialize (Hobj (JObj fields) Hc). cbn [replacePlaceholders] in Hobj.
  inversion Hobj as [Hfields]. rewrite Hfields. f_equal.
  - now apply replace_from_absent.
  - exact Hfields.
Qed.

Lemma without_proto_plain (obj : json) :
  plain_keys obj = true -> without_proto obj = obj.
Proof.
  induction obj as [|b|n|s|items IH|fields IH] using json_ind_full;
    intros Hp; try reflexivity.
  - cbn [without_proto]. f_equal. cbn [plain_keys] in Hp.
    induction IH as [|x items Hx _ IHitems]; [reflexivity|].
    cbn [forallb] in Hp. apply andb_true_iff in Hp. destruct Hp as [H1 H2].
    cbn [map]. now rewrite (Hx H1), (IHitems H2).
  - cbn [without_proto]. f_equal. cbn [plain_keys] in Hp.
    induction IH as [|[k v] fields Hkv _ IHfields]; [reflexivity|].
    cbn [forallb] in Hp. apply andb_true_iff in Hp. destruct Hp as [H1 H2].
    apply andb_true_iff in H1. destruct H1 as [Hk Hv].
    cbn [snd] in Hkv. cbn [map filter fst]. rewrite Hk.
    now rewrite (Hkv Hv), (IHfields H2).
Qed.

Lemma skeleton_replaced (root : string) (obj : json) :
  skeleton (replacePlaceholders root obj) = skeleton (without_proto obj).
Proof.
  induction obj as [|b|n|s|items IH|fields IH] using json_ind_full;
    try reflexivity.
  - cbn [replacePlaceholders without_proto skeleton]. f_equal.
    rewrite !map_map.
    induction IH as [|x items Hx _ IHitems]; [reflexivity|].
    cbn [map]. now rewrite Hx, IHitems.
  - cbn [replacePlaceholders without_proto skeleton]. f_equal.
    induction IH as [|[k v] fields Hkv _ IHfields]; [reflexivity|].
    cbn [snd] in Hkv. cbn [map filter fst].
    destruct (creates_property k); [|exact IHfields].
    cbn [map]. now rewrite Hkv, IHfields.
Qed.

(** X23. Apart from dropping every [__proto__] key with what is under
    it, [replacePlaceholders] changes strings only: the nesting of the
    value, the length and order of its arrays, the other keys of its
    objects and its numbers, booleans and nulls are kept; a value
    without [__proto__] keys keeps all its keys. *)
Theorem only_strings_change (root : string) (obj : json) :
  skeleton (replacePlaceholders root obj) = skeleton (without_proto obj) /\
  (plain_keys obj = true ->
   skeleton (replacePlaceholders root obj) = skeleton obj).
Proof.
  split; [apply skeleton_replaced|].
  intros Hp. rewrite skeleton_replaced. now rewrite without_proto_plain.
Qed.

Lemma only_strings_change_witness :
  skeleton (replacePlaceholders "/home/u/web" node_launch)
    = skeleton node_launch /\
  replacePlaceholders "/home/u/web" polluted_launch
    = JObj [("cwd", JStr "/home/u/web")].
Proof.
  split.
  - exact (proj2 (only_strings_change "/home/u/web" node_launch) eq_refl).
  - reflexivity.
Defined.

Lemma placeholder_is_replaced_witness :
  replace "/home/u/web" "--cwd=${workspaceFolder}/src"
  = ("--cwd=/home/u/web" ++ replace "/home/u/web" "/src")%string.
Proof.
  exact (placeholder_is_replaced "/home/u/web" "--cwd=" "/src"
           eq_refl eq_refl).
Defined.

Lemma without_placeholder_unchanged_witness :
  replacePlaceholders "/home/u/web"
    (JObj [("type", JStr "node"); ("port", JNum 9229)])
  = JObj [("type", JStr "node"); ("port", JNum 9229)].
Proof.
  exact (proj1 (without_placeholder_unchanged "/home/u/web")
           (JObj [("type", JStr "node"); ("port", JNum 9229)]) eq_refl).
Defined.

End PlaceholdersFacts.
(** ** [handleInspect] *)

Module InspectFacts.
Import Inspect.

Lemma top_frame_requests host adapter args :
  forall req, In req (snd (top_frame host adapter args)) ->
    forall q, req <> Evaluate q.
Proof.
  intros req Hin q. unfold top_frame in Hin.
  assert (Hres : forall r, In r (resolve_requests host (threadId args)) ->
                           r = Threads).
  { intros r. unfold resolve_requests.
    destruct (threadId args); [intros []|].
    destruct (Execute.activeStackItem host); simpl; intuition. }
  destruct (Execute.resolveThreadId host (threadId args)) as [thread|e].
  - assert (Hsent : forall r,
              In r (resolve_requests host (threadId args)
                      ++ [StackTrace {| q_threadId := thread;
                                        q_startFrame := None;
                                        q_levels := None |}]) ->
              forall q', r <> Evaluate q').
    { intros r Hr q'. apply in_app_or in Hr. destruct Hr as [Hr|[Hr|[]]].
      - rewrite (Hres r Hr). discriminate.
      - rewrite <- Hr. discriminate. }
    destruct (stackTrace adapter _) as [frames|e].
    + destruct (frames_of frames); apply (Hsent req Hin).
    + apply (Hsent req Hin).
  - simpl in Hin. rewrite (Hres req Hin). discriminate.
Qed.

Lemma top_frame_Ok host adapter args f sent :
  top_frame host adapter args = (Ok f, sent) ->
  exists thread reply top rest,
    Execute.resolveThreadId host (threadId args) = Ok thread /\
    stackTrace adapter {| q_threadId := thread; q_startFrame := None;
                          q_levels := None |} = Ok reply /\
    frames_of reply = top :: rest /\
    f = Executor.dap_id top /\
    sent = resolve_requests host (threadId args)
             ++ [StackTrace {| q_threadId := thread; q_startFrame := None;
                               q_levels := None |}].
Proof.
  unfold top_frame.
  destruct (Execute.resolveThreadId host (threadId args)) as [thread|e];
    [|discriminate].
  destruct (stackTrace adapter _) as [reply|e] eqn:Hreply; [|discriminate].
  destruct (frames_of reply) as [|top rest] eqn:Hframes; [discriminate|].
  intros H. injection H as Hf Hsent.
  exists thread, reply, top, rest. repeat split; auto.
Qed.

(** What [handle_evaluate] sends once a frame is known. *)
Lemma handle_evaluate_sent host adapter args :
  truthy_string (expression args) = true ->
  forall f sent,
    match frameId args with
    | Some f => (Ok f, [])
    | None => top_frame host adapter args
    end = (Ok f, sent) ->
    snd (handle_evaluate host adapter args)
    = sent ++ [Evaluate
                 {| e_expression := string_value (expression args);
                    e_frameId := f;
                    e_context :=
                      if truthy_string (context args)
                      then string_value (context args) else "repl" |}].
Proof.
  intros He f sent Hf. unfold handle_evaluate. rewrite He. cbn [negb].
  rewrite Hf.
  destruct (evaluate adapter _) as [[r|]|e]; reflexivity.
Qed.

Lemma handle_evaluate_failed host adapter args e sent :
  match frameId args with
  | Some f => (Ok f, [])
  | None => top_frame host adapter args
  end = (Throw e, sent) ->
  truthy_string (expression args) = true ->
  snd (handle_evaluate host adapter args) = sent.
Proof.
  intros Hf He. unfold handle_evaluate. rewrite He. cbn [negb].
  rewrite Hf. reflexivity.
Qed.

Lemma handle_stackTrace_requests host adapter args :
  forall req, In req (snd (handle_stackTrace host adapter args)) ->
    forall q, req <> Evaluate q.
Proof.
  intros req Hin q. unfold handle_stackTrace in Hin.
  assert (Hres : forall r, In r (resolve_requests host (threadId args)) ->
                           r = Threads).
  { intros r. unfold resolve_requests.
    destruct (threadId args); [intros []|].
    destruct (Execute.activeStackItem host); simpl; intuition. }
  destruct (Execute.resolveThreadId host (threadId args)) as [thread|e].
  - match type of Hin with
    | context [stackTrace adapter ?query] =>
        assert (Hsent : forall r,
                  In r (resolve_requests host (threadId args)
                          ++ [StackTrace query]) ->
                  forall q', r <> Evaluate q')
    end.
    { intros r Hr q'. apply in_app_or in Hr. destruct Hr as [Hr|[Hr|[]]].
      - rewrite (Hres r Hr). discriminate.
      - rewrite <- Hr. discriminate. }
    destruct (stackTrace adapter _) as [[response|]|e];
      apply (Hsent req Hin).
  - simpl in Hin. rewrite (Hres req Hin). discriminate.
Qed.

Lemma context_not_empty (c : option string) :
  (if truthy_string c then string_value c else "repl") <> "".
Proof.
  destruct c as [c|]; simpl; [|discriminate].
  destruct (c =? "")%string eqn:Hc; simpl; [discriminate|].
  intros ->. discriminate.
Qed.

(** X24. [handleInspect] sends a request to the debug adapter only when a
    debug session is active and the action is [evaluate] with a non-empty
    expression, or [stackTrace]; and it returns a result only after
    having sent one. *)
Theorem inspect_asks_only_when_valid host adapter args :
  (snd (handleInspect host adapter args) <> [] ->
     Execute.activeDebugSession host <> None /\
     ((action args = "evaluate" /\ truthy_string (expression args) = true)
      \/ action args = "stackTrace")) /\
  (forall response,
     fst (handleInspect host adapter args) = Ok response ->
     snd (handleInspect host adapter args) <> []).
Proof.
  unfold handleInspect.
  destruct (Execute.activeDebugSession host) as [s|].
  2:{ split; [intros H; exfalso; apply H; reflexivity | discriminate]. }
  destruct (action args =? "evaluate")%string eqn:Hev.
  - apply String.eqb_eq in Hev. split.
    + intros Hsent. split; [discriminate|]. left. split; [assumption|].
      unfold handle_evaluate in Hsent.
      destruct (truthy_string (expression args)); [reflexivity|].
      exfalso. apply Hsent. reflexivity.
    + intros response. unfold handle_evaluate.
      destruct (truthy_string (expression args)); [|discriminate].
      cbn [negb].
      destruct (match frameId args with
                | Some f => (Ok f, [])
                | None => top_frame host adapter args
                end) as [[f|e] sent]; [|discriminate].
      destruct (evaluate adapter _) as [[r|]|e]; try discriminate.
      intros _. simpl. destruct sent; discriminate.
  - destruct (action args =? "stackTrace")%string eqn:Hst.
    + apply String.eqb_eq in Hst. split.
      * intros _. split; [discriminate|]. right. assumption.
      * intros response. unfold handle_stackTrace.
        destruct (Execute.resolveThreadId host (threadId args)) as [t|e];
          [|discriminate].
        destruct (stackTrace adapter _) as [[r|]|e]; try discriminate.
        intros _. simpl.
        destruct (resolve_requests host (threadId args)); discriminate.
    + split; [intros H; exfalso; apply H; reflexivity | discriminate].
Qed.

Lemma inspect_asks_only_when_valid_witness :
  Execute.activeDebugSession paused_host = Some 1 /\
  action evaluate_x = "evaluate" /\
  snd (handleInspect paused_host node_adapter evaluate_x)
    = [Evaluate {| e_expression := "x"; e_frameId := 1000;
                   e_context := "repl" |}].
Proof.
  destruct (inspect_asks_only_when_valid paused_host node_adapter evaluate_x)
    as [Hvalid _].
  assert (Hsent : snd (handleInspect paused_host node_adapter evaluate_x)
                    <> []) by (vm_compute; discriminate).
  destruct (Hvalid Hsent) as [_ [[Haction _] | Haction]].
  - split; [reflexivity|]. split; [exact Haction | reflexivity].
  - vm_compute in Haction. discriminate Haction.
Defined.

(** X25. Whatever the arguments and the adapter, [handleInspect] sends at
    most one [evaluate] request, and only as the last request of an
    [evaluate] call; the request carries the given expression and a
    non-empty context, [repl] unless the caller named one. *)
Theorem evaluate_request_is_last host adapter args query :
  In (Evaluate query) (snd (handleInspect host adapter args)) ->
  action args = "evaluate" /\
  e_expression query = string_value (expression args) /\
  e_context query <> "" /\
  (truthy_string (context args) = false -> e_context query = "repl") /\
  exists before,
    snd (handleInspect host adapter args) = before ++ [Evaluate query] /\
    forall req, In req before -> forall q, req <> Evaluate q.
Proof.
  unfold handleInspect.
  destruct (Execute.activeDebugSession host) as [s|]; [|intros []].
  destruct (action args =? "evaluate")%string eqn:Hev.
  - apply String.eqb_eq in Hev. intros Hin.
    destruct (truthy_string (expression args)) eqn:He.
    2:{ unfold handle_evaluate in Hin. rewrite He in Hin. destruct Hin. }
    destruct (match frameId args with
              | Some f => (Ok f, [])
              | None => top_frame host adapter args
              end) as [[f|e] sent] eqn:Hframe.
    + assert (Hsent : forall req, In req sent -> forall q, req <> Evaluate q).
      { destruct (frameId args).
        - injection Hframe as _ <-. intros req [].
        - pose proof (top_frame_requests host adapter args) as H.
          rewrite Hframe in H. exact H. }
      rewrite (handle_evaluate_sent host adapter args He f sent Hframe) in *.
      apply in_app_or in Hin. destruct Hin as [Hin|[Hin|[]]].
      { exfalso. exact (Hsent _ Hin query eq_refl). }
      injection Hin as <-. cbn [e_expression e_context].
      split; [assumption|]. split; [reflexivity|].
      split; [apply context_not_empty|].
      split; [intros ->; reflexivity|].
      exists sent. split; [reflexivity | exact Hsent].
    + rewrite (handle_evaluate_failed host adapter args e sent Hframe He)
        in Hin.
      exfalso. destruct (frameId args); [discriminate|].
      pose proof (top_frame_requests host adapter args) as H.
      rewrite Hframe in H. exact (H _ Hin query eq_refl).
  - destruct (action args =? "stackTrace")%string; [|intros []].
    intros Hin. exfalso.
    exact (handle_stackTrace_requests host adapter args _ Hin query eq_refl).
Qed.

Lemma evaluate_request_is_last_witness :
  In (Evaluate {| e_expression := "x"; e_frameId := 1000;
                  e_context := "watch" |})
     (snd (handleInspect paused_host node_adapter top_of_stack)) /\
  snd (handleInspect paused_host node_adapter top_of_stack)
    = [StackTrace {| q_threadId := 7; q_startFrame := None;
                     q_levels := None |};
       Evaluate {| e_expression := "x"; e_frameId := 1000;
                   e_context := "watch" |}].
Proof.
  assert (Hin : In (Evaluate {| e_expression := "x"; e_frameId := 1000;
                                e_context := "watch" |})
                   (snd (handleInspect paused_host node_adapter top_of_stack)))
    by (vm_compute; right; left; reflexivity).
  split; [exact Hin|].
  destruct (evaluate_request_is_last paused_host node_adapter top_of_stack
              _ Hin) as (_ & _ & _ & _ & before & Hlog & _).
  rewrite Hlog.
  destruct before as [|r1 [|r2 before]]; vm_compute in Hlog.
  - discriminate Hlog.
  - injection Hlog as <-. reflexivity.
  - injection Hlog as _ _ Hrest. destruct before; discriminate Hrest.
Defined.

(** X26. Without [frameId], an [evaluate] call evaluates in the top frame
    of a stack trace it requests afresh for the resolved thread: the
    frame of [vscode.debug.activeStackItem] is never used, and without
    any frame in the reply no [evaluate] request is sent. *)
Theorem evaluate_in_fresh_top_frame host adapter args query :
  frameId args = None ->
  In (Evaluate query) (snd (handleInspect host adapter args)) ->
  exists thread reply top rest,
    Execute.resolveThreadId host (threadId args) = Ok thread /\
    stackTrace adapter {| q_threadId := thread; q_startFrame := None;
                          q_levels := None |} = Ok reply /\
    frames_of reply = top :: rest /\
    e_frameId query = Executor.dap_id top /\
    snd (handleInspect host adapter args)
    = resolve_requests host (threadId args)
        ++ [StackTrace {| q_threadId := thread; q_startFrame := None;
                          q_levels := None |};
            Evaluate query].
Proof.
  intros Hnone. unfold handleInspect.
  destruct (Execute.activeDebugSession host) as [s|]; [|intros []].
  destruct (action args =? "evaluate")%string.
  - intros Hin.
    destruct (truthy_string (expression args)) eqn:He.
    2:{ unfold handle_evaluate in Hin. rewrite He in Hin. destruct Hin. }
    destruct (top_frame host adapter args) as [[f|e] sent] eqn:Hframe.
    + assert (Hf : match frameId args with
                   | Some f => (Ok f, [])
                   | None => top_frame host adapter args
                   end = (Ok f, sent)) by (rewrite Hnone; exact Hframe).
      rewrite (handle_evaluate_sent host adapter args He f sent Hf) in *.
      destruct (top_frame_Ok host adapter args f sent Hframe)
        as (thread & reply & top & rest & Ht & Hr & Hfr & Hid & Hsent).
      apply in_app_or in Hin. destruct Hin as [Hin|[Hin|[]]].
      { exfalso. pose proof (top_frame_requests host adapter args) as H.
        rewrite Hframe in H. exact (H _ Hin query eq_refl). }
      injection Hin as <-. cbn [e_frameId].
      exists thread, reply, top, rest.
      split; [assumption|]. split; [assumption|]. split; [assumption|].
      split; [exact Hid|].
      rewrite Hsent, <- app_assoc. reflexivity.
    + assert (Hf : match frameId args with
                   | Some f => (Ok f, [])
                   | None => top_frame host adapter args
                   end = (Throw e, sent)) by (rewrite Hnone; exact Hframe).
      rewrite (handle_evaluate_failed host adapter args e sent Hf He) in Hin.
      exfalso. pose proof (top_frame_requests host adapter args) as H.
      rewrite Hframe in H. exact (H _ Hin query eq_refl).
  - destruct (action args =? "stackTrace")%string; [|intros []].
    intros Hin. exfalso.
    exact (handle_stackTrace_requests host adapter args _ Hin query eq_refl).
Qed.

Lemma evaluate_in_fresh_top_frame_witness :
  Execute.activeStackItem paused_host = Execute.DebugStackFrame 7 999 /\
  exists top rest,
    two_frames = top :: rest /\ Executor.dap_id top = 1000%Z.
Proof.
  split; [reflexivity|].
  assert (Hin : In (Evaluate {| e_expression := "x"; e_frameId := 1000;
                                e_context := "watch" |})
                   (snd (handleInspect paused_host node_adapter top_of_stack)))
    by (vm_compute; right; left; reflexivity).
  destruct (evaluate_in_fresh_top_frame paused_host node_adapter top_of_stack
              _ eq_refl Hin)
    as (thread & reply & top & rest & _ & Hreply & Hframes & Hid & _).
  injection Hreply as <-. exists top, rest.
  split; [exact Hframes | symmetry; exact Hid].
Defined.

(** X27. The [stackTrace] action asks for the frames from [startFrame]
    (0 when omitted) and for [levels] of them (20 when omitted, while an
    explicit 0 is passed on), and maps the reply frame by frame as
    [gatherStoppedState] does: on the same reply it lists exactly the
    frames of the stop report, whose location is that of the first. *)
Theorem inspect_stack_matches_stop_state host adapter args session thread
    response state :
  Execute.activeDebugSession host = Some session ->
  action args = "stackTrace" ->
  Execute.resolveThreadId host (threadId args) = Ok thread ->
  stackTrace adapter
    {| q_threadId := thread;
       q_startFrame := Some match startFrame args with
                            | Some n => n | None => 0%Z end;
       q_levels := Some match levels args with
                        | Some n => n | None => 20%Z end |}
    = Ok (Some response) ->
  Executor.stopped_state_of (Ok (stackFrames response)) = Ok state ->
  fst (handleInspect host adapter args)
    = Ok (Stack thread (Executor.stackTrace state) (totalFrames response)) /\
  exists top rest,
    Executor.stackTrace state = top :: rest /\
    Executor.frame_file top = Executor.file state /\
    Executor.frame_line top = Executor.line state /\
    Executor.frame_column top = Executor.column state.
Proof.
  intros Hs Ha Ht Hreply Hstate.
  unfold handleInspect. rewrite Hs, Ha. cbn [String.eqb Ascii.eqb Bool.eqb].
  unfold handle_stackTrace. rewrite Ht. cbv zeta. rewrite Hreply.
  cbn [fst frames_of].
  unfold Executor.stopped_state_of in Hstate.
  destruct (stackFrames response) as [[|top rest]|]; try discriminate.
  injection Hstate as <-. cbn [Executor.stackTrace].
  split; [reflexivity|].
  exists (Executor.frame_of top), (map Executor.frame_of rest).
  repeat split.
Qed.

Lemma inspect_stack_matches_stop_state_witness :
  fst (handleInspect paused_host node_adapter default_window)
    = Ok (Stack 7 (map Executor.frame_of two_frames) (Some (JNum 2))).
Proof.
  destruct (inspect_stack_matches_stop_state paused_host node_adapter
              default_window 1 7
              {| stackFrames := Some two_frames;
                 totalFrames := Some (JNum 2) |}
              {| Executor.file := Executor.file_of (ExecutorProps.frame_at 1000);
                 Executor.line := Executor.dap_line (ExecutorProps.frame_at 1000);
                 Executor.column :=
                   Executor.dap_column (ExecutorProps.frame_at 1000);
                 Executor.stackTrace := map Executor.frame_of two_frames |}
              eq_refl eq_refl eq_refl eq_refl eq_refl) as [H _].
  exact H.
Defined.

End InspectFacts.

(** ** The bridge and the [/tcp] endpoint, end to end *)

Module BridgeClientFacts.
Import Tcp BridgeClient.

Lemma settle_received (e : Envelope) :
  settle (Value (received e))
  = if success e then Ok (data e)
    else Throw match error e with
               | Some m => if m =? "" then "Unknown error" else m
               | None => "Unknown error"
               end.
Proof.
  destruct e as [[|] [d|] [m|]]; cbn; try reflexivity;
    destruct (m =? ""); reflexivity.
Qed.

Section Reachable.
Variable tools : json.
Variable handleExecute : option json -> Result json.
Variable handleBreakpoints : option json -> Result json.
Variable handleInspect : option json -> Result json.

Local Abbreviation endpoint :=
  (tcp tools handleExecute handleBreakpoints handleInspect).
Local Abbreviation call :=
  (callTool tools handleExecute handleBreakpoints handleInspect).

Lemma payload_dispatch (name : string) (arguments : option json) :
  handleCommand handleExecute handleBreakpoints handleInspect
    (payload name arguments)
  = if name =? "debug_execute" then handleExecute arguments
    else if name =? "debug_breakpoints" then handleBreakpoints arguments
    else if name =? "debug_inspect" then handleInspect arguments
    else Throw ("Unknown tool: " ++ name).
Proof.
  unfold handleCommand, payload.
  destruct arguments as [a|]; reflexivity.
Qed.

Lemma tcp_payload (name : string) (arguments : option json) :
  endpoint (Value (payload name arguments))
  = match handleCommand handleExecute handleBreakpoints handleInspect
            (payload name arguments) with
    | Ok response => succeed (Some response)
    | Throw m => fail m
    end.
Proof. reflexivity. Qed.

Lemma callTool_eval (name : string) (arguments : option json) :
  call name arguments
  = match handleCommand handleExecute handleBreakpoints handleInspect
            (payload name arguments) with
    | Ok response => Ok (Some response)
    | Throw m => Throw (if m =? "" then "Unknown error" else m)
    end.
Proof.
  unfold callTool, makeRequest. rewrite tcp_payload, settle_received.
  destruct (handleCommand handleExecute handleBreakpoints handleInspect
              (payload name arguments)); reflexivity.
Qed.

(** X28. The bridge, which never looks at the status code, rejects
    exactly the responses the endpoint sends with status 500, with the
    error message of the response ('Unknown error' when that is
    empty), and resolves those sent with status 200, with the [data]
    of the response. *)
Theorem bridge_agrees_with_status (parsed : Parsed) :
  let response := endpoint parsed in
  (status response = 200%Z /\
   settle (Value (received (body response))) = Ok (data (body response)))
  \/
  (status response = 500%Z /\
   exists m, error (body response) = Some m /\
     settle (Value (received (body response)))
     = Throw (if m =? "" then "Unknown error" else m)).
Proof.
  intros response. subst response. rewrite settle_received.
  unfold tcp.
  destruct parsed as [m|request].
  { right. split; [reflexivity|]. exists m. split; reflexivity. }
  destruct (property "type" request) as [type|m].
  2:{ right. split; [reflexivity|]. exists m. split; reflexivity. }
  destruct (is_string type "listTools"); [left; split; reflexivity|].
  destruct (is_string type "callTool"); [|left; split; reflexivity].
  destruct (handleCommand handleExecute handleBreakpoints handleInspect
              request) as [r|m].
  - left. split; reflexivity.
  - right. split; [reflexivity|]. exists m. split; reflexivity.
Qed.

(** X29. A tool call of the bridge reaches the handler of the tool it
    names with the arguments it was given, and the caller gets what the
    handler returns, or is rejected with the message the handler
    throws; a name that is none of the three tools is rejected with
    'Unknown tool: ' and the name. *)
Theorem call_reaches_handler (name : string) (arguments : option json) :
  let answer (r : Result json) : Result (option json) :=
    match r with
    | Ok response => Ok (Some response)
    | Throw m => Throw (if m =? "" then "Unknown error" else m)
    end in
  (name = "debug_execute" ->
   call name arguments = answer (handleExecute arguments)) /\
  (name = "debug_breakpoints" ->
   call name arguments = answer (handleBreakpoints arguments)) /\
  (name = "debug_inspect" ->
   call name arguments = answer (handleInspect arguments)) /\
  (name <> "debug_execute" -> name <> "debug_breakpoints" ->
   name <> "debug_inspect" ->
   call name arguments = Throw ("Unknown tool: " ++ name)%string).
Proof.
  intros answer. subst answer.
  rewrite callTool_eval, payload_dispatch.
  split; [|split; [|split]].
  - intros ->. reflexivity.
  - intros ->. reflexivity.
  - intros ->. reflexivity.
  - intros H1 H2 H3.
    apply String.eqb_neq in H1, H2, H3. rewrite H1, H2, H3.
    destruct name; reflexivity.
Qed.

(** X30. A tool call that the bridge resolves always carries a result:
    the answer without [data] that the endpoint gives to a request of
    unknown type is out of reach of the bridge's tool calls. *)
Theorem resolved_call_has_data (name : string) (arguments : option json)
    (result : option json) :
  call name arguments = Ok result ->
  exists response,
    result = Some response /\
    handleCommand handleExecute handleBreakpoints handleInspect
      (payload name arguments) = Ok response.
Proof.
  rewrite callTool_eval.
  destruct (handleCommand handleExecute handleBreakpoints handleInspect
              (payload name arguments)) as [r|m]; [|discriminate].
  intros H. injection H as <-. exists r. split; reflexivity.
Qed.

End Reachable.

Lemma call_reaches_handler_witness :
  callTool no_tools echo silent echo "debug_breakpoints" (Some (JNum 1))
  = Throw "Unknown error".
Proof.
  exact (proj1 (proj2 (call_reaches_handler no_tools echo silent echo
                         "debug_breakpoints" (Some (JNum 1))))
           eq_refl).
Defined.

Lemma resolved_call_has_data_witness :
  exists response,
    Some (JNum 1) = Some response /\
    handleCommand echo silent echo (payload "debug_inspect" (Some (JNum 1)))
    = Ok response.
Proof.
  exact (resolved_call_has_data no_tools echo silent echo
           "debug_inspect" (Some (JNum 1)) (Some (JNum 1)) eq_refl).
Defined.

End BridgeClientFacts.

